(** * covector: manifest adapter and command runner

    A shallow embedding of
      - [packages/files/src/index.ts]  (module [Files]),
      - the earlier CommonJS files module (module [FilesLegacy]),
      - [packages/covector/src/run.js] (module [Run]),
    together with the ECMAScript and library primitives those files call
    ([String.prototype.trim], [JSON.parse], [JSON.stringify], the [semver]
    validator), and the properties established about them. *)

From Stdlib Require Import Ascii ZArith Lia.
From Stdlib Require Import Numbers.DecimalString.
From stdpp Require Import gmap strings list.

Local Open Scope Z_scope.

(** ** Exceptions and results

    A JavaScript computation either returns or throws.  [Error msg] is
    [new Error(msg)]; the other constructors are the built-in error classes
    the modelled code can raise. *)

Inductive exn : Type :=
  | Error (msg : string)
  | TypeError (msg : string)
  | ReferenceError (ident : string)
  | SyntaxError (msg : string)
  | LibraryError (origin : string).

Inductive result (A : Type) : Type :=
  | Ok (a : A)
  | Throw (e : exn).

Arguments Ok {A} a.
Arguments Throw {A} e.

#[global] Instance result_ret : MRet result := fun _ a => Ok a.
#[global] Instance result_bind : MBind result := fun _ _ f m =>
  match m with
  | Ok a => f a
  | Throw e => Throw e
  end.

Definition is_ok {A} (r : result A) : bool :=
  match r with Ok _ => true | Throw _ => false end.

Definition of_option {A} (e : exn) (o : option A) : result A :=
  match o with Some a => Ok a | None => Throw e end.

(** ** Strings

    A JavaScript string is modelled by the bytes of its UTF-8 encoding, which
    is what the files hold on disk. *)

Module Str.

Definition of_codes (l : list nat) : string :=
  fold_right (fun n s => String (ascii_of_nat n) s) EmptyString l.

Definition code (c : ascii) : N := N_of_ascii c.

Fixpoint rev_onto (s acc : string) : string :=
  match s with
  | EmptyString => acc
  | String c r => rev_onto r (String c acc)
  end.

Definition rev (s : string) : string := rev_onto s EmptyString.

Fixpoint strip_prefix (p s : string) : option string :=
  match p, s with
  | EmptyString, _ => Some s
  | String a p', String b s' =>
      if Ascii.eqb a b then strip_prefix p' s' else None
  | String _ _, EmptyString => None
  end.

Fixpoint strip_any (toks : list string) (s : string) : option string :=
  match toks with
  | [] => None
  | t :: ts =>
      match t, strip_prefix t s with
      | String _ _, Some r => Some r
      | _, _ => strip_any ts s
      end
  end.

Fixpoint strip_all (fuel : nat) (toks : list string) (s : string) : string :=
  match fuel with
  | O => s
  | S n =>
      match strip_any toks s with
      | Some r => strip_all n toks r
      | None => s
      end
  end.

(** The code points ECMAScript counts as WhiteSpace or LineTerminator
    (TAB, LF, VT, FF, CR, SP, NBSP, U+1680, U+2000..U+200A, U+2028,
    U+2029, U+202F, U+205F, U+3000, U+FEFF), in UTF-8. *)
Definition whiteSpace : list string :=
  map of_codes
    [ [9%nat]; [10%nat]; [11%nat]; [12%nat]; [13%nat]; [32%nat];
      [194; 160]%nat; [225; 154; 128]%nat;
      [226; 128; 128]%nat; [226; 128; 129]%nat; [226; 128; 130]%nat;
      [226; 128; 131]%nat; [226; 128; 132]%nat; [226; 128; 133]%nat;
      [226; 128; 134]%nat; [226; 128; 135]%nat; [226; 128; 136]%nat;
      [226; 128; 137]%nat; [226; 128; 138]%nat;
      [226; 128; 168]%nat; [226; 128; 169]%nat; [226; 128; 175]%nat;
      [226; 129; 159]%nat; [227; 128; 128]%nat; [239; 187; 191]%nat ].

Definition trimStart (s : string) : string :=
  strip_all (String.length s) whiteSpace s.

Definition trimEnd (s : string) : string :=
  rev (strip_all (String.length s) (map rev whiteSpace) (rev s)).

(** [String.prototype.trim] *)
Definition trim (s : string) : string := trimEnd (trimStart s).

Definition is_empty (s : string) : bool :=
  match s with EmptyString => true | String _ _ => false end.

(** Split at every occurrence of [c] (as [s.split(c)] does). *)
Fixpoint split_on (c : ascii) (s : string) : list string :=
  match s with
  | EmptyString => [EmptyString]
  | String a r =>
      if Ascii.eqb a c then EmptyString :: split_on c r
      else match split_on c r with
           | h :: t => String a h :: t
           | [] => [String a EmptyString]
           end
  end.

(** Cut at the first occurrence of [c], if any. *)
Fixpoint cut_at (c : ascii) (s : string) : string * option string :=
  match s with
  | EmptyString => (EmptyString, None)
  | String a r =>
      if Ascii.eqb a c then (EmptyString, Some r)
      else let '(h, t) := cut_at c r in (String a h, t)
  end.

Fixpoint forallb (p : ascii -> bool) (s : string) : bool :=
  match s with
  | EmptyString => true
  | String a r => p a && forallb p r
  end.

Definition is_digit (c : ascii) : bool :=
  ((48 <=? code c) && (code c <=? 57))%N.

Definition is_letter (c : ascii) : bool :=
  ((65 <=? code c) && (code c <=? 90) || (97 <=? code c) && (code c <=? 122))%N.

(** Decimal value of a string of digits. *)
Fixpoint digits_value (acc : N) (s : string) : N :=
  match s with
  | EmptyString => acc
  | String a r => digits_value (acc * 10 + (code a - 48))%N r
  end.

Definition of_Z (z : Z) : string := NilZero.string_of_int (Z.to_int z).

Definition of_nat (n : nat) : string := of_Z (Z.of_nat n).

(** Does [sub] occur in [s]? *)
Fixpoint contains (sub s : string) : bool :=
  match strip_prefix sub s with
  | Some _ => true
  | None =>
      match s with
      | EmptyString => false
      | String _ r => contains sub r
      end
  end.

Fixpoint replace_char (a b : ascii) (s : string) : string :=
  match s with
  | EmptyString => EmptyString
  | String c r => String (if Ascii.eqb c a then b else c) (replace_char a b r)
  end.

Fixpoint join (sep : string) (l : list string) : string :=
  match l with
  | [] => EmptyString
  | [x] => x
  | x :: r => x +:+ sep +:+ join sep r
  end.

End Str.

(** ** JavaScript values

    The values a manifest document is made of: what [JSON.parse] returns, and
    what the TOML and YAML readers return for ordinary manifests.  A number
    [VNum m e] stands for [m * 10^e], the decimal a literal denotes (its
    rounding to a binary double is not modelled; nothing here computes with
    numbers); an object is the list of its own properties in enumeration
    order.  Inherited properties are not modelled. *)

#[warnings="-register-all"]
Inductive value : Type :=
  | VUndefined
  | VNull
  | VBool (b : bool)
  | VNum (m e : Z)
  | VStr (s : string)
  | VArr (items : list value)
  | VObj (members : list (string * value)).

Module Js.

Definition nl : string := Str.of_codes [10%nat].

(** [!!x] *)
Definition truthy (x : value) : bool :=
  match x with
  | VUndefined | VNull => false
  | VBool b => b
  | VNum m _ => negb (m =? 0)
  | VStr s => negb (Str.is_empty s)
  | VArr _ | VObj _ => true
  end.

Inductive type_tag : Type :=
  | TUndefined | TObject | TBoolean | TNumber | TString.

(** [typeof x] *)
Definition typeof (x : value) : type_tag :=
  match x with
  | VUndefined => TUndefined
  | VNull | VArr _ | VObj _ => TObject
  | VBool _ => TBoolean
  | VNum _ _ => TNumber
  | VStr _ => TString
  end.

Definition is_object (x : value) : bool :=
  match typeof x with TObject => true | _ => false end.

Definition is_string (x : value) : bool :=
  match x with VStr _ => true | _ => false end.

(** A property key that is an array index: the canonical decimal form of
    an integer below [2^32 - 1]. *)
Definition array_index (k : string) : option nat :=
  match k with
  | EmptyString => None
  | String c r =>
      if Str.forallb Str.is_digit k
         && (Str.is_empty r || negb (Ascii.eqb c "0"%char))
         && (Str.digits_value 0 k <? 4294967295)%N
      then Some (N.to_nat (Str.digits_value 0 k))
      else None
  end.

Fixpoint obj_get (k : string) (m : list (string * value)) : value :=
  match m with
  | [] => VUndefined
  | (k', x) :: r => if String.eqb k' k then x else obj_get k r
  end.

Fixpoint obj_has (k : string) (m : list (string * value)) : bool :=
  match m with
  | [] => false
  | (k', _) :: r => String.eqb k' k || obj_has k r
  end.

Fixpoint obj_replace (k : string) (v : value) (m : list (string * value))
  : list (string * value) :=
  match m with
  | [] => []
  | (k', x) :: r =>
      if String.eqb k' k then (k', v) :: r else (k', x) :: obj_replace k v r
  end.

(** Where a new integer key goes: integer keys come first, ascending. *)
Fixpoint obj_insert_index (i : nat) (k : string) (v : value)
  (m : list (string * value)) : list (string * value) :=
  match m with
  | [] => [(k, v)]
  | (k', x) :: r =>
      match array_index k' with
      | Some j =>
          if (j <? i)%nat then (k', x) :: obj_insert_index i k v r
          else (k, v) :: m
      | None => (k, v) :: m
      end
  end.

(** [o[k] = v] on an ordinary object: an existing property keeps its place,
    a new integer key is placed among the integer keys, any other new key
    goes last. *)
Definition obj_set (k : string) (v : value) (m : list (string * value))
  : list (string * value) :=
  if obj_has k m then obj_replace k v m
  else match array_index k with
       | Some i => obj_insert_index i k v m
       | None => m ++ [(k, v)]
       end.

Definition arr_get (k : string) (items : list value) : value :=
  if String.eqb k "length" then VNum (Z.of_nat (length items)) 0
  else match array_index k with
       | Some i => nth i items VUndefined
       | None => VUndefined
       end.

Definition resize (n : nat) (items : list value) : list value :=
  take n items ++ replicate (n - length items) VUndefined.

(** [a[k] = v] on an array.  A property that is neither an index nor
    [length] is dropped: no serializer looks at it. *)
Definition arr_set (k : string) (v : value) (items : list value)
  : result (list value) :=
  if String.eqb k "length" then
    match v with
    | VStr s =>
        match array_index s with
        | Some n => Ok (resize n items)
        | None => Throw (LibraryError "RangeError: Invalid array length")
        end
    | _ => Throw (LibraryError "RangeError: Invalid array length")
    end
  else match array_index k with
       | Some i => Ok (<[i := v]> (resize (Nat.max (S i) (length items)) items))
       | None => Ok items
       end.

Fixpoint str_nth (i : nat) (s : string) : value :=
  match s, i with
  | EmptyString, _ => VUndefined
  | String c _, O => VStr (String c EmptyString)
  | String _ r, S j => str_nth j r
  end.

Definition str_get (k : string) (s : string) : value :=
  if String.eqb k "length" then VNum (Z.of_nat (String.length s)) 0
  else match array_index k with
       | Some i => str_nth i s
       | None => VUndefined
       end.

(** [x[k]] *)
Definition get (x : value) (k : string) : result value :=
  match x with
  | VUndefined => Throw (TypeError ("Cannot read properties of undefined (reading '" +:+ k +:+ "')"))
  | VNull => Throw (TypeError ("Cannot read properties of null (reading '" +:+ k +:+ "')"))
  | VObj m => Ok (obj_get k m)
  | VArr items => Ok (arr_get k items)
  | VStr s => Ok (str_get k s)
  | VBool _ | VNum _ _ => Ok VUndefined
  end.

(** [x[k] = v], in strict mode. *)
Definition set (x : value) (k : string) (v : value) : result value :=
  match x with
  | VUndefined => Throw (TypeError ("Cannot set properties of undefined (setting '" +:+ k +:+ "')"))
  | VNull => Throw (TypeError ("Cannot set properties of null (setting '" +:+ k +:+ "')"))
  | VObj m => Ok (VObj (obj_set k v m))
  | VArr items => items' ← arr_set k v items; Ok (VArr items')
  | VBool _ | VNum _ _ | VStr _ =>
      Throw (TypeError ("Cannot create property '" +:+ k +:+ "'"))
  end.

Definition dq : string := Str.of_codes [34%nat].
Definition bs : string := Str.of_codes [92%nat].

Definition hex_digit (n : N) : string :=
  String.substring (N.to_nat n) 1 "0123456789abcdef".

(** One character of [QuoteJSONString]. *)
Definition quote_char (c : ascii) : string :=
  let n := Str.code c in
  if (n =? 8)%N then bs +:+ "b"
  else if (n =? 9)%N then bs +:+ "t"
  else if (n =? 10)%N then bs +:+ "n"
  else if (n =? 12)%N then bs +:+ "f"
  else if (n =? 13)%N then bs +:+ "r"
  else if (n =? 34)%N then bs +:+ dq
  else if (n =? 92)%N then bs +:+ bs
  else if (n <? 32)%N then bs +:+ "u00" +:+ hex_digit (n / 16) +:+ hex_digit (n mod 16)
  else String c EmptyString.

Fixpoint quote_body (s : string) : string :=
  match s with
  | EmptyString => EmptyString
  | String c r => quote_char c +:+ quote_body r
  end.

(** [QuoteJSONString] *)
Definition quote (s : string) : string := dq +:+ quote_body s +:+ dq.

Fixpoint strip_zeros (fuel : nat) (m e : Z) : Z * Z :=
  match fuel with
  | O => (m, e)
  | S f =>
      if m =? 0 then (0, 0)
      else if m mod 10 =? 0 then strip_zeros f (m / 10) (e + 1)
      else (m, e)
  end.

(** The number [m * 10^e], mantissa without trailing zeros. *)
Definition num (m e : Z) : value :=
  let '(m', e') := strip_zeros (S (Z.to_nat (Z.log2 (Z.abs m)))) m e in
  VNum m' e'.

Fixpoint zeros (n : nat) : string :=
  match n with O => EmptyString | S k => String "0"%char (zeros k) end.

(** [Number::toString] of [m * 10^e], for a mantissa without trailing
    zeros. *)
Definition number_to_string (m e : Z) : string :=
  if m =? 0 then "0"
  else
    let sign := if m <? 0 then "-" else EmptyString in
    let ds := Str.of_Z (Z.abs m) in
    let k := Z.of_nat (String.length ds) in
    let n := k + e in
    sign +:+
    (if (k <=? n) && (n <=? 21) then ds +:+ zeros (Z.to_nat (n - k))
     else if (0 <? n) && (n <=? 21) then
       String.substring 0 (Z.to_nat n) ds +:+ "." +:+
       String.substring (Z.to_nat n) (Z.to_nat (k - n)) ds
     else if (-6 <? n) && (n <=? 0) then
       "0." +:+ zeros (Z.to_nat (- n)) +:+ ds
     else
       let x := n - 1 in
       let xs := (if x <? 0 then "-" else "+") +:+ Str.of_Z (Z.abs x) in
       if k =? 1 then ds +:+ "e" +:+ xs
       else String.substring 0 1 ds +:+ "." +:+
            String.substring 1 (Z.to_nat (k - 1)) ds +:+ "e" +:+ xs).

Section Stringify.

(** The indentation unit, [JSON.stringify]'s third argument. *)
Variable gap : string.

Definition colon : string :=
  if Str.is_empty gap then ":" else ": ".

Definition member (k t : string) : string := quote k +:+ colon +:+ t.

(** Brackets around the serialized parts at nesting [indent]. *)
Definition wrap (opening closing indent : string) (parts : list string) : string :=
  match parts with
  | [] => opening +:+ closing
  | _ :: _ =>
      if Str.is_empty gap then opening +:+ Str.join "," parts +:+ closing
      else opening +:+ nl +:+ (indent +:+ gap)
           +:+ Str.join ("," +:+ nl +:+ (indent +:+ gap)) parts
           +:+ nl +:+ indent +:+ closing
  end.

(** [SerializeJSONProperty]; [None] is [undefined]. *)
Fixpoint ser (indent : string) (x : value) : option string :=
  match x with
  | VUndefined => None
  | VNull => Some "null"
  | VBool b => Some (if b then "true" else "false")
  | VNum m e => Some (number_to_string m e)
  | VStr s => Some (quote s)
  | VArr items =>
      Some (wrap "[" "]" indent
              (map (fun y => default "null" (ser (indent +:+ gap) y)) items))
  | VObj members =>
      Some (wrap "{" "}" indent
              (flat_map (fun kv =>
                           match kv with
                           | (k, y) =>
                               match ser (indent +:+ gap) y with
                               | Some t => [member k t]
                               | None => []
                               end
                           end) members))
  end.

End Stringify.

(** [JSON.stringify(x, null, gap)] *)
Definition JSON_stringify (x : value) (gap : string) : option string :=
  ser gap EmptyString x.

(** *** [JSON.parse] *)

Definition is_json_ws (c : ascii) : bool :=
  let n := Str.code c in
  ((n =? 9) || (n =? 10) || (n =? 13) || (n =? 32))%N.

Fixpoint skip_ws (s : string) : string :=
  match s with
  | String c r => if is_json_ws c then skip_ws r else s
  | EmptyString => s
  end.

Fixpoint take_digits (s : string) : string * string :=
  match s with
  | String c r =>
      if Str.is_digit c then let '(d, t) := take_digits r in (String c d, t)
      else (EmptyString, s)
  | EmptyString => (EmptyString, s)
  end.

Definition starts_with (c : ascii) (s : string) : option string :=
  match s with
  | String a r => if Ascii.eqb a c then Some r else None
  | EmptyString => None
  end.

(** The exponent part of a number literal, if there is one. *)
Definition parse_exponent (s : string) : option (Z * string) :=
  match s with
  | String c r =>
      if Ascii.eqb c "e"%char || Ascii.eqb c "E"%char then
        let '(neg, r1) :=
          match r with
          | String g r' =>
              if Ascii.eqb g "-"%char then (true, r')
              else if Ascii.eqb g "+"%char then (false, r')
              else (false, r)
          | EmptyString => (false, r)
          end in
        let '(d, r2) := take_digits r1 in
        if Str.is_empty d then None
        else
          let x := Z.of_N (Str.digits_value 0 d) in
          Some (if neg : bool then - x else x, r2)
      else Some (0, s)
  | EmptyString => Some (0, s)
  end.

Definition parse_number (s : string) : option (value * string) :=
  let '(neg, s1) :=
    match starts_with "-"%char s with
    | Some r => (true, r)
    | None => (false, s)
    end in
  let '(int_part, s2) := take_digits s1 in
  match int_part with
  | EmptyString => None
  | String c r =>
      if negb (Str.is_empty r) && Ascii.eqb c "0"%char then None
      else
        frac ←
          match starts_with "."%char s2 with
          | Some r1 =>
              let '(f, r2) := take_digits r1 in
              if Str.is_empty f then None else Some (f, r2)
          | None => Some (EmptyString, s2)
          end;
        let '(f, s3) := frac in
        ex ← parse_exponent s3;
        let '(x, s4) := ex in
        let m := Z.of_N (Str.digits_value 0 (int_part +:+ f)) in
        Some (num (if neg : bool then - m else m) (x - Z.of_nat (String.length f)), s4)
  end.

Definition hex_value (c : ascii) : option N :=
  let n := Str.code c in
  if Str.is_digit c then Some (n - 48)%N
  else if ((97 <=? n) && (n <=? 102))%N then Some (n - 87)%N
  else if ((65 <=? n) && (n <=? 70))%N then Some (n - 55)%N
  else None.

Definition hex4 (a b c d : ascii) : option N :=
  x ← hex_value a; y ← hex_value b; z ← hex_value c; w ← hex_value d;
  Some (((x * 16 + y) * 16 + z) * 16 + w)%N.

Definition byte (n : N) : ascii := ascii_of_N n.

(** UTF-8 bytes of a code point, most significant first. *)
Definition utf8 (cp : N) : list ascii :=
  if (cp <? 128)%N then [byte cp]
  else if (cp <? 2048)%N then [byte (192 + cp / 64); byte (128 + cp mod 64)]%N
  else if (cp <? 65536)%N then
    [byte (224 + cp / 4096); byte (128 + (cp / 64) mod 64); byte (128 + cp mod 64)]%N
  else
    [byte (240 + cp / 262144); byte (128 + (cp / 4096) mod 64);
     byte (128 + (cp / 64) mod 64); byte (128 + cp mod 64)]%N.

Definition push (bytes : list ascii) (acc : string) : string :=
  fold_left (fun a c => String c a) bytes acc.

Definition simple_escape (e : ascii) : option N :=
  let n := Str.code e in
  if (n =? 34)%N then Some 34%N
  else if (n =? 92)%N then Some 92%N
  else if (n =? 47)%N then Some 47%N
  else if (n =? 98)%N then Some 8%N
  else if (n =? 102)%N then Some 12%N
  else if (n =? 110)%N then Some 10%N
  else if (n =? 114)%N then Some 13%N
  else if (n =? 116)%N then Some 9%N
  else None.

(** A low surrogate escape at the head of [s], if there is one. *)
Definition low_surrogate (s : string) : option (N * string) :=
  match s with
  | String b0 (String u (String a (String b (String c (String d r))))) =>
      if (Str.code b0 =? 92)%N && Ascii.eqb u "u"%char then
        match hex4 a b c d with
        | Some lo => if ((56320 <=? lo) && (lo <=? 57343))%N then Some (lo, r) else None
        | None => None
        end
      else None
  | _ => None
  end.

(** The characters of a string literal after its opening quote; [acc] holds
    the decoded bytes so far, last first. *)
Fixpoint parse_string_body (s : string) (acc : string) : option (string * string) :=
  match s with
  | EmptyString => None
  | String c r =>
      if (Str.code c =? 34)%N then Some (Str.rev acc, r)
      else if (Str.code c =? 92)%N then
        match r with
        | String e r1 =>
            if Ascii.eqb e "u"%char then
              match r1 with
              | String h1 (String h2 (String h3 (String h4 r2))) =>
                  match hex4 h1 h2 h3 h4 with
                  | Some u =>
                      if ((55296 <=? u) && (u <=? 56319))%N then
                        match r2 with
                        | String _ (String _ (String _ (String _ (String _ (String _ r3))))) =>
                            match low_surrogate r2 with
                            | Some (lo, _) =>
                                parse_string_body r3
                                  (push (utf8 (65536 + (u - 55296) * 1024 + (lo - 56320))%N) acc)
                            | None => parse_string_body r2 (push (utf8 u) acc)
                            end
                        | _ => parse_string_body r2 (push (utf8 u) acc)
                        end
                      else parse_string_body r2 (push (utf8 u) acc)
                  | None => None
                  end
              | _ => None
              end
            else
              match simple_escape e with
              | Some n => parse_string_body r1 (String (byte n) acc)
              | None => None
              end
        | EmptyString => None
        end
      else if (Str.code c <? 32)%N then None
      else parse_string_body r (String c acc)
  end.

Fixpoint parse_value (fuel : nat) (s : string) : option (value * string) :=
  match fuel with
  | O => None
  | S f =>
      match skip_ws s with
      | EmptyString => None
      | String c r as t =>
          if Ascii.eqb c "{"%char then
            match starts_with "}"%char (skip_ws r) with
            | Some r' => Some (VObj [], r')
            | None => parse_members f r []
            end
          else if Ascii.eqb c "["%char then
            match starts_with "]"%char (skip_ws r) with
            | Some r' => Some (VArr [], r')
            | None => parse_elements f r []
            end
          else if (Str.code c =? 34)%N then
            match parse_string_body r EmptyString with
            | Some (str, r') => Some (VStr str, r')
            | None => None
            end
          else
            match Str.strip_prefix "true" t, Str.strip_prefix "false" t,
                  Str.strip_prefix "null" t with
            | Some r', _, _ => Some (VBool true, r')
            | _, Some r', _ => Some (VBool false, r')
            | _, _, Some r' => Some (VNull, r')
            | None, None, None => parse_number t
            end
      end
  end
with parse_elements (fuel : nat) (s : string) (acc : list value)
  : option (value * string) :=
  match fuel with
  | O => None
  | S f =>
      match parse_value f s with
      | Some (x, r) =>
          match skip_ws r with
          | String c r' =>
              if Ascii.eqb c ","%char then parse_elements f r' (x :: acc)
              else if Ascii.eqb c "]"%char then Some (VArr (List.rev (x :: acc)), r')
              else None
          | EmptyString => None
          end
      | None => None
      end
  end
with parse_members (fuel : nat) (s : string) (acc : list (string * value))
  : option (value * string) :=
  match fuel with
  | O => None
  | S f =>
      match skip_ws s with
      | String q r =>
          if (Str.code q =? 34)%N then
            match parse_string_body r EmptyString with
            | Some (k, r1) =>
                match starts_with ":"%char (skip_ws r1) with
                | Some r2 =>
                    match parse_value f r2 with
                    | Some (x, r3) =>
                        match skip_ws r3 with
                        | String c r4 =>
                            if Ascii.eqb c ","%char then parse_members f r4 (obj_set k x acc)
                            else if Ascii.eqb c "}"%char then Some (VObj (obj_set k x acc), r4)
                            else None
                        | EmptyString => None
                        end
                    | None => None
                    end
                | None => None
                end
            | None => None
            end
          else None
      | EmptyString => None
      end
  end.

(** [JSON.parse(s)]; [None] is a [SyntaxError].  Every call of the three
    functions above reads at least one character before it calls again, so
    the fuel, which exceeds the number of characters, is not used up. *)
Definition JSON_parse (s : string) : option value :=
  match parse_value (2 * String.length s + 2) s with
  | Some (x, r) => if Str.is_empty (skip_ws r) then Some x else None
  | None => None
  end.

(** Numbers the decimal model holds as the program does.  [JSON.parse]
    rounds a literal to the nearest binary double and [JSON.stringify]
    prints the shortest decimal that reads back as that double: a literal
    of at most 15 significant digits within the range of the normal doubles
    comes back digit for digit, which is what the model does with every
    literal.  Beyond that the program rounds (9007199254740993 is written
    back as 9007199254740992, 1e400 as [null]) and the model does not; what
    is stated about the bytes of a number is stated for these numbers. *)
Definition exact_number (m e : Z) : bool :=
  (Z.abs m <? 10 ^ 15) && (-300 <=? e) && (e <=? 290).

Fixpoint exact_numbers (x : value) : bool :=
  match x with
  | VNum m e => exact_number m e
  | VArr items => List.forallb exact_numbers items
  | VObj members =>
      List.forallb (fun kv => let '(_, y) := kv in exact_numbers y) members
  | _ => true
  end.

(** The names every ordinary object answers to without having them as its
    own: the properties of [Object.prototype].  The model of objects leaves
    them out; where the code reads or writes a property under a name taken
    from its input, the properties about it are stated for other names. *)
Definition inherited : list string :=
  ["__proto__"; "constructor"; "hasOwnProperty"; "isPrototypeOf";
   "propertyIsEnumerable"; "toLocaleString"; "toString"; "valueOf";
   "__defineGetter__"; "__defineSetter__"; "__lookupGetter__";
   "__lookupSetter__"].

End Js.

(** ** The [semver] library, strict mode

    The strict pattern [FULL] is an optional [v], three numeric identifiers
    separated by dots, an optional hyphen followed by dot-separated
    prerelease identifiers, and an optional plus sign followed by
    dot-separated build identifiers, anchored at both ends.  A numeric
    identifier is [0] or digits without a leading zero; a prerelease
    identifier is a numeric identifier or a word over letters, digits and
    hyphens with at least one non-digit; a build identifier is any non-empty
    word over letters, digits and hyphens.  The [SemVer] constructor refuses
    inputs longer than 256 characters and components above
    [Number.MAX_SAFE_INTEGER], and matches the trimmed input; [parse], on
    which [valid] rests, first tests the pattern on the input as it
    stands. *)

Module Semver.

Definition MAX_LENGTH : nat := 256.
Definition MAX_SAFE_INTEGER : N := 9007199254740991.

Definition is_ident_char (c : ascii) : bool :=
  Str.is_digit c || Str.is_letter c || Ascii.eqb c "-"%char.

Definition numeric_identifier (s : string) : bool :=
  match s with
  | EmptyString => false
  | String c r =>
      Str.forallb Str.is_digit s
      && (Str.is_empty r || negb (Ascii.eqb c "0"%char))
  end.

Definition prerelease_identifier (s : string) : bool :=
  negb (Str.is_empty s)
  && Str.forallb is_ident_char s
  && (numeric_identifier s || negb (Str.forallb Str.is_digit s)).

Definition build_identifier (s : string) : bool :=
  negb (Str.is_empty s) && Str.forallb is_ident_char s.

Definition safe_number (s : string) : bool :=
  (Str.digits_value 0 s <=? MAX_SAFE_INTEGER)%N.

Definition strip_v (s : string) : string :=
  match s with
  | String c r => if Ascii.eqb c "v"%char then r else s
  | EmptyString => s
  end.

(** Does [s], as it stands, match [FULL]? *)
Definition full_match (s : string) : bool :=
  let '(core_pre, build) := Str.cut_at "+"%char (strip_v s) in
  let '(core, pre) := Str.cut_at "-"%char core_pre in
  match Str.split_on "."%char core with
  | [a; b; c] =>
      numeric_identifier a && numeric_identifier b && numeric_identifier c
  | _ => false
  end
  && match pre with
     | None => true
     | Some p => List.forallb prerelease_identifier (Str.split_on "."%char p)
     end
  && match build with
     | None => true
     | Some b => List.forallb build_identifier (Str.split_on "."%char b)
     end.

(** Are the three numbers of the core within [MAX_SAFE_INTEGER]? *)
Definition in_range (s : string) : bool :=
  match
    Str.split_on "."%char
      (fst (Str.cut_at "-"%char (fst (Str.cut_at "+"%char (strip_v s)))))
  with
  | [a; b; c] => safe_number a && safe_number b && safe_number c
  | _ => false
  end.

(** [new SemVer(s)] succeeds: the input is not too long and, trimmed,
    matches the pattern with its numbers in range. *)
Definition constructs (s : string) : bool :=
  (String.length s <=? MAX_LENGTH)%nat
  && full_match (Str.trim s) && in_range (Str.trim s).

(** [semver.valid(s)] is not [null]: [parse] refuses an input that is too
    long or that does not match the pattern as it stands, and otherwise
    tries the constructor. *)
Definition valid (s : string) : bool :=
  (String.length s <=? MAX_LENGTH)%nat && full_match s && constructs s.

(** The characters a version is written with. *)
Definition version_char (c : ascii) : bool :=
  is_ident_char c || Ascii.eqb c "."%char || Ascii.eqb c "+"%char.

(** The dot-separated core [major.minor.patch] of an accepted version. *)
Definition core (s : string) : list string :=
  Str.split_on "."%char
    (fst (Str.cut_at "-"%char (fst (Str.cut_at "+"%char (strip_v (Str.trim s)))))).

Definition invalid {A} (s : string) : result A :=
  Throw (TypeError ("Invalid Version: " +:+ s)).

Definition component (i : nat) (s : string) : result N :=
  if constructs s then Ok (Str.digits_value 0 (nth i (core s) EmptyString))
  else invalid s.

(** [semver.major], [semver.minor], [semver.patch] on a string. *)
Definition major : string -> result N := component 0.
Definition minor : string -> result N := component 1.
Definition patch : string -> result N := component 2.

(** A prerelease identifier as the library keeps it: a number when it is
    all digits and below [MAX_SAFE_INTEGER], the text otherwise. *)
Definition identifier_value (id : string) : value :=
  if Str.forallb Str.is_digit id && (Str.digits_value 0 id <? MAX_SAFE_INTEGER)%N
  then Js.num (Z.of_N (Str.digits_value 0 id)) 0
  else VStr id.

(** [semver.prerelease]: the identifiers, or [null] when there are none. *)
Definition prerelease (s : string) : result value :=
  if constructs s then
    match snd (Str.cut_at "-"%char (fst (Str.cut_at "+"%char (strip_v (Str.trim s))))) with
    | Some p => Ok (VArr (map identifier_value (Str.split_on "."%char p)))
    | None => Ok VNull
    end
  else invalid s.

(** The same accessors on an arbitrary value: anything but a string is
    refused. *)
Definition on_value {A} (f : string -> result A) (x : value) : result A :=
  match x with
  | VStr s => f s
  | _ => Throw (TypeError "Invalid Version")
  end.

End Semver.

(** ** The files package ([packages/files/src/index.ts]) *)

Module Files.

Record File : Type := mkFile {
  content : string;
  path : string;
  filename : string;
  extname : string
}.

(** What [parsePkg] returns.  [versionPrerelease] is [VUndefined] where the
    source leaves the field out. *)
Record PkgMinimum : Type := mkPkgMinimum {
  version : value;
  versionMajor : N;
  versionMinor : N;
  versionPatch : N;
  versionPrerelease : value;
  deps : value;
  pkg : value
}.

(** A [PkgMinimum] (kept under [minimum]) with its optional [file] and
    [name]. *)
Record PackageFile : Type := mkPackageFile {
  file : option File;
  name : option string;
  minimum : PkgMinimum
}.

Definition with_pkg (p : PackageFile) (doc : value) : PackageFile :=
  {| file := file p;
     name := name p;
     minimum :=
       {| version := version (minimum p);
          versionMajor := versionMajor (minimum p);
          versionMinor := versionMinor (minimum p);
          versionPatch := versionPatch (minimum p);
          versionPrerelease := versionPrerelease (minimum p);
          deps := deps (minimum p);
          pkg := doc |} |}.

(** [Object.entries] *)
Definition entries (x : value) : list (string * value) :=
  match x with
  | VObj m => m
  | VArr items => imap (fun i y => (Str.of_nat i, y)) items
  | _ => []
  end.

Definition depTypes : list string :=
  ["dependencies"; "devDependencies"; "dev-dependencies"].

(** [deps[dep].push({ type, version })] *)
Definition push_dep (acc : list (string * value)) (dep depType : string)
  (ver : value) : list (string * value) :=
  match Js.obj_get dep acc with
  | VArr l =>
      Js.obj_set dep (VArr (l ++ [VObj [("type", VStr depType); ("version", ver)]])) acc
  | _ => acc
  end.

(** The body of the inner [forEach] of [keyDeps]. *)
Definition keyDeps_entry (depType : string) (acc : list (string * value))
  (entry : string * value) : result (list (string * value)) :=
  let '(dep, ver) := entry in
  let acc1 :=
    if Js.truthy (Js.obj_get dep acc) then acc else Js.obj_set dep (VArr []) acc in
  match ver with
  | VStr _ => Ok (push_dep acc1 dep depType ver)
  | _ =>
      if Js.is_object ver then
        inner ← Js.get ver "version";
        if Js.truthy inner then Ok (push_dep acc1 dep depType inner) else Ok acc1
      else Ok acc1
  end.

Fixpoint foldM {A B} (f : A -> B -> result A) (acc : A) (l : list B) : result A :=
  match l with
  | [] => Ok acc
  | b :: r => acc' ← f acc b; foldM f acc' r
  end.

(** The body of the outer [forEach] of [keyDeps]. *)
Definition keyDeps_type (parsed : value) (acc : list (string * value))
  (depType : string) : result (list (string * value)) :=
  table ← Js.get parsed depType;
  if Js.truthy table && Js.is_object table
  then foldM (keyDeps_entry depType) acc (entries table)
  else Ok acc.

Definition keyDeps (parsed : value) : result value :=
  acc ← foldM (keyDeps_type parsed) [] depTypes;
  Ok (VObj acc).

Section Adapter.

(** The TOML and YAML codecs ([@tauri-apps/toml], [js-yaml]). *)
Variable TOML_parse : string -> result value.
Variable TOML_stringify : value -> result string.
Variable YAML_load : string -> result value.
Variable YAML_dump : value -> result string.

Definition JSON_parse (s : string) : result value :=
  of_option (SyntaxError "Unexpected token in JSON") (Js.JSON_parse s).

Definition is_yaml (ext : string) : bool :=
  String.eqb ext ".yml" || String.eqb ext ".yaml".

Definition parsePkg (f : File) : result PkgMinimum :=
  if Str.is_empty (content f)
  then Throw (Error (path f +:+ " does not have any content"))
  else if String.eqb (extname f) ".toml" then
    parsedTOML ← TOML_parse (content f);
    package ← Js.get parsedTOML "package";
    ver ← Js.get package "version";
    major ← Semver.on_value Semver.major ver;
    minor ← Semver.on_value Semver.minor ver;
    patch ← Semver.on_value Semver.patch ver;
    pre ← Semver.on_value Semver.prerelease ver;
    keyed ← keyDeps parsedTOML;
    Ok {| version := ver; versionMajor := major; versionMinor := minor;
          versionPatch := patch; versionPrerelease := pre;
          deps := keyed; pkg := parsedTOML |}
  else if String.eqb (extname f) ".json" then
    parsedJSON ← JSON_parse (content f);
    ver ← Js.get parsedJSON "version";
    major ← Semver.on_value Semver.major ver;
    minor ← Semver.on_value Semver.minor ver;
    patch ← Semver.on_value Semver.patch ver;
    pre ← Semver.on_value Semver.prerelease ver;
    keyed ← keyDeps parsedJSON;
    Ok {| version := ver; versionMajor := major; versionMinor := minor;
          versionPatch := patch; versionPrerelease := pre;
          deps := keyed; pkg := parsedJSON |}
  else if is_yaml (extname f) then
    parsedYAML ← YAML_load (content f);
    match parsedYAML with
    | VStr _ | VNum _ _ | VNull | VUndefined =>
        Throw (Error "file improperly structured")
    | _ =>
        nm ← Js.get parsedYAML "name";
        ver ← Js.get parsedYAML "version";
        if Js.truthy parsedYAML && (negb (Js.truthy nm) || negb (Js.truthy ver))
        then Throw (Error "missing version")
        else
          major ← Semver.on_value Semver.major ver;
          minor ← Semver.on_value Semver.minor ver;
          patch ← Semver.on_value Semver.patch ver;
          keyed ← keyDeps parsedYAML;
          Ok {| version := ver; versionMajor := major; versionMinor := minor;
                versionPatch := patch; versionPrerelease := VUndefined;
                deps := keyed; pkg := parsedYAML |}
    end
  else
    let stringVersion := Str.trim (content f) in
    if negb (Semver.valid stringVersion)
    then Throw (Error "not valid version")
    else
      major ← Semver.major stringVersion;
      minor ← Semver.minor stringVersion;
      patch ← Semver.patch stringVersion;
      Ok {| version := VStr stringVersion; versionMajor := major;
            versionMinor := minor; versionPatch := patch;
            versionPrerelease := VUndefined; deps := VObj [];
            pkg := VObj [("name", VStr EmptyString); ("version", VStr stringVersion)] |}.

(** The content a template literal gives for [JSON.stringify]'s result. *)
Definition template (o : option string) : string := default "undefined" o.

Definition stringifyPkg (newContents : value) (ext : string) : result value :=
  if String.eqb ext ".toml" then
    s ← TOML_stringify newContents; Ok (VStr s)
  else if String.eqb ext ".json" then
    Ok (VStr (template (Js.JSON_stringify newContents "  ") +:+ Js.nl))
  else if is_yaml ext then
    s ← YAML_dump newContents; Ok (VStr s)
  else Js.get newContents "version".

End Adapter.

Definition show_name (n : option string) : string := default "undefined" n.

Definition unpinned (pkgName : option string) (word dep : string) : exn :=
  Error (show_name pkgName +:+ " has a " +:+ word +:+ " on " +:+ dep
         +:+ ", and " +:+ dep +:+ " does not have a version number. "
         +:+ "This cannot be published. "
         +:+ "Please pin it to a MAJOR.MINOR.PATCH reference.").

Definition absent (dep : option string) : bool :=
  match dep with
  | None => true
  | Some d => Str.is_empty d
  end.

(** One of the three dependency branches of [getPackageFileVersion]; they
    differ in the table they read and in one word of the message. *)
Definition getDependencyVersion (p : PackageFile) (property word : string)
  (dep : option string) : result value :=
  table ← Js.get (pkg (minimum p)) property;
  if absent dep || negb (Js.truthy table) then Ok (VStr EmptyString)
  else
    let d := default EmptyString dep in
    entry ← Js.get table d;
    if Js.is_object entry then
      ver ← Js.get entry "version";
      if negb (Js.truthy ver) then Throw (unpinned (name p) word d)
      else Ok ver
    else Ok entry.

Definition present (p : PackageFile) : bool :=
  match file p with
  | Some _ => Js.truthy (pkg (minimum p))
  | None => false
  end.

Definition file_ext (p : PackageFile) : string :=
  match file p with
  | Some f => extname f
  | None => EmptyString
  end.

Definition getPackageFileVersion (p : PackageFile) (property : string)
  (dep : option string) : result value :=
  if present p then
    if String.eqb property "version" then
      if String.eqb (file_ext p) ".json" then Js.get (pkg (minimum p)) "version"
      else if String.eqb (file_ext p) ".toml" then
        package ← Js.get (pkg (minimum p)) "package";
        Js.get package "version"
      else Js.get (pkg (minimum p)) "version"
    else if String.eqb property "dependencies" then
      getDependencyVersion p "dependencies" "dependency" dep
    else if String.eqb property "devDependencies" then
      getDependencyVersion p "devDependencies" "devDependency" dep
    else if String.eqb property "dev-dependencies" then
      getDependencyVersion p "dev-dependencies" "devDependency" dep
    else Ok (VStr EmptyString)
  else Ok (VStr EmptyString).

(** One of the three dependency branches of [setPackageFileVersion]. *)
Definition setDependencyVersion (p : PackageFile) (ver : string)
  (property : string) (dep : option string) : result PackageFile :=
  table ← Js.get (pkg (minimum p)) property;
  if absent dep || negb (Js.truthy table) then Ok p
  else
    let d := default EmptyString dep in
    entry ← Js.get table d;
    table' ←
      (if Js.is_object entry then
         entry' ← Js.set entry "version" (VStr ver);
         Js.set table d entry'
       else Js.set table d (VStr ver));
    doc ← Js.set (pkg (minimum p)) property table';
    Ok (with_pkg p doc).

Definition setPackageFileVersion (p : PackageFile) (ver : string)
  (property : string) (dep : option string) : result PackageFile :=
  if present p then
    if String.eqb property "version" then
      if String.eqb (file_ext p) ".json" then
        doc ← Js.set (pkg (minimum p)) "version" (VStr ver);
        Ok (with_pkg p doc)
      else if String.eqb (file_ext p) ".toml" then
        package ← Js.get (pkg (minimum p)) "package";
        package' ← Js.set package "version" (VStr ver);
        doc ← Js.set (pkg (minimum p)) "package" package';
        Ok (with_pkg p doc)
      else
        doc ← Js.set (pkg (minimum p)) "version" (VStr ver);
        Ok (with_pkg p doc)
    else if String.eqb property "dependencies"
            || String.eqb property "devDependencies"
            || String.eqb property "dev-dependencies" then
      setDependencyVersion p ver property dep
    else Ok p
  else Ok p.

(** *** Vocabulary for the properties of the adapter *)

(** The extensions [parsePkg] and [stringifyPkg] have a case for. *)
Definition is_structured (ext : string) : bool :=
  String.eqb ext ".toml" || String.eqb ext ".json" || is_yaml ext.

Definition with_content (f : File) (text : string) : File :=
  {| content := text; path := path f; filename := filename f; extname := extname f |}.

(** A package file as [readPkgFile] builds it from a file and what
    [parsePkg] made of it. *)
Definition loaded (f : File) (nickname : string) (parsed : PkgMinimum) : PackageFile :=
  {| file := Some f; name := Some nickname; minimum := parsed |}.

(** The text [stringifyPkg] writes for a JSON manifest. *)
Definition json_text (doc : value) : string :=
  template (Js.JSON_stringify doc "  ") +:+ Js.nl.

(** [d'] is an object with the keys of the object [d], in the same order,
    and the same value under every key but [k]. *)
Definition same_except (k : string) (d d' : value) : Prop :=
  exists m m',
    d = VObj m /\ d' = VObj m'
    /\ map fst m' = map fst m
    /\ forall j, j <> k -> Js.obj_get j m' = Js.obj_get j m.

(** [new] is [orig] with one occurrence of [a] replaced by [b], and the
    same bytes before and after it. *)
Definition framed (orig new a b : string) : Prop :=
  exists before after,
    orig = before +:+ a +:+ after /\ new = before +:+ b +:+ after.

(** The word the error message uses for a dependency table. *)
Definition dependency_word (property : string) : string :=
  if String.eqb property "dependencies" then "dependency" else "devDependency".

Section Codecs.

Variable TOML_parse : string -> result value.
Variable TOML_stringify : value -> result string.
Variable YAML_load : string -> result value.
Variable YAML_dump : value -> result string.

(** The codec of the encoding reads back the document it has written, from
    a text that is not empty.  For the bare version file there is no
    codec. *)
Definition reads_back (ext : string) (doc : value) : Prop :=
  if String.eqb ext ".toml" then
    exists text, TOML_stringify doc = Ok text /\ text <> EmptyString
                 /\ TOML_parse text = Ok doc
  else if String.eqb ext ".json" then
    JSON_parse (json_text doc) = Ok doc
  else if is_yaml ext then
    exists text, YAML_dump doc = Ok text /\ text <> EmptyString
                 /\ YAML_load text = Ok doc
  else True.

End Codecs.

(** *** Files on disk

    The disk maps a path to the text stored there.  The [path] module of
    Node and the [globby] matcher are taken as given. *)

Section Disk.

Variable path_join : string -> string -> string.
Variable posix_join : string -> string -> string.
Variable posix_relative : string -> string -> string.
Variable parse_name : string -> string.
Variable parse_ext : string -> string.
Variable globby : gmap string string -> list string -> string -> list string.

Variable TOML_parse : string -> result value.
Variable TOML_stringify : value -> result string.
Variable YAML_load : string -> result value.
Variable YAML_dump : value -> result string.

Definition enoent (p : string) : exn :=
  Error ("ENOENT: no such file or directory, open '" +:+ p +:+ "'").

Definition loadFile (disk : gmap string string) (f cwd : string) : result File :=
  text ← of_option (enoent (path_join cwd f)) (disk !! path_join cwd f);
  Ok {| content := text;
        path := Str.replace_char (ascii_of_nat 92) "/"%char
                  (posix_relative cwd (posix_join cwd f));
        filename := parse_name f;
        extname := parse_ext f |}.

Definition saveFile (disk : gmap string string) (f : File) (cwd : string)
  : result File * gmap string string :=
  (Ok f, <[path_join cwd (path f) := content f]> disk).

Record PkgConfig : Type := mkPkgConfig {
  manager : option string;
  pkgPath : option string;
  packageFileName : option string
}.

Definition nonempty (o : option string) : bool :=
  match o with
  | Some s => negb (Str.is_empty s)
  | None => false
  end.

(** The manifest name derived from the package manager. *)
Definition derivedFileName (c : option PkgConfig) : string :=
  match c with
  | Some cfg =>
      if nonempty (manager cfg) then
        let m := default EmptyString (manager cfg) in
        if Str.contains "rust" m then "Cargo.toml"
        else if Str.contains "dart" m || Str.contains "flutter" m then "pubspec.yaml"
        else "package.json"
      else "package.json"
  | None => "package.json"
  end.

Definition readPkgFile (disk : gmap string string) (cwd : string)
  (f : option string) (pkgConfig : option PkgConfig) (nickname : string)
  : result PackageFile :=
  let target :=
    if nonempty f then default EmptyString f
    else
      match pkgConfig with
      | Some cfg =>
          if nonempty (pkgPath cfg) && nonempty (packageFileName cfg)
          then path_join (default EmptyString (pkgPath cfg))
                 (default EmptyString (packageFileName cfg))
          else path_join (default EmptyString (pkgPath cfg)) (derivedFileName pkgConfig)
      | None => path_join EmptyString (derivedFileName pkgConfig)
      end in
  inputFile ← loadFile disk target cwd;
  parsed ← parsePkg TOML_parse YAML_load inputFile;
  Ok {| file := Some inputFile; name := Some nickname; minimum := parsed |}.

Definition writePkgFile (disk : gmap string string) (p : PackageFile) (cwd : string)
  : result File * gmap string string :=
  match file p with
  | None => (Throw (Error ("no vfile present for " +:+ show_name (name p))), disk)
  | Some f =>
      match stringifyPkg TOML_stringify YAML_dump (pkg (minimum p)) (extname f) with
      | Ok (VStr text) =>
          saveFile disk
            {| content := text; path := path f; filename := filename f;
               extname := extname f |} cwd
      | Ok _ =>
          (Throw (TypeError "The data argument must be of type string"), disk)
      | Throw e => (Throw e, disk)
      end
  end.

(** [changeFiles]: the change files under [changeFolder], readme files
    excluded.  The disk is only read. *)
Definition changeFiles (disk : gmap string string) (cwd changeFolder : string)
  : list string :=
  globby disk
    [ posix_join changeFolder "*.md";
      "!" +:+ posix_join changeFolder "README.md";
      "!" +:+ posix_join changeFolder "readme.md";
      "!" +:+ posix_join changeFolder "Readme.md" ]
    cwd.

Definition unlink (disk : gmap string string) (p : string)
  : result unit * gmap string string :=
  match disk !! p with
  | Some _ => (Ok (), delete p disk)
  | None => (Throw (enoent p), disk)
  end.

(** [changeFilesRemove]: every unlink is started; the promise rejects when
    one of them fails. *)
Fixpoint changeFilesRemove (disk : gmap string string) (cwd : string)
  (paths : list string) : result unit * gmap string string :=
  match paths with
  | [] => (Ok (), disk)
  | changeFilePath :: rest =>
      let '(r, disk1) := unlink disk (posix_join cwd changeFilePath) in
      let '(rs, disk2) := changeFilesRemove disk1 cwd rest in
      (_ ← r; rs, disk2)
  end.

End Disk.

(** *** The workspace: change files, every manifest, the configuration *)

(** [all(operations)], the operations taken in turn: their results in
    order, or the error of the first one that fails. *)
Fixpoint all {A B} (f : A -> result B) (l : list A) : result (list B) :=
  match l with
  | [] => Ok []
  | a :: rest =>
      b ← f a;
      bs ← all f rest;
      Ok (b :: bs)
  end.

(** [e.message] *)
Definition message (e : exn) : string :=
  match e with
  | Error msg | TypeError msg | ReferenceError msg | SyntaxError msg
  | LibraryError msg => msg
  end.

(** What a [throw] statement can hand to [catch]: here a string or an
    error object. *)
Inductive thrown : Type :=
  | ThrownString (s : string)
  | ThrownError (e : exn).

(** [e?.message] *)
Definition thrown_message (t : thrown) : option string :=
  match t with
  | ThrownString _ => None
  | ThrownError e => Some (message e)
  end.

Fixpoint str_chars (s : string) : list value :=
  match s with
  | EmptyString => []
  | String c r => VStr (String c EmptyString) :: str_chars r
  end.

(** What [readChangelog] hands out: the file it has loaded, or the object
    literal of its [catch] block, which has a path and a content and nothing
    else. *)
Inductive Changelog : Type :=
  | LoadedChangelog (f : File)
  | NewChangelog (at_path text : string).

Definition changelog_path (c : Changelog) : string :=
  match c with
  | LoadedChangelog f => path f
  | NewChangelog at_path _ => at_path
  end.

Definition changelog_content (c : Changelog) : string :=
  match c with
  | LoadedChangelog f => content f
  | NewChangelog _ text => text
  end.

(** The content a changelog starts with. *)
Definition changelog_header : string := "# Changelog" +:+ Js.nl +:+ Js.nl +:+ Js.nl.

(** [{ ...x }]: the own enumerable properties of [x]. *)
Definition spread (x : value) : list (string * value) :=
  match x with
  | VObj m => m
  | VArr items => imap (fun i y => (Str.of_nat i, y)) items
  | VStr s => imap (fun i y => (Str.of_nat i, y)) (str_chars s)
  | _ => []
  end.

(** Vocabulary for what [keyDeps] collects: every value of the accumulator
    is a list; the lists of [acc'] extend those of [acc]; the record for
    [entry] of the table [t] is in the accumulator. *)
Definition all_lists (acc : list (string * value)) : Prop :=
  forall k, Js.obj_get k acc = VUndefined \/ exists l, Js.obj_get k acc = VArr l.

Definition extends (acc acc' : list (string * value)) : Prop :=
  forall k l, Js.obj_get k acc = VArr l -> exists l', Js.obj_get k acc' = VArr (l ++ l').

Definition recorded (t : string) (entry : string * value)
  (acc : list (string * value)) : Prop :=
  exists l,
    Js.obj_get (fst entry) acc = VArr l
    /\ (forall s, snd entry = VStr s ->
        VObj [("type", VStr t); ("version", VStr s)] ∈ l)
    /\ (forall em, snd entry = VObj em ->
        Js.truthy (Js.obj_get "version" em) = true ->
        VObj [("type", VStr t); ("version", Js.obj_get "version" em)] ∈ l).

(** The entry of a dependency once its version has been set to [ver]. *)
Definition pinned (entry : value) (ver : string) : value :=
  match entry with
  | VObj em => VObj (Js.obj_set "version" (VStr ver) em)
  | _ => VStr ver
  end.

Section Workspace.

Variable path_join : string -> string -> string.
Variable posix_join : string -> string -> string.
Variable posix_relative : string -> string -> string.
Variable parse_name : string -> string.
Variable parse_ext : string -> string.
Variable path_dirname : string -> string.
Variable path_basename : string -> string.

Variable TOML_parse : string -> result value.
Variable TOML_stringify : value -> result string.
Variable YAML_load : string -> result value.
Variable YAML_dump : value -> result string.

(** [statSync(p).isFile()]; [statSync] throws when nothing is at [p]. *)
Variable statSync : string -> result bool.

Definition loadChangeFiles (disk : gmap string string) (cwd : string)
  (paths : list string) : result (list File) :=
  all (fun f => loadFile path_join posix_join posix_relative parse_name parse_ext
                  disk f cwd) paths.

(** [readChangelog]: the changelog, or nothing for [null], and the lines
    it prints with [console.log]. *)
Definition readChangelog (disk : gmap string string) (cwd packagePath : string)
  (create : bool) : option Changelog * list string :=
  match
    loadFile path_join posix_join posix_relative parse_name parse_ext
      disk (path_join packagePath "CHANGELOG.md") cwd
  with
  | Ok f => (Some (LoadedChangelog f), [])
  | Throw _ =>
      if create then
        (Some (NewChangelog (path_join packagePath "CHANGELOG.md") changelog_header),
         ["Could not load the CHANGELOG.md. Creating one."])
      else (None, [])
  end.

(** [writeChangelog]: [saveFile] on the changelog, of which it uses the
    path and the content. *)
Definition writeChangelog (disk : gmap string string) (changelog : Changelog)
  (cwd : string) : result Changelog * gmap string string :=
  (Ok changelog,
   <[path_join cwd (changelog_path changelog) := changelog_content changelog]> disk).

(** [readAllPkgFiles]; [packages] is [Object.entries(config.packages)]. *)
Definition readAllPkgFiles (disk : gmap string string) (cwd : string)
  (packages : list (string * PkgConfig)) : result (gmap string PackageFile) :=
  pkgFilesArray ←
    all (fun entry =>
           readPkgFile path_join posix_join posix_relative parse_name parse_ext
             TOML_parse YAML_load disk cwd None (Some (snd entry)) (fst entry))
        packages;
  Ok (foldl (fun pkgs p =>
               if nonempty (name p) then <[default EmptyString (name p) := p]> pkgs
               else pkgs)
            ∅ pkgFilesArray).

(** [testSerializePkgFile]: what it returns or throws, and the lines it
    prints with [console.error]. *)
Definition testSerializePkgFile (packageFile : PackageFile)
  : result bool * list string :=
  let attempt : thrown + bool :=
    match file packageFile with
    | None => inl (ThrownString "no package file present")
    | Some f =>
        match stringifyPkg TOML_stringify YAML_dump
                (pkg (minimum packageFile)) (extname f) with
        | Ok _ => inr true
        | Throw e => inl (ThrownError e)
        end
    end in
  match attempt with
  | inr b => (Ok b, [])
  | inl e =>
      (Throw (Error ("within " +:+ show_name (name packageFile) +:+ " => "
                     +:+ default "undefined" (thrown_message e))),
       match thrown_message e with
       | Some msg =>
           if String.eqb msg "Can only stringify objects, not null"
           then ["It appears that a dependency within this repo does not have a version specified."]
           else []
       | None => []
       end)
  end.

(** [path.join(cwd, packagePath)] wants a string. *)
Definition path_arg (x : value) : result string :=
  match x with
  | VStr s => Ok s
  | _ => Throw (TypeError "The path argument must be of type string")
  end.

(** The callback of the [reduce] of [checkFileOrDirectory].  The
    accumulator is [config.packages] itself, changed in place. *)
Definition checkPackage (cwd : string) (packages : value) (pkgName : string)
  : result value :=
  entry ← Js.get packages pkgName;
  packagePath ← Js.get entry "path";
  if negb (Js.truthy packagePath) || Str.is_empty cwd then Ok packages
  else
    p ← path_arg packagePath;
    isFile ← statSync (path_join cwd p);
    if isFile : bool then
      Js.set packages pkgName
        (VObj (Js.obj_set "packageFileName" (VStr (path_basename p))
                 (Js.obj_set "path" (VStr (path_dirname p)) (spread entry))))
    else Ok packages.

Definition checkFileOrDirectory (cwd : string) (config : value) : result value :=
  packages ← Js.get config "packages";
  if negb (Js.truthy packages) then Ok (VObj [])
  else
    packages' ← foldM (checkPackage cwd) packages (map fst (spread packages));
    Ok (VObj [("packages", packages')]).

(** Vocabulary for what [checkFileOrDirectory] does to the settings
    [entry] of one package, giving [entry']: a path that is a string and
    not empty has been looked up; if a file is there, [entry'] has the
    directory of the path as its [path], the last part of the path as its
    [packageFileName] and every other property of [entry]; if something
    else is there, and also when [entry] has no path, [entry'] is
    [entry]. *)
Definition relocated (cwd : string) (entry entry' : value) : Prop :=
  (forall p, Js.get entry "path" = Ok (VStr p) -> p <> EmptyString ->
     exists isFile : bool,
       statSync (path_join cwd p) = Ok isFile
       /\ if isFile
          then exists em',
                 entry' = VObj em'
                 /\ Js.obj_get "path" em' = VStr (path_dirname p)
                 /\ Js.obj_get "packageFileName" em' = VStr (path_basename p)
                 /\ forall k, k <> "path" -> k <> "packageFileName" ->
                              Js.get entry k = Ok (Js.obj_get k em')
          else entry' = entry)
  /\ (forall x, Js.get entry "path" = Ok x -> Js.truthy x = false -> entry' = entry).

End Workspace.

End Files.

(** ** The earlier files module (CommonJS) *)

Module FilesLegacy.

Record VFile : Type := mkVFile {
  vpath : string;
  vextname : string;
  contents : string
}.

(** What [readPkgFile] returns: the vfile and the three fields of
    [parsePkg], [VUndefined] where [parsePkg] returned nothing. *)
Record PackageFile : Type := mkPackageFile {
  vfile : VFile;
  name : value;
  version : value;
  pkg : value
}.

(** Names bound at the top of the module, by the CommonJS wrapper, and on
    Node's global object. *)
Definition module_bindings : list string :=
  ["vfile"; "globby"; "fs"; "path"; "TOML"; "parsePkg"; "stringifyPkg"].

Definition wrapper_bindings : list string :=
  ["exports"; "require"; "module"; "__filename"; "__dirname"].

Definition global_bindings : list string :=
  ["globalThis"; "global"; "process"; "console"; "Buffer"; "queueMicrotask";
   "setTimeout"; "clearTimeout"; "setInterval"; "clearInterval";
   "setImmediate"; "clearImmediate"; "performance"; "structuredClone";
   "URL"; "URLSearchParams"; "TextEncoder"; "TextDecoder"; "WebAssembly";
   "AbortController"; "AbortSignal"; "Event"; "EventTarget";
   "MessageChannel"; "MessagePort"; "MessageEvent"; "atob"; "btoa";
   "Object"; "Function"; "Array"; "Number"; "Boolean"; "String"; "Symbol";
   "BigInt"; "Math"; "Date"; "RegExp"; "JSON"; "Promise"; "Proxy"; "Reflect";
   "Map"; "Set"; "WeakMap"; "WeakSet"; "WeakRef"; "FinalizationRegistry";
   "Error"; "TypeError"; "RangeError"; "SyntaxError"; "ReferenceError";
   "EvalError"; "URIError"; "AggregateError"; "ArrayBuffer";
   "SharedArrayBuffer"; "DataView"; "Atomics"; "Int8Array"; "Uint8Array";
   "Uint8ClampedArray"; "Int16Array"; "Uint16Array"; "Int32Array";
   "Uint32Array"; "Float32Array"; "Float64Array"; "BigInt64Array";
   "BigUint64Array"; "Infinity"; "NaN"; "undefined"; "eval"; "isFinite";
   "isNaN"; "parseFloat"; "parseInt"; "decodeURI"; "decodeURIComponent";
   "encodeURI"; "encodeURIComponent"; "escape"; "unescape"].

Fixpoint assoc (x : string) (l : list (string * value)) : option value :=
  match l with
  | [] => None
  | (k, v) :: r => if String.eqb k x then Some v else assoc x r
  end.

(** Resolution of an identifier inside a function whose parameters are
    bound as in [locals]; host objects are opaque. *)
Definition resolve (locals : list (string * value)) (x : string) : result value :=
  match assoc x locals with
  | Some v => Ok v
  | None =>
      if existsb (String.eqb x)
           (module_bindings ++ wrapper_bindings ++ global_bindings)
      then Ok (VObj [])
      else Throw (ReferenceError (x +:+ " is not defined"))
  end.

Section Codec.

Variable TOML_parse : string -> result value.
Variable TOML_stringify : value -> result string.

(** [path.extname], through which a vfile knows its extension. *)
Variable path_extname : string -> string.

Definition parsePkg (f : VFile) : result (value * value * value) :=
  if String.eqb (vextname f) ".toml" then
    parsedTOML ← TOML_parse (contents f);
    package ← Js.get parsedTOML "package";
    nm ← Js.get package "name";
    ver ← Js.get package "version";
    Ok (nm, ver, parsedTOML)
  else if String.eqb (vextname f) ".json" then
    parsedJSON ← Files.JSON_parse (contents f);
    nm ← Js.get parsedJSON "name";
    ver ← Js.get parsedJSON "version";
    Ok (nm, ver, parsedJSON)
  else Ok (VUndefined, VUndefined, VUndefined).

Definition stringifyPkg (newContents : value) (extname : string) : result string :=
  let locals := [("newContents", newContents); ("extname", VStr extname)] in
  if String.eqb extname ".toml" then
    f ← resolve locals "file";
    c ← Js.get f "contents";
    TOML_stringify c
  else if String.eqb extname ".json" then
    Ok (Files.template (Js.JSON_stringify newContents "  ") +:+ Js.nl)
  else Throw (Error "Unknown package file type.").

Definition readPkgFile (disk : gmap string string) (f : string)
  : result PackageFile :=
  text ← of_option (Files.enoent f) (disk !! f);
  let inputVfile :=
    {| vpath := f;
       vextname := path_extname f;
       contents := text |} in
  parsed ← parsePkg inputVfile;
  let '(nm, ver, doc) := parsed in
  Ok {| vfile := inputVfile; name := nm; version := ver; pkg := doc |}.

Definition writePkgFile (disk : gmap string string) (packageFile : PackageFile)
  : result VFile * gmap string string :=
  match stringifyPkg (pkg packageFile) (vextname (vfile packageFile)) with
  | Ok text =>
      let vFileNext :=
        {| vpath := vpath (vfile packageFile);
           vextname := vextname (vfile packageFile);
           contents := text |} in
      (Ok vFileNext, <[vpath vFileNext := text]> disk)
  | Throw e => (Throw e, disk)
  end.

End Codec.

Record Config : Type := mkConfig {
  config_vfile : option VFile;
  parsed : value
}.

Section Disk.

Variable path_join : string -> string -> string.
Variable posix_join : string -> string -> string.
Variable globby : gmap string string -> list string -> list string -> string -> list string.

(** The directory relative paths are resolved against, [process.cwd()]. *)
Variable process_cwd : string.

Definition configFile (disk : gmap string string) (cwd changeFolder : string)
  : result Config :=
  let p := path_join (path_join cwd changeFolder) "config.json" in
  text ← of_option (Files.enoent p) (disk !! p);
  doc ← Files.JSON_parse text;
  Ok {| config_vfile := Some {| vpath := p; vextname := ".json"; contents := text |};
        parsed := doc |}.

Fixpoint readAll (disk : gmap string string) (cwd : string) (paths : list string)
  : result (list string) :=
  match paths with
  | [] => Ok []
  | f :: rest =>
      text ← of_option (Files.enoent (path_join cwd f)) (disk !! path_join cwd f);
      texts ← readAll disk cwd rest;
      Ok (text :: texts)
  end.

(** The [for] loop of [changeFiles]: every path is unlinked, relative to
    the working directory of the process.  The line each unlink logs is left
    out.  An unlink that fails throws from its callback, after and outside
    the promise of [changeFiles]; that exception ends the process, and is
    taken here as the failure of the call.  Nothing below is stated about
    that case. *)
Fixpoint unlinkAll (disk : gmap string string) (paths : list string)
  : result unit * gmap string string :=
  match paths with
  | [] => (Ok (), disk)
  | p :: rest =>
      match Files.unlink disk (path_join process_cwd p) with
      | (Ok _, disk1) => unlinkAll disk1 rest
      | (Throw e, disk1) => (Throw e, disk1)
      end
  end.

Definition changeFiles (disk : gmap string string) (cwd changeFolder : string)
  : result (list string) * gmap string string :=
  let paths := globby disk [posix_join changeFolder "*.md"] ["**/readme.md"] cwd in
  match readAll disk cwd paths with
  | Ok vfiles =>
      match unlinkAll disk paths with
      | (Ok _, disk1) => (Ok vfiles, disk1)
      | (Throw e, disk1) => (Throw e, disk1)
      end
  | Throw e => (Throw e, disk)
  end.

End Disk.

End FilesLegacy.

(** ** The command runner ([packages/covector/src/run.js]) *)

Module Run.

(** One element of the list [mergeIntoConfig] yields. *)
Record PkgCommand : Type := mkPkgCommand {
  pkg : string;
  path : string;
  getPublishedVersion : option string;
  publish : string;
  pkgFile : Files.PackageFile
}.

Inductive event : Type :=
  | ConsoleInfo (s : string)
  | ConsoleLog (s : string)
  | ConsoleDir (x : value)
  | Spawn (command cwd stdio : string)
  | Exited (command : string) (code : Z)
  | Timer (ms : Z) (msg : string).

(** How a generator ends: it returns, it throws, or it waits for an event
    that never comes. *)
Inductive step (A : Type) : Type :=
  | Done (a : A)
  | Failed (e : exn)
  | Blocked.

Arguments Done {A} a.
Arguments Failed {A} e.
Arguments Blocked {A}.

(** [raceTime(t)]: the timer task it spawns, as the delay and the message
    of the error thrown when the delay has passed. *)
Definition raceTime (t : Z) : event :=
  Timer t ("timeout out waiting "
           +:+ match Js.num t (-3) with
               | VNum m e => Js.number_to_string m e
               | _ => EmptyString
               end
           +:+ "s for command").

Definition default_timeout : Z := 120000.

(** The key an object is turned into when it is used as a property name:
    [Object.prototype.toString] of a plain object. *)
Definition object_key : string := "[object Object]".

Definition strict_equal (x : value) (s : string) : bool :=
  match x with
  | VStr t => String.eqb t s
  | _ => false
  end.

Definition is_publish (e : event) : bool :=
  match e with
  | Spawn _ _ stdio => String.eqb stdio "inherit"
  | _ => false
  end.

(** The publish processes started so far. *)
Definition publishes (trace : list event) : list event :=
  List.filter is_publish trace.

(** The [while] loop over the probe's [data] events; [None] when the
    events run out before a version has been put together. *)
Fixpoint readVersion (version : string) (chunks : list string) : option string :=
  if Str.is_empty version || String.eqb version "undefined" then
    match chunks with
    | [] => None
    | data :: rest => readVersion (version +:+ Str.trim data) rest
    end
  else Some version.

Record Release : Type := mkRelease {
  type : string;
  changes : value
}.

(** The error the process library raises for a process that ends with a
    status other than 0. *)
Definition exit_error : exn :=
  LibraryError "@effection/node: the process ended with a status other than 0".

(** What the process library makes of the way a process ends, for the task
    that started it: a process that ends with status 0 has exited, and one
    that ends with another status raises an error in that task, as does a
    process that could not be started. *)
Definition supervised (process_exit : list event -> string -> string -> result Z)
  (trace : list event) (command cwd : string) : result Z :=
  code ← process_exit trace command cwd;
  if code =? 0 then Ok code else Throw exit_error.

Section Covector.

(** What the surroundings answer, given everything that happened before:
    the chunks a probe prints, and what waiting for a process to exit
    gives, its exit status or an error raised meanwhile (a command that
    cannot be started, a process library that raises on its own
    account; [supervised] is that answer as the process library in use
    gives it). *)
Variable probe_output : list event -> string -> string -> list string.
Variable exit_status : list event -> string -> string -> result Z.

Definition truthy_command (c : option string) : bool :=
  match c with
  | Some s => negb (Str.is_empty s)
  | None => false
  end.

(** [yield once(child, "exit")] *)
Definition awaitExit (trace : list event) (command cwd : string)
  : result (list event) :=
  code ← exit_status trace command cwd;
  Ok (trace ++ [Exited command code]).

(** The part of the loop body from [console.log("publishing ...")] on. *)
Definition runPublish (published : gmap string bool) (trace : list event)
  (p : PkgCommand) : step unit * (gmap string bool * list event) :=
  let trace1 :=
    trace ++ [ConsoleLog ("publishing " +:+ pkg p +:+ " with " +:+ publish p);
              Spawn (publish p) (path p) "inherit"] in
  match awaitExit trace1 (publish p) (path p) with
  | Ok trace2 => (Done (), (<[object_key := true]> published, trace2))
  | Throw e => (Failed e, (published, trace1))
  end.

(** One turn of the [for] loop: the state after it, and whether the loop
    goes on. *)
Definition publishOne (published : gmap string bool) (trace : list event)
  (p : PkgCommand) : step unit * (gmap string bool * list event) :=
  if truthy_command (getPublishedVersion p) then
    let cmd := default EmptyString (getPublishedVersion p) in
    let trace1 := trace ++ [Spawn cmd (path p) "pipe"] in
    match readVersion EmptyString (probe_output trace1 cmd (path p)) with
    | None =>
        (* The loop waits for a chunk that does not come: for ever, unless
           the probe's process raises an error meanwhile. *)
        match exit_status trace1 cmd (path p) with
        | Throw e => (Failed e, (published, trace1))
        | Ok _ => (Blocked, (published, trace1))
        end
    | Some version =>
        match awaitExit trace1 cmd (path p) with
        | Throw e => (Failed e, (published, trace1))
        | Ok trace2 =>
            if strict_equal (Files.version (Files.minimum (pkgFile p))) version then
              (Done (),
               (published,
                trace2 ++ [ConsoleLog (pkg p +:+ "@" +:+ version
                                       +:+ " is already published. Skipping.")]))
            else runPublish published trace2 p
        end
    end
  else runPublish published trace p.

Fixpoint publishAll (published : gmap string bool) (trace : list event)
  (commands : list PkgCommand) : step unit * (gmap string bool * list event) :=
  match commands with
  | [] => (Done (), (published, trace))
  | p :: rest =>
      match publishOne published trace p with
      | (Done _, (published1, trace1)) => publishAll published1 trace1 rest
      | stopped => stopped
      end
  end.

(** The trace at which this turn of the loop starts the publish command,
    if it gets there. *)
Definition reachesPublish (trace : list event) (p : PkgCommand)
  : option (list event) :=
  if truthy_command (getPublishedVersion p) then
    let cmd := default EmptyString (getPublishedVersion p) in
    let trace1 := trace ++ [Spawn cmd (path p) "pipe"] in
    match readVersion EmptyString (probe_output trace1 cmd (path p)) with
    | None => None
    | Some version =>
        match awaitExit trace1 cmd (path p) with
        | Throw _ => None
        | Ok trace2 =>
            if strict_equal (Files.version (Files.minimum (pkgFile p))) version
            then None
            else Some trace2
        end
    end
  else Some trace.

(** The other packages of the workspace, and the files module in use. *)
Variable Config : Type.
Variable Applied : Type.
Variable configFile : gmap string string -> string -> result Config.
Variable changeFiles :
  gmap string string -> string -> bool -> result (list string) * gmap string string.
Variable assemble : list string -> list (string * Release).
Variable mergeIntoConfig :
  list (string * Release) -> Config -> string -> result (list PkgCommand).
Variable apply :
  gmap string string -> list PkgCommand -> Config -> string
  -> result Applied * gmap string string.
Variable fillChangelogs :
  gmap string string -> Applied -> list (string * Release) -> Config -> string
  -> result unit * gmap string string.
Variable without_vfile : Config -> value.

Inductive returned : Type :=
  | Text (s : string)
  | Undefined
  | AppliedList (a : Applied)
  | Published (m : gmap string bool).

Record world : Type := mkWorld {
  disk : gmap string string;
  trace : list event
}.

Definition statusLines (releases : list (string * Release)) : list event :=
  flat_map (fun r => [ConsoleLog (fst r +:+ " => " +:+ type (snd r));
                      ConsoleDir (changes (snd r))]) releases.

Definition statusText (releases : list (string * Release)) : string :=
  "There are " +:+ Str.of_nat (length releases) +:+ " changes which include"
  +:+ Str.join "," (map (fun r => " " +:+ fst r +:+ " with " +:+ type (snd r)) releases).

Definition covector (command cwd : string) (w : world) : step returned * world :=
  match configFile (disk w) cwd with
  | Throw e => (Failed e, w)
  | Ok config =>
      match changeFiles (disk w) cwd (String.eqb command "version") with
      | (Throw e, disk1) => (Failed e, {| disk := disk1; trace := trace w |})
      | (Ok changesArray, disk1) =>
          let assembledChanges := assemble changesArray in
          if String.eqb command "status" then
            match changesArray with
            | [] =>
                (Done (Text "No changes."),
                 {| disk := disk1;
                    trace := trace w ++ [ConsoleInfo "There are no changes."] |})
            | _ :: _ =>
                (Done (Text (statusText assembledChanges)),
                 {| disk := disk1;
                    trace := trace w ++ ConsoleLog "changes:" :: statusLines assembledChanges |})
            end
          else if String.eqb command "config" then
            (Done Undefined,
             {| disk := disk1; trace := trace w ++ [ConsoleDir (without_vfile config)] |})
          else if String.eqb command "version" then
            let trace1 := trace w ++ [raceTime default_timeout] in
            match mergeIntoConfig assembledChanges config "version" with
            | Throw e => (Failed e, {| disk := disk1; trace := trace1 |})
            | Ok commands =>
                match apply disk1 commands config cwd with
                | (Throw e, disk2) => (Failed e, {| disk := disk2; trace := trace1 |})
                | (Ok applied, disk2) =>
                    match fillChangelogs disk2 applied assembledChanges config cwd with
                    | (Throw e, disk3) => (Failed e, {| disk := disk3; trace := trace1 |})
                    | (Ok _, disk3) =>
                        (Done (AppliedList applied), {| disk := disk3; trace := trace1 |})
                    end
                end
            end
          else if String.eqb command "publish" then
            let trace1 := trace w ++ [raceTime default_timeout] in
            match mergeIntoConfig assembledChanges config "publish" with
            | Throw e => (Failed e, {| disk := disk1; trace := trace1 |})
            | Ok commands =>
                match publishAll ∅ trace1 commands with
                | (Done _, (published, trace2)) =>
                    (Done (Published published), {| disk := disk1; trace := trace2 |})
                | (Failed e, (_, trace2)) =>
                    (Failed e, {| disk := disk1; trace := trace2 |})
                | (Blocked, (_, trace2)) =>
                    (Blocked, {| disk := disk1; trace := trace2 |})
                end
            end
          else (Done Undefined, {| disk := disk1; trace := trace w |})
      end
  end.

End Covector.

(** *** Vocabulary for the properties of the runner *)

(** The text the probe's loop has put together once it has read
    [chunks]. *)
Definition accumulated (chunks : list string) : string :=
  foldl (fun version data => version +:+ Str.trim data) EmptyString chunks.

(** The test of the probe's loop: no version has been read yet. *)
Definition unset (version : string) : bool :=
  Str.is_empty version || String.eqb version "undefined".

Definition is_spawn (e : event) : bool :=
  match e with
  | Spawn _ _ _ => true
  | _ => false
  end.

Definition is_timer (e : event) : bool :=
  match e with
  | Timer _ _ => true
  | _ => false
  end.

End Run.

(** ** The runner against each files module

    [run.js] calls [configFile({ cwd })] and
    [changeFiles({ cwd, remove })]; both modules take [changeFolder] from its
    default and neither has a [remove] parameter. *)

Module Wiring.

Section Modules.

Variable path_join : string -> string -> string.
Variable posix_join : string -> string -> string.
Variable process_cwd : string.

Definition changeFolder : string := ".changes".

Definition legacy_configFile (disk : gmap string string) (cwd : string)
  : result FilesLegacy.Config :=
  FilesLegacy.configFile path_join disk cwd changeFolder.

Definition legacy_changeFiles
  (globby : gmap string string -> list string -> list string -> string -> list string)
  (disk : gmap string string) (cwd : string) (remove : bool)
  : result (list string) * gmap string string :=
  FilesLegacy.changeFiles path_join posix_join globby process_cwd disk cwd changeFolder.

Definition current_changeFiles
  (globby : gmap string string -> list string -> string -> list string)
  (disk : gmap string string) (cwd : string) (remove : bool)
  : result (list string) * gmap string string :=
  (Ok (Files.changeFiles posix_join globby disk cwd changeFolder), disk).

End Modules.

End Wiring.

(** ** Concrete surroundings for running the model

    A directory separator, a matcher for [folder/*.md], codecs that are not
    installed, and neighbours of the runner that do nothing. *)

Module Fixture.

Definition path_join (a b : string) : string := a +:+ "/" +:+ b.

Definition ends_with (suffix s : string) : bool :=
  match Str.strip_prefix (Str.rev suffix) (Str.rev s) with
  | Some _ => true
  | None => false
  end.

Definition strip_suffix (suffix s : string) : option string :=
  match Str.strip_prefix (Str.rev suffix) (Str.rev s) with
  | Some r => Some (Str.rev r)
  | None => None
  end.

(** The paths under [cwd] that match the one pattern [folder/*.md] and none
    of the [ignored] file names. *)
Definition matches (folder cwd : string) (ignored : list string) (key : string)
  : option string :=
  rel ← Str.strip_prefix (cwd +:+ "/") key;
  base ← Str.strip_prefix (folder +:+ "/") rel;
  if ends_with ".md" base
     && negb (Str.contains "/" base)
     && match Str.strip_prefix "." base with Some _ => false | None => true end
     && negb (existsb (String.eqb base) ignored)
  then Some rel else None.

Definition globby_with (ignored : list string) (disk : gmap string string)
  (patterns : list string) (cwd : string) : list string :=
  match patterns with
  | pat :: _ =>
      match strip_suffix "/*.md" pat with
      | Some folder =>
          omap (fun kv => matches folder cwd ignored (fst kv)) (map_to_list disk)
      | None => []
      end
  | [] => []
  end.

Definition globby_legacy (disk : gmap string string)
  (patterns ignore : list string) (cwd : string) : list string :=
  globby_with ["readme.md"] disk patterns cwd.

Definition globby_current (disk : gmap string string)
  (patterns : list string) (cwd : string) : list string :=
  globby_with ["README.md"; "readme.md"; "Readme.md"] disk patterns cwd.

Definition no_parser (s : string) : result value :=
  Throw (LibraryError "codec not installed").

Definition no_printer (x : value) : result string :=
  Throw (LibraryError "codec not installed").

Definition repo : string := "/repo".

Definition no_releases (changes : list string) : list (string * Run.Release) := [].

Definition no_apply (disk : gmap string string) (commands : list Run.PkgCommand)
  (config : FilesLegacy.Config) (cwd : string) : result unit * gmap string string :=
  (Ok (), disk).

Definition no_changelogs (disk : gmap string string) (applied : unit)
  (releases : list (string * Run.Release)) (config : FilesLegacy.Config)
  (cwd : string) : result unit * gmap string string :=
  (Ok (), disk).

(** The runner on the earlier files module, in a process started in
    [repo], with [mergeIntoConfig] answering [commands]. *)
Definition run_legacy
  (probe_output : list Run.event -> string -> string -> list string)
  (exit_status : list Run.event -> string -> string -> result Z)
  (commands : list Run.PkgCommand) (command : string) (w : Run.world)
  : Run.step (Run.returned unit) * Run.world :=
  Run.covector probe_output exit_status FilesLegacy.Config unit
    (Wiring.legacy_configFile path_join)
    (Wiring.legacy_changeFiles path_join path_join repo globby_legacy)
    no_releases
    (fun _ _ _ => Ok commands)
    no_apply no_changelogs FilesLegacy.parsed
    command repo w.

Definition manifest (ver : string) : Files.PackageFile :=
  {| Files.file := Some {| Files.content := "{}"; Files.path := "package.json";
                           Files.filename := "package"; Files.extname := ".json" |};
     Files.name := Some "pkg";
     Files.minimum :=
       {| Files.version := VStr ver; Files.versionMajor := 1; Files.versionMinor := 0;
          Files.versionPatch := 0; Files.versionPrerelease := VNull;
          Files.deps := VObj []; Files.pkg := VObj [("version", VStr ver)] |} |}.

Definition disk0 : gmap string string :=
  {[ "/repo/.changes/config.json" := "{}";
     "/repo/.changes/add-feature.md" := "a change";
     "/repo/.changes/readme.md" := "about this folder" ]}.

Definition world0 : Run.world := {| Run.disk := disk0; Run.trace := [] |}.

(** A package with a probe, one without, and one whose name is the text an
    object is coerced to. *)
Definition pkg_a : Run.PkgCommand :=
  {| Run.pkg := "pkg-a"; Run.path := "/repo/a";
     Run.getPublishedVersion := Some "npm view pkg-a version";
     Run.publish := "npm publish"; Run.pkgFile := manifest "1.0.0" |}.

Definition pkg_b : Run.PkgCommand :=
  {| Run.pkg := "pkg-b"; Run.path := "/repo/b";
     Run.getPublishedVersion := None;
     Run.publish := "npm publish"; Run.pkgFile := manifest "2.0.0" |}.

Definition pkg_odd : Run.PkgCommand :=
  {| Run.pkg := "[object Object]"; Run.path := "/repo/odd";
     Run.getPublishedVersion := None;
     Run.publish := "npm publish"; Run.pkgFile := manifest "3.0.0" |}.

Definition q (s : string) : string := Js.dq +:+ s +:+ Js.dq.

(** A bare version file with nothing in it. *)
Definition empty_version_file : Files.File :=
  {| Files.content := EmptyString; Files.path := "VERSION";
     Files.filename := "VERSION"; Files.extname := EmptyString |}.

(** A bare version file as the repository's test fixture has it. *)
Definition version_file : Files.File :=
  {| Files.content := "6.1.0" +:+ Js.nl; Files.path := "VERSION";
     Files.filename := "VERSION"; Files.extname := EmptyString |}.

(** A JSON manifest with a dependency whose name is the empty string, and
    one with an ordinary unpinned dependency. *)
Definition nameless_dep_json : Files.File :=
  {| Files.content :=
       "{" +:+ q "version" +:+ ":" +:+ q "1.0.0" +:+ ","
       +:+ q "dependencies" +:+ ":{" +:+ q EmptyString +:+ ":{}}}";
     Files.path := "package.json"; Files.filename := "package";
     Files.extname := ".json" |}.

Definition unpinned_dep_json : Files.File :=
  {| Files.content :=
       "{" +:+ q "version" +:+ ":" +:+ q "1.0.0" +:+ ","
       +:+ q "devDependencies" +:+ ":{" +:+ q "left-pad" +:+ ":{"
       +:+ q "path" +:+ ":" +:+ q "../left-pad" +:+ "}}}";
     Files.path := "package.json"; Files.filename := "package";
     Files.extname := ".json" |}.

(** A JSON manifest written on one line, and one written the way
    [stringifyPkg] writes. *)
Definition compact_json : Files.File :=
  {| Files.content :=
       "{" +:+ q "name" +:+ ":" +:+ q "app" +:+ ","
       +:+ q "version" +:+ ":" +:+ q "1.0.0" +:+ ","
       +:+ q "scripts" +:+ ":{" +:+ q "build" +:+ ":" +:+ q "tsc" +:+ "}}";
     Files.path := "package.json"; Files.filename := "package";
     Files.extname := ".json" |}.

Definition scripts_bytes : string :=
  q "scripts" +:+ ":{" +:+ q "build" +:+ ":" +:+ q "tsc" +:+ "}".

Definition pretty_json : Files.File :=
  {| Files.content :=
       Files.json_text
         (VObj [("name", VStr "app"); ("version", VStr "1.0.0");
                ("scripts", VObj [("build", VStr "tsc")])]);
     Files.path := "package.json"; Files.filename := "package";
     Files.extname := ".json" |}.

Definition parse (f : Files.File) : result Files.PkgMinimum :=
  Files.parsePkg no_parser no_parser f.

(** What [parsePkg] makes of a file, or an empty record when it throws. *)
Definition parsed_or_empty (f : Files.File) : Files.PkgMinimum :=
  match parse f with
  | Ok pm => pm
  | Throw _ =>
      {| Files.version := VUndefined; Files.versionMajor := 0;
         Files.versionMinor := 0; Files.versionPatch := 0;
         Files.versionPrerelease := VUndefined; Files.deps := VUndefined;
         Files.pkg := VUndefined |}
  end.

(** The text written back after the version of [f] has been set to [v],
    or nothing when a step throws. *)
Definition written (f : Files.File) (v : string) : string :=
  match
    Files.setPackageFileVersion (Files.loaded f "app" (parsed_or_empty f)) v "version" None
  with
  | Ok p' =>
      match
        Files.stringifyPkg no_printer no_printer
          (Files.pkg (Files.minimum p')) (Files.extname f)
      with
      | Ok (VStr text) => text
      | _ => EmptyString
      end
  | Throw _ => EmptyString
  end.

(** A Cargo manifest as the earlier module reads it. *)
Definition cargo : FilesLegacy.PackageFile :=
  {| FilesLegacy.vfile :=
       {| FilesLegacy.vpath := "Cargo.toml"; FilesLegacy.vextname := ".toml";
          FilesLegacy.contents := "[package]" |};
     FilesLegacy.name := VStr "crate"; FilesLegacy.version := VStr "0.1.0";
     FilesLegacy.pkg :=
       VObj [("package", VObj [("name", VStr "crate"); ("version", VStr "0.1.0")])] |}.

(** A TOML printer that accepts anything. *)
Definition any_printer (x : value) : result string := Ok "[package]".

(** A registry on which 1.0.0 is live; a process that ends with status 0,
    and one that ends with status 1. *)
Definition probe_live (trace : list Run.event) (command cwd : string) : list string :=
  ["1.0.0" +:+ Js.nl].

Definition exit_zero (trace : list Run.event) (command cwd : string) : result Z :=
  Ok 0.

Definition exit_one (trace : list Run.event) (command cwd : string) : result Z :=
  Ok 1.

(** A JSON manifest without a version. *)
Definition versionless_json : Files.File :=
  {| Files.content := "{" +:+ q "name" +:+ ":" +:+ q "app" +:+ "}";
     Files.path := "package.json"; Files.filename := "package";
     Files.extname := ".json" |}.

(** A YAML reader that knows one document, and a pubspec with that text:
    a version and no name. *)
Definition yaml_reader (s : string) : result value :=
  if String.eqb s "version: 1.0.0" then Ok (VObj [("version", VStr "1.0.0")])
  else Throw (LibraryError "unexpected document").

Definition nameless_pubspec : Files.File :=
  {| Files.content := "version: 1.0.0"; Files.path := "pubspec.yaml";
     Files.filename := "pubspec"; Files.extname := ".yaml" |}.

(** A document in which one dependency is pinned by a string in one table
    and by an object in another. *)
Definition pinned_twice : list (string * value) :=
  [("version", VStr "1.0.0");
   ("dependencies", VObj [("left-pad", VStr "^1.3.0")]);
   ("devDependencies",
    VObj [("left-pad", VObj [("version", VStr "2.0.0"); ("path", VStr "../left-pad")])])].

(** A document in which a dependency is [null]. *)
Definition null_dependency : list (string * value) :=
  [("version", VStr "1.0.0"); ("dependencies", VObj [("left-pad", VNull)])].

(** A package file with the document [pinned_twice]. *)
Definition with_deps : Files.PackageFile :=
  {| Files.file := Some {| Files.content := "{}"; Files.path := "package.json";
                           Files.filename := "package"; Files.extname := ".json" |};
     Files.name := Some "app";
     Files.minimum :=
       {| Files.version := VStr "1.0.0"; Files.versionMajor := 1;
          Files.versionMinor := 0; Files.versionPatch := 0;
          Files.versionPrerelease := VNull; Files.deps := VObj [];
          Files.pkg := VObj pinned_twice |} |}.

(** A registry that answers with an empty line. *)
Definition probe_blank (trace : list Run.event) (command cwd : string) : list string :=
  [Js.nl].

(** The parts of a path, for paths written with [/]. *)
Definition segments (p : string) : list string := Str.split_on "/"%char p.

Definition basename (p : string) : string := List.last (segments p) EmptyString.

Definition dirname (p : string) : string :=
  match removelast (segments p) with
  | [] => "."
  | parts => Str.join "/" parts
  end.

Definition parse_ext (f : string) : string :=
  match Str.split_on "."%char (basename f) with
  | [] | [_] => EmptyString
  | parts => "." +:+ List.last parts EmptyString
  end.

Definition parse_name (f : string) : string :=
  match Str.split_on "."%char (basename f) with
  | [] | [_] => basename f
  | parts => Str.join "." (removelast parts)
  end.

Definition posix_relative (cwd p : string) : string :=
  match Str.strip_prefix (cwd +:+ "/") p with
  | Some r => r
  | None => p
  end.

(** A workspace of two packages, one of them configured under the empty
    name, and its manifests as [readAllPkgFiles] returns them. *)
Definition workspace : gmap string string :=
  {[ "/repo/a/package.json" := Files.content compact_json;
     "/repo/b/package.json" := Files.content compact_json ]}.

Definition packages : list (string * Files.PkgConfig) :=
  [("pkg-a", {| Files.manager := Some "javascript"; Files.pkgPath := Some "a";
                Files.packageFileName := None |});
   (EmptyString, {| Files.manager := None; Files.pkgPath := Some "b";
                    Files.packageFileName := None |})].

Definition manifests : gmap string Files.PackageFile :=
  match
    Files.readAllPkgFiles path_join path_join posix_relative parse_name parse_ext
      no_parser no_parser workspace repo packages
  with
  | Ok pkgs => pkgs
  | Throw _ => ∅
  end.

(** A package file that has lost its file. *)
Definition fileless : Files.PackageFile :=
  {| Files.file := None; Files.name := Some "app";
     Files.minimum := Files.minimum (manifest "1.0.0") |}.

(** A configuration in which one package is given by the path of its
    manifest, one by its directory and one by a path that is not there;
    and what is on the disk. *)
Definition stat (p : string) : result bool :=
  if String.eqb p "/repo/app/Cargo.toml" then Ok true
  else if String.eqb p "/repo/lib" then Ok false
  else Throw (Error ("ENOENT: no such file or directory, stat '" +:+ p +:+ "'")).

Definition two_packages : list (string * value) :=
  [("app", VObj [("path", VStr "app/Cargo.toml"); ("manager", VStr "rust")]);
   ("lib", VObj [("path", VStr "lib")])].

Definition three_packages : list (string * value) :=
  two_packages ++ [("gone", VObj [("path", VStr "gone")])].

(** A JSON manifest as the earlier module holds it. *)
Definition legacy_manifest : FilesLegacy.PackageFile :=
  {| FilesLegacy.vfile :=
       {| FilesLegacy.vpath := "package.json"; FilesLegacy.vextname := ".json";
          FilesLegacy.contents := "{}" |};
     FilesLegacy.name := VStr "app"; FilesLegacy.version := VStr "1.0.0";
     FilesLegacy.pkg := VObj [("name", VStr "app"); ("version", VStr "1.1.0")] |}.

End Fixture.

(** * Properties

    ** The primitives on examples *)

Example trim_ex :
  Str.trim (Str.of_codes [32; 9]%nat +:+ "6.1.0" +:+ Str.of_codes [13; 10]%nat) = "6.1.0".
Proof. reflexivity. Qed.

Example semver_ex1 : Semver.valid "6.1.0" = true.
Proof. reflexivity. Qed.

Example semver_ex2 : Semver.valid "v1.2.3-beta.1+build.5" = true.
Proof. reflexivity. Qed.

Example semver_ex3 : Semver.valid "1.2" = false.
Proof. reflexivity. Qed.

Example semver_ex4 : Semver.valid "01.2.3" = false.
Proof. reflexivity. Qed.

Example semver_ex5 : Semver.valid "1.2.3-01" = false.
Proof. reflexivity. Qed.


Example semver_ex7 :
  (Semver.valid " 1.2.3", Semver.constructs " 1.2.3",
   Semver.valid "9007199254740992.0.0", Semver.valid "9007199254740991.0.0")
  = (false, true, false, true).
Proof. vm_compute. reflexivity. Qed.

Example semver_ex6 :
  (Semver.major "v1.22.3-beta.1", Semver.minor "v1.22.3-beta.1",
   Semver.patch "v1.22.3-beta.1", Semver.prerelease "v1.22.3-beta.1")
  = (Ok 1%N, Ok 22%N, Ok 3%N, Ok (VArr [VStr "beta"; VNum 1 0])).
Proof. vm_compute. reflexivity. Qed.

Example stringify_ex :
  Js.JSON_stringify
    (VObj [("name", VStr "a"); ("n", VNum 15 (-1)); ("l", VArr [VNull; VBool true]);
           ("e", VObj [])]) "  "
  = Some ("{" +:+ Js.nl +:+ "  " +:+ Js.dq +:+ "name" +:+ Js.dq +:+ ": " +:+ Js.dq +:+ "a" +:+ Js.dq +:+ "," +:+ Js.nl
          +:+ "  " +:+ Js.dq +:+ "n" +:+ Js.dq +:+ ": 1.5," +:+ Js.nl
          +:+ "  " +:+ Js.dq +:+ "l" +:+ Js.dq +:+ ": [" +:+ Js.nl +:+ "    null," +:+ Js.nl +:+ "    true" +:+ Js.nl +:+ "  ]," +:+ Js.nl
          +:+ "  " +:+ Js.dq +:+ "e" +:+ Js.dq +:+ ": {}" +:+ Js.nl +:+ "}").
Proof. reflexivity. Qed.

Example parse_ex :
  Js.JSON_parse
    ("{" +:+ Js.dq +:+ "b" +:+ Js.dq +:+ ":[1.50,-2e3, true ,null],"
     +:+ Js.dq +:+ "2" +:+ Js.dq +:+ " : " +:+ Js.dq +:+ "x" +:+ Js.bs +:+ "u0041" +:+ Js.bs +:+ "n" +:+ Js.dq
     +:+ ", " +:+ Js.dq +:+ "b" +:+ Js.dq +:+ ": {} }")
  = Some (VObj [("2", VStr ("xA" +:+ Js.nl)); ("b", VObj [])]).
Proof. vm_compute. reflexivity. Qed.

Example parse_ex2 : Js.JSON_parse "[1.50,-2e3, true ,null, 0.001e-4]"
  = Some (VArr [VNum 15 (-1); VNum (-2) 3; VBool true; VNull; VNum 1 (-7)]).
Proof. vm_compute. reflexivity. Qed.

Example parse_ex3 : Js.JSON_parse "[1,]" = None.
Proof. vm_compute. reflexivity. Qed.

Example exact_numbers_ex :
  (option_map Js.exact_numbers (Js.JSON_parse "[0.1, 120, 1e21, 123456789012345]"),
   option_map Js.exact_numbers (Js.JSON_parse "[9007199254740993]"),
   option_map Js.exact_numbers (Js.JSON_parse "{}"),
   option_map Js.exact_numbers (Js.JSON_parse "[1e400]"))
  = (Some true, Some false, Some true, Some false).
Proof. vm_compute. reflexivity. Qed.

Example number_ex :
  map (fun x => match x with VNum m e => Js.number_to_string m e | _ => "?" end)
    [VNum 15 (-1); VNum (-2) 3; VNum 1 (-7); VNum 123 19; VNum 5 (-6); VNum 12345 (-2)]
  = ["1.5"; "-2000"; "1e-7"; "1.23e+21"; "0.000005"; "123.45"].
Proof. vm_compute. reflexivity. Qed.

Example raceTime_ex :
  Run.raceTime Run.default_timeout
  = Run.Timer 120000 "timeout out waiting 120s for command".
Proof. vm_compute. reflexivity. Qed.

Example readVersion_ex :
  Run.readVersion EmptyString [" "; "undefined"; "1.0"; ".0"] = Some "undefined1.0".
Proof. vm_compute. reflexivity. Qed.

(** ** The publish loop *)

Section PublishLoop.

Variable probe_output : list Run.event -> string -> string -> list string.
Variable exit_status : list Run.event -> string -> string -> result Z.

Local Abbreviation publishOne := (Run.publishOne probe_output exit_status).
Local Abbreviation publishAll := (Run.publishAll probe_output exit_status).
Local Abbreviation reachesPublish := (Run.reachesPublish probe_output exit_status).
Local Abbreviation runPublish := (Run.runPublish exit_status).
Local Abbreviation awaitExit := (Run.awaitExit exit_status).

Lemma publishes_app (t u : list Run.event) :
  Run.publishes (t ++ u) = Run.publishes t ++ Run.publishes u.
Proof. unfold Run.publishes. apply List.filter_app. Qed.

Lemma strict_equal_spec (x : value) (s : string) :
  Run.strict_equal x s = true <-> x = VStr s.
Proof.
  destruct x; simpl; try (split; [discriminate | congruence]).
  rewrite String.eqb_eq. split; congruence.
Qed.

Lemma awaitExit_ok (trace trace' : list Run.event) (command cwd : string) :
  awaitExit trace command cwd = Ok trace' ->
  exists code,
    exit_status trace command cwd = Ok code
    /\ trace' = trace ++ [Run.Exited command code].
Proof.
  unfold Run.awaitExit. destruct (exit_status trace command cwd) as [code|e];
    simpl; [|discriminate].
  intros [= <-]. eauto.
Qed.

(** What the publish part of a turn does, by what the wait for the exit
    gives. *)
Lemma runPublish_cases (published : gmap string bool) (trace : list Run.event)
  (p : Run.PkgCommand) :
  let trace1 :=
    trace ++ [Run.ConsoleLog ("publishing " +:+ Run.pkg p +:+ " with " +:+ Run.publish p);
              Run.Spawn (Run.publish p) (Run.path p) "inherit"] in
  runPublish published trace p
  = match exit_status trace1 (Run.publish p) (Run.path p) with
    | Ok code =>
        (Run.Done (), (<[Run.object_key := true]> published,
                       trace1 ++ [Run.Exited (Run.publish p) code]))
    | Throw e => (Run.Failed e, (published, trace1))
    end.
Proof.
  unfold Run.runPublish, Run.awaitExit. simpl.
  destruct (exit_status _ _ _); reflexivity.
Qed.

(** A turn of the loop that ends well either leaves the result object
    alone and starts no publish process, or starts exactly one and sets the
    one key. *)
Lemma publishOne_cases (published : gmap string bool) (trace : list Run.event)
  (p : Run.PkgCommand) (published1 : gmap string bool) (trace1 : list Run.event) :
  publishOne published trace p = (Run.Done (), (published1, trace1)) ->
  (published1 = published /\ Run.publishes trace1 = Run.publishes trace)
  \/ (published1 = <[Run.object_key := true]> published
      /\ Run.publishes trace1
         = Run.publishes trace ++ [Run.Spawn (Run.publish p) (Run.path p) "inherit"]).
Proof.
  assert (Hrun : forall t,
             runPublish published t p = (Run.Done (), (published1, trace1)) ->
             published1 = <[Run.object_key := true]> published
             /\ Run.publishes trace1
                = Run.publishes t ++ [Run.Spawn (Run.publish p) (Run.path p) "inherit"]).
  { intros t. rewrite runPublish_cases.
    destruct (exit_status _ _ _) as [code|e]; [|discriminate].
    intros [= <- <-]. split; [reflexivity|].
    rewrite !publishes_app. simpl. rewrite !app_nil_r. reflexivity. }
  unfold Run.publishOne.
  destruct (Run.truthy_command _); [|intros H; right; exact (Hrun _ H)].
  destruct (Run.readVersion _ _) as [version|];
    [|destruct (exit_status _ _ _); discriminate].
  destruct (awaitExit _ _ _) as [trace2|e] eqn:Ewait; [|discriminate].
  apply awaitExit_ok in Ewait as (code & _ & ->).
  destruct (Run.strict_equal _ _).
  - intros [= <- <-]. left. split; [reflexivity|].
    rewrite !publishes_app. simpl. rewrite !app_nil_r. reflexivity.
  - intros H. right. destruct (Hrun _ H) as [-> ->]. split; [reflexivity|].
    rewrite !publishes_app. simpl. rewrite !app_nil_r. reflexivity.
Qed.

Lemma publishAll_cases (commands : list Run.PkgCommand) :
  forall (published : gmap string bool) (trace : list Run.event)
         (m : gmap string bool) (trace' : list Run.event),
  publishAll published trace commands = (Run.Done (), (m, trace')) ->
  exists extra,
    Run.publishes trace' = Run.publishes trace ++ extra
    /\ (extra = [] -> m = published)
    /\ (extra <> [] -> m = <[Run.object_key := true]> published).
Proof.
  induction commands as [|p rest IH]; intros published trace m trace'; simpl.
  - intros [= <- <-]. exists []. rewrite app_nil_r. repeat split; congruence.
  - destruct (publishOne published trace p) as [[[]| |] [published1 trace1]] eqn:E;
      try discriminate.
    intros H. apply IH in H as (extra & Ht & Hnil & Hcons).
    apply publishOne_cases in E as [[-> E]|[-> E]].
    + exists extra. rewrite Ht, E. auto.
    + exists (Run.Spawn (Run.publish p) (Run.path p) "inherit" :: extra).
      rewrite Ht, E, <- app_assoc. split; [reflexivity|].
      split; [discriminate|]. intros _.
      destruct extra as [|e extra'].
      * apply Hnil. reflexivity.
      * rewrite Hcons by discriminate. apply insert_insert_eq.
Qed.

(** C3, as the code has it: when the version put together from the probe's
    output is the package's target version, the turn of the loop ends after
    the probe has exited and a line has been logged; no publish process is
    started, the result object is left as it was (it gets no entry for the
    package), and the loop goes on with the remaining packages. *)
Theorem skipped_package_leaves_no_record
  (published : gmap string bool) (trace : list Run.event) (p : Run.PkgCommand)
  (rest : list Run.PkgCommand) (cmd version : string) (code : Z) :
  Run.getPublishedVersion p = Some cmd ->
  cmd <> EmptyString ->
  Run.readVersion EmptyString
    (probe_output (trace ++ [Run.Spawn cmd (Run.path p) "pipe"]) cmd (Run.path p))
  = Some version ->
  exit_status (trace ++ [Run.Spawn cmd (Run.path p) "pipe"]) cmd (Run.path p)
  = Ok code ->
  Files.version (Files.minimum (Run.pkgFile p)) = VStr version ->
  let trace1 :=
    trace ++ [Run.Spawn cmd (Run.path p) "pipe"; Run.Exited cmd code;
              Run.ConsoleLog (Run.pkg p +:+ "@" +:+ version
                              +:+ " is already published. Skipping.")] in
  publishOne published trace p = (Run.Done (), (published, trace1))
  /\ Run.publishes trace1 = Run.publishes trace
  /\ publishAll published trace (p :: rest) = publishAll published trace1 rest.
Proof.
  intros Hcmd Hne Hread Hexit Hver trace1.
  assert (E : publishOne published trace p = (Run.Done (), (published, trace1))).
  { unfold Run.publishOne, Run.awaitExit. rewrite Hcmd. simpl.
    destruct cmd; [congruence|]. simpl. simpl in Hread, Hexit. rewrite Hread, Hexit.
    simpl. rewrite (proj2 (strict_equal_spec _ _) Hver).
    subst trace1. rewrite <- !app_assoc. reflexivity. }
  split; [exact E|]. split.
  - subst trace1. rewrite publishes_app. simpl. rewrite app_nil_r. reflexivity.
  - simpl. rewrite E. reflexivity.
Qed.

(** A turn that starts the publish command, by what the wait for the
    exit gives: when it returns, the package is recorded and the loop goes
    on; when it raises, the loop ends there. *)
Lemma reached_publish_cases
  (published : gmap string bool) (trace : list Run.event) (p : Run.PkgCommand)
  (rest : list Run.PkgCommand) (started : list Run.event) :
  reachesPublish trace p = Some started ->
  let trace1 :=
    started ++ [Run.ConsoleLog ("publishing " +:+ Run.pkg p +:+ " with " +:+ Run.publish p);
                Run.Spawn (Run.publish p) (Run.path p) "inherit"] in
  match exit_status trace1 (Run.publish p) (Run.path p) with
  | Ok code =>
      publishOne published trace p
      = (Run.Done (), (<[Run.object_key := true]> published,
                       trace1 ++ [Run.Exited (Run.publish p) code]))
      /\ publishAll published trace (p :: rest)
         = publishAll (<[Run.object_key := true]> published)
             (trace1 ++ [Run.Exited (Run.publish p) code]) rest
  | Throw e =>
      publishOne published trace p = (Run.Failed e, (published, trace1))
      /\ publishAll published trace (p :: rest) = (Run.Failed e, (published, trace1))
  end.
Proof.
  intros Hreach trace1.
  assert (E : publishOne published trace p = runPublish published started p).
  { revert Hreach. unfold Run.reachesPublish, Run.publishOne.
    destruct (Run.truthy_command _); [|intros [= <-]; reflexivity].
    destruct (Run.readVersion _ _) as [version|]; [|discriminate].
    destruct (awaitExit _ _ _) as [trace2|e]; [|discriminate].
    destruct (Run.strict_equal _ _); [discriminate|].
    intros [= <-]. reflexivity. }
  rewrite runPublish_cases in E. fold trace1 in E.
  destruct (exit_status trace1 (Run.publish p) (Run.path p)) as [code|e];
    (split; [exact E|]); simpl; rewrite E; reflexivity.
Qed.

(** C10, as the code has it: the object a publish loop returns has no key
    other than the text an object is coerced to; it is empty when no publish
    process was started and holds exactly that one key, with [true],
    otherwise, however many packages were published.  A package name
    different from that text therefore has no entry. *)
Theorem published_object_has_one_key
  (commands : list Run.PkgCommand) (trace trace' : list Run.event)
  (m : gmap string bool) :
  publishAll ∅ trace commands = (Run.Done (), (m, trace')) ->
  (forall n : string, n <> Run.object_key -> m !! n = None)
  /\ (Run.publishes trace' <> Run.publishes trace -> m = {[Run.object_key := true]})
  /\ (Run.publishes trace' = Run.publishes trace -> m = ∅).
Proof.
  intros H. apply publishAll_cases in H as (extra & Ht & Hnil & Hcons).
  assert (Hm : m = ∅ \/ m = {[Run.object_key := true]}).
  { destruct extra; [left; auto|right]. rewrite Hcons by discriminate.
    apply insert_empty. }
  split; [|split].
  - intros n Hn. destruct Hm as [-> | ->].
    + apply lookup_empty.
    + apply lookup_singleton_ne. congruence.
  - intros Hneq. destruct extra.
    + rewrite app_nil_r in Ht. contradiction.
    + rewrite Hcons by discriminate. apply insert_empty.
  - intros Heq. apply Hnil. rewrite Heq in Ht.
    rewrite <- (app_nil_r (Run.publishes trace)) in Ht at 1.
    apply app_inv_head in Ht. congruence.
Qed.

End PublishLoop.

(** Witness for [skipped_package_leaves_no_record]: [pkg_a], whose probe
    prints the target version. *)
Lemma skipped_package_leaves_no_record_witness :
  Run.readVersion EmptyString
    (Fixture.probe_live [Run.Spawn "npm view pkg-a version" "/repo/a" "pipe"]
       "npm view pkg-a version" "/repo/a") = Some "1.0.0"
  /\ Run.publishOne Fixture.probe_live Fixture.exit_zero ∅ [] Fixture.pkg_a
     = (Run.Done (),
        (∅, [Run.Spawn "npm view pkg-a version" "/repo/a" "pipe";
             Run.Exited "npm view pkg-a version" 0;
             Run.ConsoleLog "pkg-a@1.0.0 is already published. Skipping."])).
Proof.
  split; [vm_compute; reflexivity|].
  exact (proj1 (skipped_package_leaves_no_record Fixture.probe_live Fixture.exit_zero
                  ∅ [] Fixture.pkg_a [] "npm view pkg-a version" "1.0.0" 0
                  eq_refl ltac:(discriminate) eq_refl eq_refl eq_refl)).
Defined.

(** C3 fails as stated: a publish run over [pkg_a] alone, whose probe prints
    the target version, returns the empty object; nothing in it records the
    package as skipped. *)
Lemma skipped_package_not_in_result :
  Run.readVersion EmptyString
    (Fixture.probe_live [Run.Spawn "npm view pkg-a version" "/repo/a" "pipe"]
       "npm view pkg-a version" "/repo/a")
  = Some "1.0.0"
  /\ Files.version (Files.minimum (Run.pkgFile Fixture.pkg_a)) = VStr "1.0.0"
  /\ fst (Fixture.run_legacy Fixture.probe_live Fixture.exit_zero
            [Fixture.pkg_a] "publish" Fixture.world0)
     = Run.Done (Run.Published unit ∅).
Proof. repeat split; vm_compute; reflexivity. Qed.

(** ** A publish process that fails *)

Section Supervision.

Variable probe_output : list Run.event -> string -> string -> list string.

(** How each process ends. *)
Variable process_exit : list Run.event -> string -> string -> result Z.

Local Abbreviation wait := (Run.supervised process_exit).

(** C4, as the code has it: for a package whose publish command is
    started, the package is recorded, as [true], exactly when the process
    ends with status 0, and the loop then goes on with the remaining
    packages; when the process ends with another status, or cannot be
    started, the process library raises an error that the loop does not
    catch: the loop ends there with that error, nothing is recorded for the
    package and the remaining packages are not processed. *)
Theorem publish_recorded_iff_exit_zero
  (published : gmap string bool) (trace : list Run.event) (p : Run.PkgCommand)
  (rest : list Run.PkgCommand) (started : list Run.event) :
  Run.reachesPublish probe_output wait trace p = Some started ->
  let trace1 :=
    started ++ [Run.ConsoleLog ("publishing " +:+ Run.pkg p +:+ " with " +:+ Run.publish p);
                Run.Spawn (Run.publish p) (Run.path p) "inherit"] in
  match process_exit trace1 (Run.publish p) (Run.path p) with
  | Ok code =>
      if code =? 0 then
        Run.publishOne probe_output wait published trace p
        = (Run.Done (), (<[Run.object_key := true]> published,
                         trace1 ++ [Run.Exited (Run.publish p) 0]))
        /\ Run.publishAll probe_output wait published trace (p :: rest)
           = Run.publishAll probe_output wait (<[Run.object_key := true]> published)
               (trace1 ++ [Run.Exited (Run.publish p) 0]) rest
      else
        Run.publishOne probe_output wait published trace p
        = (Run.Failed Run.exit_error, (published, trace1))
        /\ Run.publishAll probe_output wait published trace (p :: rest)
           = (Run.Failed Run.exit_error, (published, trace1))
  | Throw e =>
      Run.publishOne probe_output wait published trace p
      = (Run.Failed e, (published, trace1))
      /\ Run.publishAll probe_output wait published trace (p :: rest)
         = (Run.Failed e, (published, trace1))
  end.
Proof.
  intros Hreach trace1.
  pose proof (reached_publish_cases probe_output wait published trace p rest
                started Hreach) as H.
  cbv zeta in H. fold trace1 in H.
  change (Run.supervised process_exit trace1 (Run.publish p) (Run.path p))
    with (process_exit trace1 (Run.publish p) (Run.path p)
          ≫= fun code => if code =? 0 then Ok code else Throw Run.exit_error)
    in H.
  destruct (process_exit trace1 (Run.publish p) (Run.path p)) as [code|e];
    cbn [mbind result_bind] in H; [|exact H].
  destruct (code =? 0) eqn:E; [|exact H].
  apply Z.eqb_eq in E. subst code. exact H.
Qed.

End Supervision.

(** Witness for [publish_recorded_iff_exit_zero]: [pkg_b], whose publish
    process ends with status 0. *)
Lemma publish_recorded_iff_exit_zero_witness :
  Run.reachesPublish Fixture.probe_live (Run.supervised Fixture.exit_zero) []
    Fixture.pkg_b = Some []
  /\ Run.publishOne Fixture.probe_live (Run.supervised Fixture.exit_zero) ∅ []
       Fixture.pkg_b
     = (Run.Done (),
        (<[Run.object_key := true]> ∅,
         [Run.ConsoleLog "publishing pkg-b with npm publish";
          Run.Spawn "npm publish" "/repo/b" "inherit";
          Run.Exited "npm publish" 0])).
Proof.
  split; [reflexivity|].
  exact (proj1 (publish_recorded_iff_exit_zero Fixture.probe_live Fixture.exit_zero
                  ∅ [] Fixture.pkg_b [] [] eq_refl)).
Defined.

(** C4 fails as stated: when the publish process of [pkg_b] ends with
    status 1, no error is reported for that package while the others go
    on; the run as a whole fails, nothing is returned, and the publish
    command of the package after [pkg_b] is never started. *)
Lemma failing_publish_aborts_the_run :
  fst (Fixture.run_legacy Fixture.probe_live (Run.supervised Fixture.exit_one)
         [Fixture.pkg_b; Fixture.pkg_odd] "publish" Fixture.world0)
  = Run.Failed Run.exit_error
  /\ Run.trace (snd (Fixture.run_legacy Fixture.probe_live
                       (Run.supervised Fixture.exit_one)
                       [Fixture.pkg_b; Fixture.pkg_odd] "publish" Fixture.world0))
     = [Run.Timer 120000 "timeout out waiting 120s for command";
        Run.ConsoleLog "publishing pkg-b with npm publish";
        Run.Spawn "npm publish" "/repo/b" "inherit"].
Proof. split; vm_compute; reflexivity. Qed.

(** Witness for [published_object_has_one_key]: two packages published in
    one loop. *)
Lemma published_object_has_one_key_witness :
  (exists trace',
      Run.publishAll Fixture.probe_live Fixture.exit_zero ∅ []
        [Fixture.pkg_b; Fixture.pkg_odd]
      = (Run.Done (), ({[Run.object_key := true]}, trace')))
  /\ (({[Run.object_key := true]} : gmap string bool) !! "pkg-b" = None).
Proof.
  assert (E : exists trace',
             Run.publishAll Fixture.probe_live Fixture.exit_zero ∅ []
               [Fixture.pkg_b; Fixture.pkg_odd]
             = (Run.Done (), ({[Run.object_key := true]}, trace'))).
  { eexists. vm_compute. reflexivity. }
  split; [exact E|].
  destruct E as [trace' E].
  exact (proj1 (published_object_has_one_key Fixture.probe_live Fixture.exit_zero
                  _ _ _ _ E) "pkg-b" ltac:(discriminate)).
Defined.

(** C10 fails as stated: a package may itself be named by the text an
    object is coerced to, and then the returned object does hold an entry
    under that package's name. *)
Lemma entry_under_a_package_name :
  exists m,
    fst (Fixture.run_legacy Fixture.probe_live Fixture.exit_zero
           [Fixture.pkg_odd] "publish" Fixture.world0)
    = Run.Done (Run.Published unit m)
    /\ m !! Run.pkg Fixture.pkg_odd = Some true.
Proof.
  exists {[Run.object_key := true]}. split; vm_compute; reflexivity.
Qed.

(** ** The earlier files module *)

Section LegacyCodec.

Variable TOML_stringify : value -> result string.

Lemma file_is_unbound (newContents : value) (extname : string) :
  FilesLegacy.resolve
    [("newContents", newContents); ("extname", VStr extname)] "file"
  = Throw (ReferenceError "file is not defined").
Proof. reflexivity. Qed.

(** C9: in the earlier files module the [.toml] branch of [stringifyPkg]
    throws a [ReferenceError] for every argument, because [file] is bound
    nowhere; so [writePkgFile] throws for every package file whose vfile has
    the extension [.toml], and writes nothing. *)
Theorem legacy_toml_is_never_written :
  (forall newContents : value,
      FilesLegacy.stringifyPkg TOML_stringify newContents ".toml"
      = Throw (ReferenceError "file is not defined"))
  /\ (forall (disk : gmap string string) (packageFile : FilesLegacy.PackageFile),
         FilesLegacy.vextname (FilesLegacy.vfile packageFile) = ".toml" ->
         FilesLegacy.writePkgFile TOML_stringify disk packageFile
         = (Throw (ReferenceError "file is not defined"), disk)).
Proof.
  split.
  - intros newContents. reflexivity.
  - intros disk packageFile Hext. unfold FilesLegacy.writePkgFile.
    rewrite Hext. reflexivity.
Qed.

End LegacyCodec.

(** Witness for [legacy_toml_is_never_written]: a Cargo manifest, with a
    TOML printer that would accept anything. *)
Lemma legacy_toml_is_never_written_witness :
  FilesLegacy.vextname (FilesLegacy.vfile Fixture.cargo) = ".toml"
  /\ FilesLegacy.writePkgFile Fixture.any_printer ∅ Fixture.cargo
     = (Throw (ReferenceError "file is not defined"), ∅).
Proof.
  split; [reflexivity|].
  exact (proj2 (legacy_toml_is_never_written Fixture.any_printer) ∅ Fixture.cargo eq_refl).
Defined.

Section LegacyDisk.

Variable path_join : string -> string -> string.
Variable posix_join : string -> string -> string.
Variable globby : gmap string string -> list string -> list string -> string -> list string.
Variable process_cwd : string.

Local Abbreviation unlinkAll := (FilesLegacy.unlinkAll path_join process_cwd).
Local Abbreviation readAll := (FilesLegacy.readAll path_join).

Lemma readAll_ok (cwd : string) (paths : list string) (disk : gmap string string) :
  (forall p, p ∈ paths -> is_Some (disk !! path_join cwd p)) ->
  exists texts, readAll disk cwd paths = Ok texts /\ length texts = length paths.
Proof.
  induction paths as [|p rest IH]; intros Hall; simpl.
  - exists []. split; reflexivity.
  - destruct (Hall p) as [text Hp]; [left|].
    destruct IH as (texts & -> & Hlen).
    { intros q Hq. apply Hall. right. exact Hq. }
    rewrite Hp. simpl. exists (text :: texts). simpl. split; congruence.
Qed.

Lemma unlinkAll_ok (paths : list string) :
  forall disk : gmap string string,
  NoDup (map (path_join process_cwd) paths) ->
  (forall p, p ∈ paths -> is_Some (disk !! path_join process_cwd p)) ->
  exists disk',
    unlinkAll disk paths = (Ok (), disk')
    /\ (forall k, k ∈ map (path_join process_cwd) paths -> disk' !! k = None)
    /\ (forall k, k ∉ map (path_join process_cwd) paths -> disk' !! k = disk !! k).
Proof.
  induction paths as [|p rest IH]; intros disk Hnodup Hall; simpl.
  - exists disk. split; [reflexivity|]. split; [|reflexivity].
    intros k Hk. inversion Hk.
  - apply NoDup_cons in Hnodup as [Hnotin Hnodup].
    destruct (Hall p) as [text Hp]; [left|].
    unfold Files.unlink. rewrite Hp.
    destruct (IH (delete (path_join process_cwd p) disk) Hnodup)
      as (disk' & -> & Hgone & Hkept).
    { intros q Hq. rewrite lookup_delete_ne.
      - apply Hall. right. exact Hq.
      - intros Heq. apply Hnotin. rewrite Heq.
        apply list_elem_of_fmap. exists q. split; [reflexivity|exact Hq]. }
    exists disk'. split; [reflexivity|]. split.
    + intros k Hk. apply elem_of_cons in Hk as [-> | Hk].
      * rewrite Hkept by exact Hnotin. apply lookup_delete_eq.
      * apply Hgone. exact Hk.
    + intros k Hk. apply not_elem_of_cons in Hk as [Hne Hk].
      rewrite Hkept by exact Hk. apply lookup_delete_ne. congruence.
Qed.

Variable probe_output : list Run.event -> string -> string -> list string.
Variable exit_status : list Run.event -> string -> string -> result Z.
Variable Applied : Type.
Variable assemble : list string -> list (string * Run.Release).
Variable mergeIntoConfig :
  list (string * Run.Release) -> FilesLegacy.Config -> string
  -> result (list Run.PkgCommand).
Variable apply :
  gmap string string -> list Run.PkgCommand -> FilesLegacy.Config -> string
  -> result Applied * gmap string string.
Variable fillChangelogs :
  gmap string string -> Applied -> list (string * Run.Release)
  -> FilesLegacy.Config -> string -> result unit * gmap string string.

Local Abbreviation covector_legacy :=
  (Run.covector probe_output exit_status FilesLegacy.Config Applied
     (Wiring.legacy_configFile path_join)
     (Wiring.legacy_changeFiles path_join posix_join process_cwd globby)
     assemble mergeIntoConfig apply fillChangelogs FilesLegacy.parsed).

(** C8 on the earlier files module: a [status] run started in the working
    directory of the process returns its text, and every change file the
    matcher listed is gone from the disk afterwards; the rest of the disk is
    as before.  [changeFiles] unlinks what it has read without looking at
    the [remove] flag the runner passes. *)
Theorem status_run_deletes_change_files (w : Run.world) :
  let paths :=
    globby (Run.disk w) [posix_join Wiring.changeFolder "*.md"] ["**/readme.md"]
      process_cwd in
  is_ok (Wiring.legacy_configFile path_join (Run.disk w) process_cwd) = true ->
  NoDup (map (path_join process_cwd) paths) ->
  (forall p, p ∈ paths -> is_Some (Run.disk w !! path_join process_cwd p)) ->
  exists text w',
    covector_legacy "status" process_cwd w = (Run.Done (Run.Text Applied text), w')
    /\ (forall p, p ∈ paths -> Run.disk w' !! path_join process_cwd p = None)
    /\ (forall k, k ∉ map (path_join process_cwd) paths ->
                  Run.disk w' !! k = Run.disk w !! k).
Proof.
  intros paths Hconfig Hnodup Hall.
  unfold Run.covector.
  destruct (Wiring.legacy_configFile path_join (Run.disk w) process_cwd)
    as [config|e]; [|discriminate].
  unfold Wiring.legacy_changeFiles, FilesLegacy.changeFiles. fold paths.
  destruct (readAll_ok process_cwd paths (Run.disk w) Hall) as (texts & -> & Hlen).
  destruct (unlinkAll_ok paths (Run.disk w) Hnodup Hall) as (disk' & -> & Hgone & Hkept).
  simpl.
  assert (Hgone' : forall p, p ∈ paths -> disk' !! path_join process_cwd p = None).
  { intros p Hp. apply Hgone. apply list_elem_of_fmap. exists p. auto. }
  destruct texts; eexists _, _; (split; [reflexivity|]); simpl; auto.
Qed.

End LegacyDisk.

Section CurrentDisk.

Variable posix_join : string -> string -> string.
Variable globby : gmap string string -> list string -> string -> list string.

(** On the files module of [index.ts] the runner's [changeFiles] call only
    lists: the disk it hands back is the disk it was given. *)
Lemma current_changeFiles_keeps_disk (disk : gmap string string) (cwd : string)
  (remove : bool) :
  snd (Wiring.current_changeFiles posix_join globby disk cwd remove) = disk.
Proof. reflexivity. Qed.

End CurrentDisk.

(** Witness for [status_run_deletes_change_files]: a [status] run in
    [/repo], where [.changes] holds one change file. *)
Lemma status_run_deletes_change_files_witness :
  Run.disk Fixture.world0 !! "/repo/.changes/add-feature.md" = Some "a change"
  /\ exists text w',
      Fixture.run_legacy Fixture.probe_live Fixture.exit_zero [] "status" Fixture.world0
      = (Run.Done (Run.Text unit text), w')
      /\ Run.disk w' !! "/repo/.changes/add-feature.md" = None.
Proof.
  split; [vm_compute; reflexivity|].
  assert (Hpaths : Fixture.globby_legacy (Run.disk Fixture.world0)
                     [Fixture.path_join Wiring.changeFolder "*.md"] ["**/readme.md"]
                     Fixture.repo
                   = [".changes/add-feature.md"]) by (vm_compute; reflexivity).
  destruct (status_run_deletes_change_files Fixture.path_join Fixture.path_join
              Fixture.globby_legacy Fixture.repo Fixture.probe_live Fixture.exit_zero
              unit Fixture.no_releases (fun _ _ _ => Ok []) Fixture.no_apply
              Fixture.no_changelogs Fixture.world0)
    as (text & w' & Hrun & Hgone & _).
  - vm_compute. reflexivity.
  - rewrite Hpaths. vm_compute. apply NoDup_cons. split; [|apply NoDup_nil; exact I].
    intros H. inversion H.
  - rewrite Hpaths. intros p Hp. apply list_elem_of_singleton in Hp. subst p.
    vm_compute. eauto.
  - exists text, w'. split; [exact Hrun|].
    apply (Hgone ".changes/add-feature.md"). rewrite Hpaths. left.
Defined.

(** ** Versions and blanks *)

Section StringFacts.

Lemma append_cons (c : ascii) (r s : string) :
  String c r +:+ s = String c (r +:+ s).
Proof. reflexivity. Qed.

Lemma append_nil_l (s : string) : EmptyString +:+ s = s.
Proof. reflexivity. Qed.

Lemma append_nil_r (s : string) : s +:+ EmptyString = s.
Proof.
  induction s as [|c r IH]; [reflexivity|]. rewrite append_cons, IH. reflexivity.
Qed.

Lemma append_assoc (a b c : string) : (a +:+ b) +:+ c = a +:+ (b +:+ c).
Proof.
  induction a as [|x r IH]; [reflexivity|]. rewrite !append_cons, IH. reflexivity.
Qed.

Lemma rev_onto_twice (s acc acc' : string) :
  Str.rev_onto (Str.rev_onto s acc) acc' = Str.rev_onto acc (s +:+ acc').
Proof.
  revert acc. induction s as [|c r IH]; intros acc; simpl; [reflexivity|].
  rewrite IH. rewrite append_cons. reflexivity.
Qed.

Lemma rev_involutive (s : string) : Str.rev (Str.rev s) = s.
Proof. unfold Str.rev. rewrite rev_onto_twice. simpl. apply append_nil_r. Qed.

Lemma forallb_rev_onto (p : ascii -> bool) (s acc : string) :
  Str.forallb p (Str.rev_onto s acc) = Str.forallb p s && Str.forallb p acc.
Proof.
  revert acc. induction s as [|c r IH]; intros acc; simpl; [reflexivity|].
  rewrite IH. simpl. destruct (p c), (Str.forallb p r); reflexivity.
Qed.

Lemma forallb_rev (p : ascii -> bool) (s : string) :
  Str.forallb p (Str.rev s) = Str.forallb p s.
Proof. unfold Str.rev. rewrite forallb_rev_onto. simpl. apply andb_true_r. Qed.

Lemma forallb_impl (p q : ascii -> bool) (s : string) :
  (forall c, p c = true -> q c = true) ->
  Str.forallb p s = true -> Str.forallb q s = true.
Proof.
  intros Hpq. induction s as [|c r IH]; simpl; [reflexivity|].
  intros H. apply andb_true_iff in H as [Hc Hr].
  rewrite (Hpq c Hc), (IH Hr). reflexivity.
Qed.

Lemma rev_length (s : string) : String.length (Str.rev s) = String.length s.
Proof.
  unfold Str.rev.
  assert (H : forall acc, String.length (Str.rev_onto s acc)
                          = (String.length s + String.length acc)%nat).
  { induction s as [|c r IH]; intros acc; simpl; [reflexivity|].
    rewrite IH. simpl. lia. }
  rewrite H. simpl. lia.
Qed.

(** No blank starts, and none ends, with a character versions are written
    with. *)
Lemma no_blank_before (c : ascii) (r : string) :
  Semver.version_char c = true -> Str.strip_any Str.whiteSpace (String c r) = None.
Proof.
  destruct c as [[] [] [] [] [] [] [] []]; intros H;
    try (vm_compute in H; discriminate H); reflexivity.
Qed.

Lemma no_blank_after (c : ascii) (r : string) :
  Semver.version_char c = true ->
  Str.strip_any (map Str.rev Str.whiteSpace) (String c r) = None.
Proof.
  destruct c as [[] [] [] [] [] [] [] []]; intros H;
    try (vm_compute in H; discriminate H); reflexivity.
Qed.

Lemma trim_version_chars (s : string) :
  Str.forallb Semver.version_char s = true -> Str.trim s = s.
Proof.
  intros H. unfold Str.trim.
  assert (Hstart : Str.trimStart s = s).
  { unfold Str.trimStart. destruct s as [|c r]; [reflexivity|].
    simpl in H. apply andb_true_iff in H as [Hc _].
    cbn [String.length Str.strip_all]. rewrite (no_blank_before c r Hc). reflexivity. }
  rewrite Hstart. unfold Str.trimEnd.
  assert (Hrev : Str.forallb Semver.version_char (Str.rev s) = true)
    by (rewrite forallb_rev; exact H).
  rewrite <- (rev_length s).
  destruct (Str.rev s) as [|c r] eqn:E.
  - simpl. rewrite <- (rev_involutive s), E. reflexivity.
  - simpl in Hrev. apply andb_true_iff in Hrev as [Hc _].
    cbn [String.length Str.strip_all]. rewrite (no_blank_after c r Hc).
    rewrite <- E. apply rev_involutive.
Qed.

Lemma cut_at_chars (p : ascii -> bool) (c : ascii) (s : string) :
  p c = true ->
  Str.forallb p (fst (Str.cut_at c s)) = true ->
  match snd (Str.cut_at c s) with
  | Some r => Str.forallb p r = true
  | None => True
  end ->
  Str.forallb p s = true.
Proof.
  intros Hc. induction s as [|a r IH]; simpl; [reflexivity|].
  destruct (Ascii.eqb_spec a c) as [->|Hne].
  - simpl. intros _ Hr. rewrite Hc, Hr. reflexivity.
  - destruct (Str.cut_at c r) as [h t]. simpl in *.
    intros Hh Ht. apply andb_true_iff in Hh as [Ha Hh].
    rewrite Ha, (IH Hh Ht). reflexivity.
Qed.

Lemma split_on_chars (p : ascii -> bool) (c : ascii) (s : string) :
  p c = true ->
  List.forallb (Str.forallb p) (Str.split_on c s) = true ->
  Str.forallb p s = true.
Proof.
  intros Hc. induction s as [|a r IH]; simpl; [reflexivity|].
  destruct (Ascii.eqb_spec a c) as [->|Hne].
  - simpl. intros Hr. rewrite Hc, (IH Hr). reflexivity.
  - destruct (Str.split_on c r) as [|h t]; simpl in *.
    + intros H. apply andb_true_iff in H as [H _].
      apply andb_true_iff in H as [Ha _]. rewrite Ha, IH; reflexivity.
    + intros H. apply andb_true_iff in H as [H Ht].
      apply andb_true_iff in H as [Ha Hh].
      rewrite Ha, IH; [reflexivity|]. rewrite Hh, Ht. reflexivity.
Qed.

Lemma ident_is_version_char (c : ascii) :
  Semver.is_ident_char c = true -> Semver.version_char c = true.
Proof. unfold Semver.version_char. intros ->. reflexivity. Qed.

Lemma digit_is_version_char (c : ascii) :
  Str.is_digit c = true -> Semver.version_char c = true.
Proof.
  unfold Semver.version_char, Semver.is_ident_char. intros ->. reflexivity.
Qed.

Lemma numeric_chars (s : string) :
  Semver.numeric_identifier s = true ->
  Str.forallb Semver.version_char s = true.
Proof.
  unfold Semver.numeric_identifier. destruct s as [|c r]; [discriminate|].
  intros H. apply andb_true_iff in H as [H _].
  revert H. apply forallb_impl. exact digit_is_version_char.
Qed.

Lemma prerelease_chars (s : string) :
  Semver.prerelease_identifier s = true ->
  Str.forallb Semver.version_char s = true.
Proof.
  unfold Semver.prerelease_identifier. intros H.
  apply andb_true_iff in H as [H _]. apply andb_true_iff in H as [_ H].
  revert H. apply forallb_impl. exact ident_is_version_char.
Qed.

Lemma build_chars (s : string) :
  Semver.build_identifier s = true ->
  Str.forallb Semver.version_char s = true.
Proof.
  unfold Semver.build_identifier. intros H. apply andb_true_iff in H as [_ H].
  revert H. apply forallb_impl. exact ident_is_version_char.
Qed.

Lemma list_forallb_impl {A} (p q : A -> bool) (l : list A) :
  (forall x, p x = true -> q x = true) ->
  List.forallb p l = true -> List.forallb q l = true.
Proof.
  intros Hpq. induction l as [|x r IH]; simpl; [reflexivity|].
  intros H. apply andb_true_iff in H as [Hx Hr].
  rewrite (Hpq x Hx), (IH Hr). reflexivity.
Qed.

(** Whatever matches the strict pattern is written with version characters
    only. *)
Lemma full_match_chars (s : string) :
  Semver.full_match s = true -> Str.forallb Semver.version_char s = true.
Proof.
  unfold Semver.full_match.
  assert (Hv : Str.forallb Semver.version_char (Semver.strip_v s) = true ->
               Str.forallb Semver.version_char s = true).
  { unfold Semver.strip_v. destruct s as [|c r]; [reflexivity|].
    destruct (Ascii.eqb_spec c "v"%char) as [->|_]; [|exact id].
    simpl. exact id. }
  intros H. apply Hv. clear Hv.
  destruct (Str.cut_at "+"%char (Semver.strip_v s)) as [core_pre build] eqn:Eb.
  destruct (Str.cut_at "-"%char core_pre) as [core pre] eqn:Ep.
  apply andb_true_iff in H as [H Hbuild]. apply andb_true_iff in H as [Hcore Hpre].
  apply (cut_at_chars _ "+"%char); [reflexivity| |]; rewrite Eb; simpl.
  - apply (cut_at_chars _ "-"%char); [reflexivity| |]; rewrite Ep; simpl.
    + apply (split_on_chars _ "."%char); [reflexivity|].
      destruct (Str.split_on "."%char core) as [|a [|b [|c [|? ?]]]]; try discriminate.
      repeat (apply andb_true_iff in Hcore as [Hcore ?]).
      simpl. rewrite !numeric_chars by assumption. reflexivity.
    + destruct pre as [pre|]; [|exact I].
      apply (split_on_chars _ "."%char); [reflexivity|].
      revert Hpre. apply list_forallb_impl. exact prerelease_chars.
  - destruct build as [build|]; [|exact I].
    apply (split_on_chars _ "."%char); [reflexivity|].
    revert Hbuild. apply list_forallb_impl. exact build_chars.
Qed.

Lemma valid_constructs (s : string) :
  Semver.valid s = true -> Semver.constructs s = true.
Proof. unfold Semver.valid. intros H. apply andb_true_iff in H as [_ H]. exact H. Qed.

(** A valid version has no blanks around it: trimming leaves it alone; and
    it is not empty. *)
Lemma valid_version (v : string) :
  Semver.valid v = true -> Str.trim v = v /\ v <> EmptyString.
Proof.
  unfold Semver.valid. intros H.
  apply andb_true_iff in H as [H _]. apply andb_true_iff in H as [_ Hmatch].
  split.
  - apply trim_version_chars, full_match_chars, Hmatch.
  - intros ->. vm_compute in Hmatch. discriminate Hmatch.
Qed.

End StringFacts.

(** ** The manifest adapter *)

Section AdapterFacts.

Variable TOML_parse : string -> result value.
Variable TOML_stringify : value -> result string.
Variable YAML_load : string -> result value.
Variable YAML_dump : value -> result string.

Local Abbreviation parsePkg := (Files.parsePkg TOML_parse YAML_load).
Local Abbreviation stringifyPkg := (Files.stringifyPkg TOML_stringify YAML_dump).

Lemma is_empty_spec (s : string) : Str.is_empty s = true <-> s = EmptyString.
Proof. destruct s; simpl; split; congruence. Qed.

Lemma is_empty_false (s : string) : Str.is_empty s = false <-> s <> EmptyString.
Proof. destruct s; simpl; split; congruence. Qed.

Lemma not_structured (ext : string) :
  Files.is_structured ext = false ->
  String.eqb ext ".toml" = false /\ String.eqb ext ".json" = false
  /\ Files.is_yaml ext = false.
Proof.
  unfold Files.is_structured. intros H.
  apply orb_false_iff in H as [H Hy]. apply orb_false_iff in H as [Ht Hj]. auto.
Qed.

Lemma component_valid (i : nat) (s : string) :
  Semver.constructs s = true ->
  Semver.component i s
  = Ok (Str.digits_value 0 (nth i (Semver.core s) EmptyString)).
Proof. unfold Semver.component. intros ->. reflexivity. Qed.

(** What [parsePkg] does with a file in none of the structured
    encodings. *)
Lemma parsePkg_bare (f : Files.File) :
  Files.is_structured (Files.extname f) = false ->
  parsePkg f
  = if Str.is_empty (Files.content f)
    then Throw (Error (Files.path f +:+ " does not have any content"))
    else if Semver.valid (Str.trim (Files.content f))
    then Ok {| Files.version := VStr (Str.trim (Files.content f));
               Files.versionMajor :=
                 Str.digits_value 0
                   (nth 0 (Semver.core (Str.trim (Files.content f))) EmptyString);
               Files.versionMinor :=
                 Str.digits_value 0
                   (nth 1 (Semver.core (Str.trim (Files.content f))) EmptyString);
               Files.versionPatch :=
                 Str.digits_value 0
                   (nth 2 (Semver.core (Str.trim (Files.content f))) EmptyString);
               Files.versionPrerelease := VUndefined;
               Files.deps := VObj [];
               Files.pkg :=
                 VObj [("name", VStr EmptyString);
                       ("version", VStr (Str.trim (Files.content f)))] |}
    else Throw (Error "not valid version").
Proof.
  intros Hext. apply not_structured in Hext as (Ht & Hj & Hy).
  unfold Files.parsePkg. rewrite Ht, Hj, Hy.
  destruct (Str.is_empty (Files.content f)); [reflexivity|].
  destruct (Semver.valid (Str.trim (Files.content f))) eqn:Hv; simpl; [|reflexivity].
  unfold Semver.major, Semver.minor, Semver.patch.
  rewrite !component_valid by (apply valid_constructs; exact Hv). reflexivity.
Qed.

(** C7, as the code has it: a file whose extension is none of the
    structured ones and whose body is empty is refused for having no
    content; with a body that is not empty, [parsePkg] throws "not valid
    version" exactly when the trimmed body is not a valid version, and
    otherwise returns the trimmed body as the version. *)
Theorem bare_version_file (f : Files.File) :
  Files.is_structured (Files.extname f) = false ->
  (Files.content f = EmptyString ->
     parsePkg f = Throw (Error (Files.path f +:+ " does not have any content")))
  /\ (Files.content f <> EmptyString ->
      (parsePkg f = Throw (Error "not valid version")
       <-> Semver.valid (Str.trim (Files.content f)) = false)
      /\ (Semver.valid (Str.trim (Files.content f)) = true ->
          exists parsed,
            parsePkg f = Ok parsed
            /\ Files.version parsed = VStr (Str.trim (Files.content f))
            /\ Files.pkg parsed
               = VObj [("name", VStr EmptyString);
                       ("version", VStr (Str.trim (Files.content f)))])).
Proof.
  intros Hext. rewrite (parsePkg_bare f Hext). split.
  - intros ->. reflexivity.
  - intros Hne. apply is_empty_false in Hne. rewrite Hne.
    destruct (Semver.valid (Str.trim (Files.content f))).
    + split; [split; discriminate|].
      intros _. eexists. split; [reflexivity|]. split; reflexivity.
    + split; [split; reflexivity|discriminate].
Qed.

Lemma obj_has_false (k : string) (m : list (string * value)) :
  Js.obj_has k m = false -> Js.obj_get k m = VUndefined.
Proof.
  induction m as [|[k' x] r IH]; simpl; [reflexivity|].
  intros H. apply orb_false_iff in H as [-> H]. auto.
Qed.

Lemma str_nth_not_object (s : string) (n : nat) (members : list (string * value)) :
  Js.str_nth n s <> VObj members.
Proof.
  revert n. induction s as [|c r IH]; intros [|n]; simpl; try discriminate.
  apply IH.
Qed.

(** Only an object or an array hands out an object. *)
Lemma get_object_truthy (x : value) (k : string) (members : list (string * value)) :
  Js.get x k = Ok (VObj members) -> Js.truthy x = true.
Proof.
  destruct x; simpl; try discriminate; try reflexivity.
  unfold Js.str_get. destruct (String.eqb k "length"); [discriminate|].
  destruct (Js.array_index k); [|discriminate].
  intros [= H]. exfalso. exact (str_nth_not_object _ _ _ H).
Qed.

(** Something truthy is only found on something truthy. *)
Lemma get_truthy (x : value) (k : string) (t : value) :
  Js.get x k = Ok t -> Js.truthy t = true -> Js.truthy x = true.
Proof.
  intros Hget Ht.
  destruct x as [| |b|m e|s|items|members]; simpl in *;
    try discriminate; try reflexivity.
  - injection Hget as <-. simpl in Ht. discriminate.
  - injection Hget as <-. simpl in Ht. discriminate.
  - destruct s as [|c r]; [|reflexivity]. injection Hget as <-.
    unfold Js.str_get in Ht.
    destruct (String.eqb k "length"); [vm_compute in Ht; discriminate Ht|].
    destruct (Js.array_index k) as [[|n]|]; simpl in Ht; discriminate Ht.
Qed.

(** C6, as the code has it: for a package file that carries its file, a
    recognized dependency table and a dependency name that is not empty,
    asking for the dependency's version when its entry is an object without
    a [version] property throws the error that names the package and the
    dependency. *)
Theorem unpinned_dependency_is_an_error
  (p : Files.PackageFile) (f : Files.File) (property dep : string)
  (table : value) (members : list (string * value)) :
  Files.file p = Some f ->
  property ∈ Files.depTypes ->
  dep <> EmptyString ->
  Js.get (Files.pkg (Files.minimum p)) property = Ok table ->
  Js.get table dep = Ok (VObj members) ->
  Js.obj_has "version" members = false ->
  Files.getPackageFileVersion p property (Some dep)
  = Throw (Files.unpinned (Files.name p) (Files.dependency_word property) dep).
Proof.
  intros Hfile Hprop Hdep Htable Hentry Hnone.
  assert (Htruthy : Js.truthy table = true)
    by (eapply get_object_truthy; exact Hentry).
  assert (Hpkg : Js.truthy (Files.pkg (Files.minimum p)) = true)
    by (eapply get_truthy; [exact Htable|exact Htruthy]).
  unfold Files.getPackageFileVersion, Files.present. rewrite Hfile, Hpkg.
  assert (Hget : Files.getDependencyVersion p property (Files.dependency_word property)
                   (Some dep)
                 = Throw (Files.unpinned (Files.name p)
                            (Files.dependency_word property) dep)).
  { unfold Files.getDependencyVersion. rewrite Htable. simpl.
    apply is_empty_false in Hdep. rewrite Hdep, Htruthy. simpl.
    rewrite Hentry. simpl. rewrite (obj_has_false _ _ Hnone). reflexivity. }
  unfold Files.depTypes in Hprop.
  repeat (apply elem_of_cons in Hprop as [-> | Hprop]); [exact Hget..|].
  inversion Hprop.
Qed.

End AdapterFacts.

(** Witness for [bare_version_file]: the [VERSION] file of the test
    fixture. *)
Lemma bare_version_file_witness :
  Files.is_structured (Files.extname Fixture.version_file) = false
  /\ Files.content Fixture.version_file <> EmptyString
  /\ Semver.valid (Str.trim (Files.content Fixture.version_file)) = true
  /\ exists parsed,
      Fixture.parse Fixture.version_file = Ok parsed
      /\ Files.version parsed = VStr "6.1.0".
Proof.
  split; [reflexivity|]. split; [discriminate|]. split; [vm_compute; reflexivity|].
  destruct (proj2 (bare_version_file Fixture.no_parser Fixture.no_parser
                     Fixture.version_file eq_refl) ltac:(discriminate))
    as [_ H].
  destruct (H ltac:(vm_compute; reflexivity)) as (parsed & Hp & Hv & _).
  exists parsed. split; [exact Hp|]. rewrite Hv. vm_compute. reflexivity.
Defined.

(** C7 fails as stated: the body of an empty file is not a valid version,
    and the error is not the one for an invalid version but the one for a
    file without content. *)
Lemma empty_version_file_has_its_own_error :
  Files.is_structured (Files.extname Fixture.empty_version_file) = false
  /\ Semver.valid (Str.trim (Files.content Fixture.empty_version_file)) = false
  /\ Fixture.parse Fixture.empty_version_file
     = Throw (Error "VERSION does not have any content")
  /\ Fixture.parse Fixture.empty_version_file <> Throw (Error "not valid version").
Proof. repeat split; try (vm_compute; reflexivity). vm_compute. discriminate. Qed.

(** Witness for [unpinned_dependency_is_an_error]: a development dependency
    given by a path only. *)
Lemma unpinned_dependency_is_an_error_witness :
  Fixture.parse Fixture.unpinned_dep_json
  = Ok (Fixture.parsed_or_empty Fixture.unpinned_dep_json)
  /\ Files.getPackageFileVersion
       (Files.loaded Fixture.unpinned_dep_json "app"
          (Fixture.parsed_or_empty Fixture.unpinned_dep_json))
       "devDependencies" (Some "left-pad")
     = Throw (Error ("app has a devDependency on left-pad, and left-pad does not have a version number. "
                     +:+ "This cannot be published. "
                     +:+ "Please pin it to a MAJOR.MINOR.PATCH reference.")).
Proof.
  split; [vm_compute; reflexivity|].
  exact (unpinned_dependency_is_an_error
           (Files.loaded Fixture.unpinned_dep_json "app"
              (Fixture.parsed_or_empty Fixture.unpinned_dep_json))
           Fixture.unpinned_dep_json "devDependencies" "left-pad"
           (VObj [("left-pad", VObj [("path", VStr "../left-pad")])])
           [("path", VStr "../left-pad")]
           eq_refl ltac:(vm_compute; set_solver) ltac:(discriminate)
           ltac:(vm_compute; reflexivity) eq_refl eq_refl).
Defined.

(** C6 fails as stated: when the dependency's name is the empty string, its
    entry may be an object without a version and the getter still returns
    the empty string, without an error. *)
Lemma nameless_dependency_is_skipped :
  Fixture.parse Fixture.nameless_dep_json
  = Ok (Fixture.parsed_or_empty Fixture.nameless_dep_json)
  /\ Js.get (Files.pkg (Fixture.parsed_or_empty Fixture.nameless_dep_json)) "dependencies"
     = Ok (VObj [(EmptyString, VObj [])])
  /\ Files.getPackageFileVersion
       (Files.loaded Fixture.nameless_dep_json "app"
          (Fixture.parsed_or_empty Fixture.nameless_dep_json))
       "dependencies" (Some EmptyString)
     = Ok (VStr EmptyString).
Proof. repeat split; vm_compute; reflexivity. Qed.

(** ** Objects and their properties *)

Section ObjectFacts.

Lemma bind_ok {A B} (m : result A) (f : A -> result B) (b : B) :
  m ≫= f = Ok b -> exists a, m = Ok a /\ f a = Ok b.
Proof. destruct m as [a|e]; simpl; [eauto|discriminate]. Qed.

Lemma on_value_ok {A} (f : string -> result A) (x : value) (a : A) :
  Semver.on_value f x = Ok a -> exists s, x = VStr s /\ f s = Ok a.
Proof. destruct x; simpl; try discriminate. eauto. Qed.

(** A property whose name is neither an index nor [length], and whose
    value is not [undefined], is an own property of an ordinary object. *)
Lemma get_named (x : value) (k : string) (r : value) :
  String.eqb k "length" = false ->
  Js.array_index k = None ->
  Js.get x k = Ok r ->
  r <> VUndefined ->
  exists m, x = VObj m /\ Js.obj_get k m = r.
Proof.
  intros Hlen Hidx Hget Hr.
  destruct x as [| |b|m e|s|items|members]; simpl in Hget;
    try discriminate Hget; injection Hget as Hget.
  - congruence.
  - congruence.
  - unfold Js.str_get in Hget. rewrite Hlen, Hidx in Hget. congruence.
  - unfold Js.arr_get in Hget. rewrite Hlen, Hidx in Hget. congruence.
  - eauto.
Qed.

Lemma obj_get_has (k : string) (m : list (string * value)) :
  Js.obj_get k m <> VUndefined -> Js.obj_has k m = true.
Proof.
  induction m as [|[k' x] r IH]; simpl; [congruence|].
  destruct (String.eqb k' k); [reflexivity|exact IH].
Qed.

Lemma obj_get_replace (k : string) (v : value) (m : list (string * value)) :
  Js.obj_has k m = true -> Js.obj_get k (Js.obj_replace k v m) = v.
Proof.
  induction m as [|[k' x] r IH]; simpl; [discriminate|].
  destruct (String.eqb k' k) eqn:E; simpl; rewrite E; [reflexivity|exact IH].
Qed.

Lemma obj_get_replace_ne (j k : string) (v : value) (m : list (string * value)) :
  j <> k -> Js.obj_get j (Js.obj_replace k v m) = Js.obj_get j m.
Proof.
  intros Hne. induction m as [|[k' x] r IH]; simpl; [reflexivity|].
  destruct (String.eqb k' k) eqn:E; simpl.
  - apply String.eqb_eq in E. subst k'.
    destruct (String.eqb k j) eqn:E'; [|reflexivity].
    apply String.eqb_eq in E'. congruence.
  - rewrite IH. reflexivity.
Qed.

Lemma keys_replace (k : string) (v : value) (m : list (string * value)) :
  map fst (Js.obj_replace k v m) = map fst m.
Proof.
  induction m as [|[k' x] r IH]; simpl; [reflexivity|].
  destruct (String.eqb k' k); simpl; [reflexivity|]. rewrite IH. reflexivity.
Qed.

Lemma obj_set_present (k : string) (v : value) (m : list (string * value)) :
  Js.obj_has k m = true -> Js.obj_set k v m = Js.obj_replace k v m.
Proof. unfold Js.obj_set. intros ->. reflexivity. Qed.

(** Replacing the value under [k] touches nothing else. *)
Lemma replace_same_except (k : string) (v : value) (m : list (string * value)) :
  Files.same_except k (VObj m) (VObj (Js.obj_replace k v m)).
Proof.
  exists m, (Js.obj_replace k v m). repeat split.
  - apply keys_replace.
  - intros j Hj. apply obj_get_replace_ne. exact Hj.
Qed.

(** Where the value under [k] sits: after a run of other keys. *)
Lemma obj_split (k : string) (m : list (string * value)) :
  Js.obj_has k m = true ->
  exists m1 m2,
    m = m1 ++ (k, Js.obj_get k m) :: m2
    /\ forall v, Js.obj_replace k v m = m1 ++ (k, v) :: m2.
Proof.
  induction m as [|[k' x] r IH]; simpl; [discriminate|].
  destruct (String.eqb k' k) eqn:E.
  - apply String.eqb_eq in E. subst k'. intros _. exists [], r. split; reflexivity.
  - simpl. intros H. destruct (IH H) as (m1 & m2 & Hm & Hrep).
    exists ((k', x) :: m1), m2. split.
    + simpl. rewrite <- Hm. reflexivity.
    + intros v. simpl. rewrite Hrep. reflexivity.
Qed.

Lemma foldM_ext {A B} (f g : A -> B -> result A) (l : list B) :
  (forall acc b, b ∈ l -> f acc b = g acc b) ->
  forall acc, Files.foldM f acc l = Files.foldM g acc l.
Proof.
  induction l as [|b r IH]; intros Hfg acc; simpl; [reflexivity|].
  rewrite Hfg by left. destruct (g acc b) as [acc'|e]; simpl; [|reflexivity].
  apply IH. intros acc0 b0 Hb0. apply Hfg. right. exact Hb0.
Qed.

(** [keyDeps] looks at a document through its three dependency tables
    only. *)
Lemma keyDeps_ext (d d' : value) :
  (forall t, t ∈ Files.depTypes -> Js.get d' t = Js.get d t) ->
  Files.keyDeps d' = Files.keyDeps d.
Proof.
  intros H. unfold Files.keyDeps.
  rewrite (foldM_ext (Files.keyDeps_type d') (Files.keyDeps_type d)); [reflexivity|].
  intros acc t Ht. unfold Files.keyDeps_type. rewrite (H t Ht). reflexivity.
Qed.

Lemma keyDeps_replace (k : string) (v : value) (m : list (string * value)) :
  k ∉ Files.depTypes ->
  Files.keyDeps (VObj (Js.obj_replace k v m)) = Files.keyDeps (VObj m).
Proof.
  intros Hk. apply keyDeps_ext. intros t Ht. simpl.
  rewrite obj_get_replace_ne; [reflexivity|]. intros ->. exact (Hk Ht).
Qed.

Lemma prerelease_valid (s : string) :
  Semver.constructs s = true -> exists x, Semver.prerelease s = Ok x.
Proof.
  unfold Semver.prerelease. intros ->.
  destruct (snd _); eauto.
Qed.

Lemma json_text_not_empty (doc : value) : Files.json_text doc <> EmptyString.
Proof.
  unfold Files.json_text. destruct (Files.template _) as [|c r].
  - vm_compute. discriminate.
  - rewrite append_cons. discriminate.
Qed.

End ObjectFacts.

(** ** Loading, setting the version, writing, loading again *)

Section RoundTrip.

Variable TOML_parse : string -> result value.
Variable TOML_stringify : value -> result string.
Variable YAML_load : string -> result value.
Variable YAML_dump : value -> result string.

Local Abbreviation parsePkg := (Files.parsePkg TOML_parse YAML_load).
Local Abbreviation stringifyPkg := (Files.stringifyPkg TOML_stringify YAML_dump).
Local Abbreviation reads_back :=
  (Files.reads_back TOML_parse TOML_stringify YAML_load YAML_dump).

Lemma version_is_no_table : "version" ∉ Files.depTypes.
Proof.
  unfold Files.depTypes. intros H.
  repeat (apply elem_of_cons in H as [H|H]; [discriminate H|]). inversion H.
Qed.

Lemma package_is_no_table : "package" ∉ Files.depTypes.
Proof.
  unfold Files.depTypes. intros H.
  repeat (apply elem_of_cons in H as [H|H]; [discriminate H|]). inversion H.
Qed.

Lemma toml_is_not_json (ext : string) :
  String.eqb ext ".toml" = true -> String.eqb ext ".json" = false.
Proof. intros H. apply String.eqb_eq in H. subst ext. reflexivity. Qed.

(** *** What a loaded manifest looks like *)

Lemma loaded_json (f : Files.File) (parsed : Files.PkgMinimum) :
  String.eqb (Files.extname f) ".toml" = false ->
  String.eqb (Files.extname f) ".json" = true ->
  parsePkg f = Ok parsed ->
  exists m old,
    Files.pkg parsed = VObj m
    /\ Js.obj_get "version" m = VStr old
    /\ Files.keyDeps (VObj m) = Ok (Files.deps parsed).
Proof.
  intros Et Ej H. unfold Files.parsePkg in H.
  destruct (Str.is_empty (Files.content f)); [discriminate H|].
  rewrite Et, Ej in H.
  apply bind_ok in H as (doc & _ & H).
  apply bind_ok in H as (ver & Hver & H).
  apply bind_ok in H as (major & Hmajor & H).
  apply bind_ok in H as (minor & _ & H).
  apply bind_ok in H as (patch & _ & H).
  apply bind_ok in H as (pre & _ & H).
  apply bind_ok in H as (keyed & Hkeyed & H).
  injection H as <-. simpl.
  apply on_value_ok in Hmajor as (old & -> & _).
  apply get_named in Hver as (m & -> & Hm); [|reflexivity|reflexivity|discriminate].
  exists m, old. auto.
Qed.

Lemma loaded_toml (f : Files.File) (parsed : Files.PkgMinimum) :
  String.eqb (Files.extname f) ".toml" = true ->
  parsePkg f = Ok parsed ->
  exists m package old,
    Files.pkg parsed = VObj m
    /\ Js.obj_get "package" m = VObj package
    /\ Js.obj_get "version" package = VStr old
    /\ Files.keyDeps (VObj m) = Ok (Files.deps parsed).
Proof.
  intros Et H. unfold Files.parsePkg in H.
  destruct (Str.is_empty (Files.content f)); [discriminate H|].
  rewrite Et in H.
  apply bind_ok in H as (doc & _ & H).
  apply bind_ok in H as (package & Hpackage & H).
  apply bind_ok in H as (ver & Hver & H).
  apply bind_ok in H as (major & Hmajor & H).
  apply bind_ok in H as (minor & _ & H).
  apply bind_ok in H as (patch & _ & H).
  apply bind_ok in H as (pre & _ & H).
  apply bind_ok in H as (keyed & Hkeyed & H).
  injection H as <-. simpl.
  apply on_value_ok in Hmajor as (old & -> & _).
  apply get_named in Hver as (pk & -> & Hpk); [|reflexivity|reflexivity|discriminate].
  apply get_named in Hpackage as (m & -> & Hm); [|reflexivity|reflexivity|discriminate].
  exists m, pk, old. auto.
Qed.

Lemma loaded_yaml (f : Files.File) (parsed : Files.PkgMinimum) :
  String.eqb (Files.extname f) ".toml" = false ->
  String.eqb (Files.extname f) ".json" = false ->
  Files.is_yaml (Files.extname f) = true ->
  parsePkg f = Ok parsed ->
  exists m old,
    Files.pkg parsed = VObj m
    /\ Js.obj_get "version" m = VStr old
    /\ Js.truthy (Js.obj_get "name" m) = true
    /\ Files.keyDeps (VObj m) = Ok (Files.deps parsed).
Proof.
  intros Et Ej Ey H. unfold Files.parsePkg in H.
  destruct (Str.is_empty (Files.content f)); [discriminate H|].
  rewrite Et, Ej, Ey in H.
  apply bind_ok in H as (doc & _ & H).
  assert (Hdoc : exists nm ver,
             Js.get doc "name" = Ok nm /\ Js.get doc "version" = Ok ver
             /\ Js.truthy doc && (negb (Js.truthy nm) || negb (Js.truthy ver)) = false
             /\ exists major,
                 Semver.on_value Semver.major ver = Ok major
                 /\ Files.keyDeps doc = Ok (Files.deps parsed)
                 /\ Files.pkg parsed = doc).
  { destruct doc; try discriminate H;
      apply bind_ok in H as (nm & Hnm & H);
      apply bind_ok in H as (ver & Hver & H);
      (destruct (Js.truthy _ && _) eqn:Hcheck in H; [discriminate H|]);
      apply bind_ok in H as (major & Hmajor & H);
      apply bind_ok in H as (minor & _ & H);
      apply bind_ok in H as (patch & _ & H);
      apply bind_ok in H as (keyed & Hkeyed & H);
      injection H as <-; eauto 10. }
  clear H. destruct Hdoc as (nm & ver & Hnm & Hver & Hcheck & major & Hmajor & Hkeyed & Hpkg).
  apply on_value_ok in Hmajor as (old & -> & _).
  apply get_named in Hver as (m & -> & Hm); [|reflexivity|reflexivity|discriminate].
  exists m, old. repeat split; auto.
  simpl in Hnm. injection Hnm as <-. simpl in Hcheck.
  apply orb_false_iff in Hcheck as [Hname _].
  apply negb_false_iff in Hname. exact Hname.
Qed.

(** *** Loading what has been written *)

Lemma semver_fields (v : string) :
  Semver.constructs v = true ->
  exists major minor patch pre,
    Semver.on_value Semver.major (VStr v) = Ok major
    /\ Semver.on_value Semver.minor (VStr v) = Ok minor
    /\ Semver.on_value Semver.patch (VStr v) = Ok patch
    /\ Semver.on_value Semver.prerelease (VStr v) = Ok pre.
Proof.
  intros Hv. destruct (prerelease_valid v Hv) as [pre Hpre].
  simpl. unfold Semver.major, Semver.minor, Semver.patch.
  rewrite !component_valid by exact Hv. eauto 8.
Qed.

Lemma reload_json (f : Files.File) (text v : string) (m : list (string * value))
  (keyed : value) :
  String.eqb (Files.extname f) ".toml" = false ->
  String.eqb (Files.extname f) ".json" = true ->
  text <> EmptyString ->
  Files.JSON_parse text = Ok (VObj m) ->
  Js.obj_get "version" m = VStr v ->
  Semver.constructs v = true ->
  Files.keyDeps (VObj m) = Ok keyed ->
  exists parsed,
    parsePkg (Files.with_content f text) = Ok parsed
    /\ Files.version parsed = VStr v /\ Files.pkg parsed = VObj m.
Proof.
  intros Et Ej Htext Hparse Hver Hv Hkeyed.
  destruct (semver_fields v Hv) as (major & minor & patch & pre & H1 & H2 & H3 & H4).
  unfold Files.parsePkg. cbn [Files.with_content Files.content Files.extname].
  apply is_empty_false in Htext. rewrite Htext, Et, Ej, Hparse.
  cbn [mbind result_bind Js.get]. rewrite Hver, H1.
  cbn [mbind result_bind]. rewrite H2. cbn [mbind result_bind]. rewrite H3.
  cbn [mbind result_bind]. rewrite H4. cbn [mbind result_bind]. rewrite Hkeyed.
  cbn [mbind result_bind]. eexists. split; [reflexivity|]. split; reflexivity.
Qed.

Lemma reload_toml (f : Files.File) (text v : string) (m package : list (string * value))
  (keyed : value) :
  String.eqb (Files.extname f) ".toml" = true ->
  text <> EmptyString ->
  TOML_parse text = Ok (VObj m) ->
  Js.obj_get "package" m = VObj package ->
  Js.obj_get "version" package = VStr v ->
  Semver.constructs v = true ->
  Files.keyDeps (VObj m) = Ok keyed ->
  exists parsed,
    parsePkg (Files.with_content f text) = Ok parsed
    /\ Files.version parsed = VStr v /\ Files.pkg parsed = VObj m.
Proof.
  intros Et Htext Hparse Hpackage Hver Hv Hkeyed.
  destruct (semver_fields v Hv) as (major & minor & patch & pre & H1 & H2 & H3 & H4).
  unfold Files.parsePkg. cbn [Files.with_content Files.content Files.extname].
  apply is_empty_false in Htext. rewrite Htext, Et, Hparse.
  cbn [mbind result_bind Js.get]. rewrite Hpackage.
  cbn [mbind result_bind Js.get]. rewrite Hver, H1.
  cbn [mbind result_bind]. rewrite H2. cbn [mbind result_bind]. rewrite H3.
  cbn [mbind result_bind]. rewrite H4. cbn [mbind result_bind]. rewrite Hkeyed.
  cbn [mbind result_bind]. eexists. split; [reflexivity|]. split; reflexivity.
Qed.

Lemma reload_yaml (f : Files.File) (text v : string) (m : list (string * value))
  (keyed : value) :
  String.eqb (Files.extname f) ".toml" = false ->
  String.eqb (Files.extname f) ".json" = false ->
  Files.is_yaml (Files.extname f) = true ->
  text <> EmptyString ->
  YAML_load text = Ok (VObj m) ->
  Js.truthy (Js.obj_get "name" m) = true ->
  Js.obj_get "version" m = VStr v ->
  v <> EmptyString ->
  Semver.constructs v = true ->
  Files.keyDeps (VObj m) = Ok keyed ->
  exists parsed,
    parsePkg (Files.with_content f text) = Ok parsed
    /\ Files.version parsed = VStr v /\ Files.pkg parsed = VObj m.
Proof.
  intros Et Ej Ey Htext Hparse Hname Hver Hne Hv Hkeyed.
  destruct (semver_fields v Hv) as (major & minor & patch & pre & H1 & H2 & H3 & H4).
  unfold Files.parsePkg. cbn [Files.with_content Files.content Files.extname].
  apply is_empty_false in Htext. rewrite Htext, Et, Ej, Ey, Hparse.
  cbn [mbind result_bind Js.get Js.truthy]. rewrite Hver, Hname.
  apply is_empty_false in Hne. cbn [Js.truthy]. rewrite Hne.
  cbn [negb orb andb]. rewrite H1.
  cbn [mbind result_bind]. rewrite H2. cbn [mbind result_bind]. rewrite H3.
  cbn [mbind result_bind]. rewrite Hkeyed.
  cbn [mbind result_bind]. eexists. split; [reflexivity|]. split; reflexivity.
Qed.

(** *** The setter and the getter on a loaded manifest *)

Lemma set_version_flat (p : Files.PackageFile) (f : Files.File) (v : string)
  (m : list (string * value)) :
  Files.file p = Some f ->
  String.eqb (Files.extname f) ".toml" = false ->
  Files.pkg (Files.minimum p) = VObj m ->
  Js.obj_has "version" m = true ->
  Files.setPackageFileVersion p v "version" None
  = Ok (Files.with_pkg p (VObj (Js.obj_replace "version" (VStr v) m))).
Proof.
  intros Hfile Et Hpkg Hhas.
  unfold Files.setPackageFileVersion, Files.present, Files.file_ext.
  rewrite Hfile, Hpkg, Et. cbn [Js.truthy Js.set mbind result_bind].
  rewrite (obj_set_present _ _ _ Hhas).
  change (String.eqb "version" "version") with true. cbv iota.
  destruct (String.eqb (Files.extname f) ".json"); reflexivity.
Qed.

Lemma set_version_toml (p : Files.PackageFile) (f : Files.File) (v : string)
  (m package : list (string * value)) :
  Files.file p = Some f ->
  String.eqb (Files.extname f) ".toml" = true ->
  Files.pkg (Files.minimum p) = VObj m ->
  Js.obj_get "package" m = VObj package ->
  Js.obj_has "version" package = true ->
  Files.setPackageFileVersion p v "version" None
  = Ok (Files.with_pkg p
          (VObj (Js.obj_replace "package"
                   (VObj (Js.obj_replace "version" (VStr v) package)) m))).
Proof.
  intros Hfile Et Hpkg Hpackage Hhas.
  unfold Files.setPackageFileVersion, Files.present, Files.file_ext.
  rewrite Hfile, Hpkg, Et, (toml_is_not_json _ Et).
  cbn [Js.truthy Js.set Js.get mbind result_bind].
  change (String.eqb "version" "version") with true. cbv iota.
  rewrite Hpackage. cbn [Js.set mbind result_bind].
  rewrite (obj_set_present _ _ _ Hhas).
  rewrite obj_set_present; [reflexivity|].
  apply obj_get_has. rewrite Hpackage. discriminate.
Qed.

Lemma get_version_flat (p : Files.PackageFile) (f : Files.File)
  (m : list (string * value)) :
  Files.file p = Some f ->
  String.eqb (Files.extname f) ".toml" = false ->
  Files.pkg (Files.minimum p) = VObj m ->
  Files.getPackageFileVersion p "version" None = Ok (Js.obj_get "version" m).
Proof.
  intros Hfile Et Hpkg.
  unfold Files.getPackageFileVersion, Files.present, Files.file_ext.
  rewrite Hfile, Hpkg, Et. cbn [Js.truthy Js.get].
  change (String.eqb "version" "version") with true. cbv iota.
  destruct (String.eqb (Files.extname f) ".json"); reflexivity.
Qed.

Lemma get_version_toml (p : Files.PackageFile) (f : Files.File)
  (m package : list (string * value)) :
  Files.file p = Some f ->
  String.eqb (Files.extname f) ".toml" = true ->
  Files.pkg (Files.minimum p) = VObj m ->
  Js.obj_get "package" m = VObj package ->
  Files.getPackageFileVersion p "version" None = Ok (Js.obj_get "version" package).
Proof.
  intros Hfile Et Hpkg Hpackage.
  unfold Files.getPackageFileVersion, Files.present, Files.file_ext.
  rewrite Hfile, Hpkg, Et, (toml_is_not_json _ Et).
  cbn [Js.truthy Js.get mbind result_bind].
  change (String.eqb "version" "version") with true. cbv iota.
  rewrite Hpackage. reflexivity.
Qed.

(** *** The text of a JSON manifest around its version *)

Lemma join_middle (sep : string) (A B : list string) :
  exists P Q, forall x, Str.join sep (A ++ x :: B) = P +:+ x +:+ Q.
Proof.
  induction A as [|a A' IH].
  - destruct B as [|b B'].
    + exists EmptyString, EmptyString. intros x. simpl.
      rewrite append_nil_r. reflexivity.
    + exists EmptyString, (sep +:+ Str.join sep (b :: B')). intros x. reflexivity.
  - destruct IH as (P & Q & IH).
    exists (a +:+ sep +:+ P), Q. intros x.
    assert (Hcons : forall l, l <> [] -> Str.join sep (a :: l) = a +:+ sep +:+ Str.join sep l).
    { intros [|y l] Hl; [congruence|reflexivity]. }
    change ((a :: A') ++ x :: B) with (a :: (A' ++ x :: B)).
    rewrite Hcons by (destruct A'; discriminate).
    rewrite IH, !append_assoc. reflexivity.
Qed.

Lemma json_version_framed (m : list (string * value)) (old v : string) :
  Js.obj_get "version" m = VStr old ->
  Files.framed (Files.json_text (VObj m))
    (Files.json_text (VObj (Js.obj_replace "version" (VStr v) m)))
    (Js.quote old) (Js.quote v).
Proof.
  intros Hold.
  assert (Hhas : Js.obj_has "version" m = true)
    by (apply obj_get_has; rewrite Hold; discriminate).
  destruct (obj_split "version" m Hhas) as (m1 & m2 & Hm & Hrep).
  rewrite Hrep, Hm at 1. rewrite Hold.
  unfold Files.json_text, Js.JSON_stringify, Files.template.
  cbn [Js.ser default]. rewrite !flat_map_app. cbn [flat_map Js.ser].
  set (F := fun kv : string * value =>
              match kv with
              | (k, y) =>
                  match Js.ser "  " (EmptyString +:+ "  ") y with
                  | Some t => [Js.member "  " k t]
                  | None => []
                  end
              end).
  destruct (join_middle ("," +:+ Js.nl +:+ (EmptyString +:+ "  "))
              (flat_map F m1) (flat_map F m2)) as (P & Q & Hjoin).
  assert (Hwrap : forall a,
             Js.wrap "  " "{" "}" EmptyString
               (flat_map F m1 ++ (Js.member "  " "version" (Js.quote a) :: []) ++ flat_map F m2)
             +:+ Js.nl
             = ("{" +:+ Js.nl +:+ (EmptyString +:+ "  ") +:+ P
                +:+ Js.quote "version" +:+ Js.colon "  ")
               +:+ Js.quote a
               +:+ (Q +:+ Js.nl +:+ EmptyString +:+ "}" +:+ Js.nl)).
  { intros a. unfold Js.wrap.
    destruct (flat_map F m1 ++ (Js.member "  " "version" (Js.quote a) :: []) ++ flat_map F m2)
      as [|part parts] eqn:E.
    - destruct (flat_map F m1); discriminate E.
    - rewrite <- E. change (Str.is_empty "  ") with false. cbv iota.
      change ((Js.member "  " "version" (Js.quote a) :: []) ++ flat_map F m2)
        with (Js.member "  " "version" (Js.quote a) :: flat_map F m2).
      rewrite Hjoin. unfold Js.member. rewrite !append_assoc. reflexivity. }
  eexists _, _. split; apply Hwrap.
Qed.


(** C1, as the code has it: for every loaded manifest, setting the version
    changes, in the parsed document, the value under [version] (under
    [package], then [version], for TOML), which becomes the new version, and
    nothing else: the keys stay in their order and every other value is the
    one it was.  For a JSON manifest the text written is the two-space
    rendering of the document, and it is the two-space rendering of the
    document as loaded with the version literal replaced and the same bytes
    before and after it; so it is the original file with the version
    literal replaced whenever the original file was in that rendering and
    its numbers are such that the program writes them back digit for
    digit ([Js.exact_numbers]). *)
Theorem set_version_touches_the_version_only
  (f : Files.File) (nickname : string) (parsed : Files.PkgMinimum) (v : string) :
  parsePkg f = Ok parsed ->
  exists p',
    Files.setPackageFileVersion (Files.loaded f nickname parsed) v "version" None = Ok p'
    /\ Files.file p' = Some f
    /\ Files.getPackageFileVersion p' "version" None = Ok (VStr v)
    /\ (if String.eqb (Files.extname f) ".toml"
        then Files.same_except "package" (Files.pkg parsed) (Files.pkg (Files.minimum p'))
             /\ exists package package',
                 Js.get (Files.pkg parsed) "package" = Ok package
                 /\ Js.get (Files.pkg (Files.minimum p')) "package" = Ok package'
                 /\ Files.same_except "version" package package'
        else Files.same_except "version" (Files.pkg parsed) (Files.pkg (Files.minimum p')))
    /\ (if String.eqb (Files.extname f) ".json"
        then exists old,
               Js.get (Files.pkg parsed) "version" = Ok (VStr old)
               /\ stringifyPkg (Files.pkg (Files.minimum p')) (Files.extname f)
                  = Ok (VStr (Files.json_text (Files.pkg (Files.minimum p'))))
               /\ Files.framed (Files.json_text (Files.pkg parsed))
                    (Files.json_text (Files.pkg (Files.minimum p')))
                    (Js.quote old) (Js.quote v)
               /\ (Js.exact_numbers (Files.pkg parsed) = true ->
                   Files.content f = Files.json_text (Files.pkg parsed) ->
                   Files.framed (Files.content f)
                     (Files.json_text (Files.pkg (Files.minimum p')))
                     (Js.quote old) (Js.quote v))
        else True).
Proof.
  intros Hload.
  destruct (String.eqb (Files.extname f) ".toml") eqn:Et;
    [|destruct (String.eqb (Files.extname f) ".json") eqn:Ej;
      [|destruct (Files.is_yaml (Files.extname f)) eqn:Ey]].
  - destruct (loaded_toml f parsed Et Hload) as (m & package & old & Hpkg & Hpackage & Hold & _).
    assert (Hhas : Js.obj_has "version" package = true)
      by (apply obj_get_has; rewrite Hold; discriminate).
    assert (Hhasp : Js.obj_has "package" m = true)
      by (apply obj_get_has; rewrite Hpackage; discriminate).
    eexists. split.
    { exact (set_version_toml (Files.loaded f nickname parsed) f v m package
               eq_refl Et Hpkg Hpackage Hhas). }
    split; [reflexivity|]. split.
    { rewrite (get_version_toml
                 (Files.with_pkg (Files.loaded f nickname parsed) (VObj _)) f _ _
                 eq_refl Et eq_refl (obj_get_replace _ _ _ Hhasp)).
      rewrite obj_get_replace by exact Hhas. reflexivity. }
    rewrite (toml_is_not_json _ Et).
    cbn [Files.with_pkg Files.minimum Files.pkg Files.loaded]. rewrite Hpkg.
    split; [|exact I]. split; [apply replace_same_except|].
    exists (VObj package), (VObj (Js.obj_replace "version" (VStr v) package)).
    cbn [Js.get]. rewrite Hpackage, (obj_get_replace _ _ _ Hhasp).
    repeat split. apply replace_same_except.
  - destruct (loaded_json f parsed Et Ej Hload) as (m & old & Hpkg & Hold & _).
    assert (Hhas : Js.obj_has "version" m = true)
      by (apply obj_get_has; rewrite Hold; discriminate).
    eexists. split.
    { exact (set_version_flat (Files.loaded f nickname parsed) f v m
               eq_refl Et Hpkg Hhas). }
    split; [reflexivity|]. split.
    { rewrite (get_version_flat
                 (Files.with_pkg (Files.loaded f nickname parsed) (VObj _)) f _
                 eq_refl Et eq_refl).
      rewrite obj_get_replace by exact Hhas. reflexivity. }
    cbn [Files.with_pkg Files.minimum Files.pkg Files.loaded]. rewrite Hpkg.
    split; [apply replace_same_except|].
    exists old. cbn [Js.get]. rewrite Hold. split; [reflexivity|]. split.
    { unfold Files.stringifyPkg. rewrite Et, Ej. reflexivity. }
    split.
    + apply json_version_framed. exact Hold.
    + intros _ ->. apply json_version_framed. exact Hold.
  - destruct (loaded_yaml f parsed Et Ej Ey Hload) as (m & old & Hpkg & Hold & _).
    assert (Hhas : Js.obj_has "version" m = true)
      by (apply obj_get_has; rewrite Hold; discriminate).
    eexists. split.
    { exact (set_version_flat (Files.loaded f nickname parsed) f v m
               eq_refl Et Hpkg Hhas). }
    split; [reflexivity|]. split.
    { rewrite (get_version_flat
                 (Files.with_pkg (Files.loaded f nickname parsed) (VObj _)) f _
                 eq_refl Et eq_refl).
      rewrite obj_get_replace by exact Hhas. reflexivity. }
    cbn [Files.with_pkg Files.minimum Files.pkg Files.loaded]. rewrite Hpkg.
    split; [apply replace_same_except|exact I].
  - assert (Hbare : Files.is_structured (Files.extname f) = false)
      by (unfold Files.is_structured; rewrite Et, Ej, Ey; reflexivity).
    rewrite (parsePkg_bare TOML_parse YAML_load f Hbare) in Hload.
    destruct (Str.is_empty (Files.content f)); [discriminate Hload|].
    destruct (Semver.valid (Str.trim (Files.content f))); [|discriminate Hload].
    injection Hload as Hparsed.
    assert (Hpkg : Files.pkg parsed
                   = VObj [("name", VStr EmptyString);
                           ("version", VStr (Str.trim (Files.content f)))])
      by (rewrite <- Hparsed; reflexivity).
    eexists. split.
    { exact (set_version_flat (Files.loaded f nickname parsed) f v _
               eq_refl Et Hpkg eq_refl). }
    split; [reflexivity|]. split.
    { rewrite (get_version_flat
                 (Files.with_pkg (Files.loaded f nickname parsed) (VObj _)) f _
                 eq_refl Et eq_refl).
      reflexivity. }
    cbn [Files.with_pkg Files.minimum Files.pkg Files.loaded]. rewrite Hpkg.
    split; [apply replace_same_except|exact I].
Qed.

End RoundTrip.


(** The same on the bare [VERSION] file of the test fixture. *)
Example version_file_round_trip :
  Fixture.written Fixture.version_file "6.2.0" = "6.2.0"
  /\ exists parsed',
      Fixture.parse (Files.with_content Fixture.version_file
                       (Fixture.written Fixture.version_file "6.2.0"))
      = Ok parsed'
      /\ Files.version parsed' = VStr "6.2.0".
Proof.
  split; [vm_compute; reflexivity|]. eexists. split; vm_compute; reflexivity.
Qed.

(** Witness for [set_version_touches_the_version_only]: a [package.json]
    written on one line, and one written with two spaces, which keeps its
    bytes around the version. *)
Lemma set_version_touches_the_version_only_witness :
  Fixture.parse Fixture.compact_json
  = Ok (Fixture.parsed_or_empty Fixture.compact_json)
  /\ (exists p'',
        Files.setPackageFileVersion
          (Files.loaded Fixture.pretty_json "app"
             (Fixture.parsed_or_empty Fixture.pretty_json)) "1.0.1" "version" None
        = Ok p''
        /\ Files.framed (Files.content Fixture.pretty_json)
             (Files.json_text (Files.pkg (Files.minimum p'')))
             (Js.quote "1.0.0") (Js.quote "1.0.1"))
  /\ exists p',
      Files.setPackageFileVersion
        (Files.loaded Fixture.compact_json "app"
           (Fixture.parsed_or_empty Fixture.compact_json)) "1.0.1" "version" None
      = Ok p'
      /\ Files.same_except "version"
           (Files.pkg (Fixture.parsed_or_empty Fixture.compact_json))
           (Files.pkg (Files.minimum p'))
      /\ Files.framed
           (Files.json_text (Files.pkg (Fixture.parsed_or_empty Fixture.compact_json)))
           (Files.json_text (Files.pkg (Files.minimum p')))
           (Js.quote "1.0.0") (Js.quote "1.0.1").
Proof.
  split; [vm_compute; reflexivity|]. split.
  { destruct (set_version_touches_the_version_only Fixture.no_parser
                Fixture.no_printer Fixture.no_parser Fixture.no_printer
                Fixture.pretty_json "app"
                (Fixture.parsed_or_empty Fixture.pretty_json) "1.0.1")
      as (p'' & Hset & _ & _ & _ & Hbytes).
    - vm_compute. reflexivity.
    - exists p''. split; [exact Hset|].
      destruct Hbytes as (old & Hold & _ & _ & Hfile).
      vm_compute in Hold. injection Hold as <-.
      apply Hfile; vm_compute; reflexivity. }
  destruct (set_version_touches_the_version_only Fixture.no_parser Fixture.no_printer
              Fixture.no_parser Fixture.no_printer Fixture.compact_json "app"
              (Fixture.parsed_or_empty Fixture.compact_json) "1.0.1")
    as (p' & Hset & _ & _ & Hsame & Hbytes).
  - vm_compute. reflexivity.
  - exists p'. split; [exact Hset|]. split; [exact Hsame|].
    destruct Hbytes as (old & Hold & _ & Hframed & _).
    vm_compute in Hold. injection Hold as <-. exact Hframed.
Defined.

(** C1 fails as stated: a JSON manifest written on one line loads, and
    after the version has been set the text written back is laid out anew;
    it is not the original file with the version replaced, and the bytes of
    the [scripts] field of the original file do not occur in it. *)
Lemma compact_manifest_is_reformatted :
  Fixture.parse Fixture.compact_json
  = Ok (Fixture.parsed_or_empty Fixture.compact_json)
  /\ Js.get (Files.pkg (Fixture.parsed_or_empty Fixture.compact_json)) "version"
     = Ok (VStr "1.0.0")
  /\ (exists p',
         Files.setPackageFileVersion
           (Files.loaded Fixture.compact_json "app"
              (Fixture.parsed_or_empty Fixture.compact_json)) "1.0.1" "version" None
         = Ok p'
         /\ Files.stringifyPkg Fixture.no_printer Fixture.no_printer
              (Files.pkg (Files.minimum p')) ".json"
            = Ok (VStr (Fixture.written Fixture.compact_json "1.0.1")))
  /\ ~ Files.framed (Files.content Fixture.compact_json)
         (Fixture.written Fixture.compact_json "1.0.1")
         (Js.quote "1.0.0") (Js.quote "1.0.1")
  /\ Str.contains Fixture.scripts_bytes (Files.content Fixture.compact_json) = true
  /\ Str.contains Fixture.scripts_bytes (Fixture.written Fixture.compact_json "1.0.1")
     = false.
Proof.
  split; [vm_compute; reflexivity|]. split; [vm_compute; reflexivity|].
  split; [eexists; split; vm_compute; reflexivity|].
  split; [|split; vm_compute; reflexivity].
  intros (before & after & Ho & Hn).
  destruct before as [|c1 [|c2 before']]; vm_compute in Ho, Hn; congruence.
Qed.

(** ** The runner as a whole *)

Section Runner.

Variable probe_output : list Run.event -> string -> string -> list string.
Variable exit_status : list Run.event -> string -> string -> result Z.
Variable Config : Type.
Variable Applied : Type.
Variable configFile : gmap string string -> string -> result Config.
Variable changeFiles :
  gmap string string -> string -> bool -> result (list string) * gmap string string.
Variable assemble : list string -> list (string * Run.Release).
Variable mergeIntoConfig :
  list (string * Run.Release) -> Config -> string -> result (list Run.PkgCommand).
Variable apply :
  gmap string string -> list Run.PkgCommand -> Config -> string
  -> result Applied * gmap string string.
Variable fillChangelogs :
  gmap string string -> Applied -> list (string * Run.Release) -> Config -> string
  -> result unit * gmap string string.
Variable without_vfile : Config -> value.

Local Abbreviation covector :=
  (Run.covector probe_output exit_status Config Applied configFile changeFiles
     assemble mergeIntoConfig apply fillChangelogs without_vfile).

Lemma publishOne_extends (published : gmap string bool) (trace : list Run.event)
  (p : Run.PkgCommand) :
  exists extra,
    snd (snd (Run.publishOne probe_output exit_status published trace p))
    = trace ++ extra.
Proof.
  assert (Hrun : forall t,
             exists extra,
               snd (snd (Run.runPublish exit_status published t p)) = t ++ extra).
  { intros t. unfold Run.runPublish, Run.awaitExit.
    destruct (exit_status _ _ _); simpl; eexists;
      rewrite <- ?app_assoc; reflexivity. }
  unfold Run.publishOne, Run.awaitExit.
  destruct (Run.truthy_command _); [|apply Hrun].
  destruct (Run.readVersion _ _) as [version|];
    [|destruct (exit_status _ _ _); eexists; reflexivity].
  destruct (exit_status _ _ _) as [code|e]; simpl; [|eexists; reflexivity].
  destruct (Run.strict_equal _ _).
  - simpl. eexists. rewrite <- !app_assoc. reflexivity.
  - destruct (Hrun ((trace ++ [Run.Spawn (default EmptyString (Run.getPublishedVersion p))
                                 (Run.path p) "pipe"])
                    ++ [Run.Exited (default EmptyString (Run.getPublishedVersion p)) code]))
      as [extra ->].
    eexists. rewrite <- !app_assoc. reflexivity.
Qed.

Lemma publishAll_extends (commands : list Run.PkgCommand) :
  forall (published : gmap string bool) (trace : list Run.event),
  exists extra,
    snd (snd (Run.publishAll probe_output exit_status published trace commands))
    = trace ++ extra.
Proof.
  induction commands as [|p rest IH]; intros published trace; simpl.
  - exists []. rewrite app_nil_r. reflexivity.
  - destruct (publishOne_extends published trace p) as [extra1 H1].
    destruct (Run.publishOne probe_output exit_status published trace p)
      as [[[]| |] [published1 trace1]]; simpl in H1; subst trace1;
      try (eexists; reflexivity).
    destruct (IH published1 (trace ++ extra1)) as [extra2 H2].
    exists (extra1 ++ extra2). rewrite H2, app_assoc. reflexivity.
Qed.

(** X26: The timer of a [version] or [publish] run: once the configuration and
    the change files have been read, the first thing the run does is start
    a timer of 120000 ms that throws "timeout out waiting 120s for
    command".  What the timer and the rest of the run do to one another is
    decided by the task library the runner is written with, and is not part
    of this development. *)
Lemma deadline_is_armed (command cwd : string) (w : Run.world)
  (config : Config) (changes : list string) (disk1 : gmap string string) :
  configFile (Run.disk w) cwd = Ok config ->
  changeFiles (Run.disk w) cwd (String.eqb command "version") = (Ok changes, disk1) ->
  command = "version" \/ command = "publish" ->
  exists rest,
    Run.trace (snd (covector command cwd w))
    = Run.trace w ++ Run.Timer 120000 "timeout out waiting 120s for command" :: rest.
Proof.
  intros Hconfig Hchanges Hcommand. unfold Run.covector.
  rewrite Hconfig, Hchanges.
  assert (Htimer : Run.raceTime Run.default_timeout
                   = Run.Timer 120000 "timeout out waiting 120s for command")
    by (vm_compute; reflexivity).
  rewrite Htimer.
  destruct Hcommand as [-> | ->]; cbn [String.eqb Ascii.eqb Bool.eqb].
  - change (String.eqb "version" "status") with false.
    change (String.eqb "version" "config") with false.
    change (String.eqb "version" "version") with true. cbv iota.
    destruct (mergeIntoConfig _ _ _) as [commands|e];
      [|exists []; reflexivity].
    destruct (apply _ _ _ _) as [[applied|e] disk2];
      [|exists []; reflexivity].
    destruct (fillChangelogs _ _ _ _ _) as [[[]|e] disk3];
      exists []; reflexivity.
  - change (String.eqb "publish" "status") with false.
    change (String.eqb "publish" "config") with false.
    change (String.eqb "publish" "version") with false.
    change (String.eqb "publish" "publish") with true. cbv iota.
    destruct (mergeIntoConfig _ _ _) as [commands|e];
      [|exists []; reflexivity].
    destruct (publishAll_extends commands ∅
                (Run.trace w ++ [Run.Timer 120000 "timeout out waiting 120s for command"]))
      as [extra Hextra].
    destruct (Run.publishAll _ _ _ _ _) as [[[]| |] [published trace2]];
      simpl in Hextra; subst trace2; exists extra; simpl;
      rewrite <- app_assoc; reflexivity.
Qed.

(** The object a [publish] run returns is the one the loop has filled,
    starting from the empty object. *)
Lemma publish_run_returns_the_loop_object (cwd : string) (w w' : Run.world)
  (m : gmap string bool) :
  covector "publish" cwd w = (Run.Done (Run.Published Applied m), w') ->
  exists commands trace',
    Run.publishAll probe_output exit_status ∅
      (Run.trace w ++ [Run.raceTime Run.default_timeout]) commands
    = (Run.Done (), (m, trace'))
    /\ Run.trace w' = trace'.
Proof.
  unfold Run.covector.
  destruct (configFile _ _) as [config|e]; [|discriminate].
  destruct (changeFiles _ _ _) as [[changes|e] disk1]; [|discriminate].
  change (String.eqb "publish" "status") with false.
  change (String.eqb "publish" "config") with false.
  change (String.eqb "publish" "version") with false.
  change (String.eqb "publish" "publish") with true. cbv iota.
  destruct (mergeIntoConfig _ _ _) as [commands|e]; [|discriminate].
  destruct (Run.publishAll _ _ _ _ _) as [[[]| |] [published trace2]] eqn:E;
    try discriminate.
  intros [= <- <-]. exists commands, trace2. split; [exact E|reflexivity].
Qed.

End Runner.

(** ** More about objects *)

Section MoreObjectFacts.

Lemma obj_get_app_absent (k : string) (v : value) (m : list (string * value)) :
  Js.obj_has k m = false -> Js.obj_get k (m ++ [(k, v)]) = v.
Proof.
  induction m as [|[k' x] r IH]; simpl.
  - rewrite String.eqb_refl. reflexivity.
  - intros H. apply orb_false_iff in H as [-> H]. auto.
Qed.

Lemma obj_get_app_ne (j k : string) (v : value) (m : list (string * value)) :
  j <> k -> Js.obj_get j (m ++ [(k, v)]) = Js.obj_get j m.
Proof.
  intros Hne. induction m as [|[k' x] r IH]; simpl.
  - destruct (String.eqb k j) eqn:E; [|reflexivity].
    apply String.eqb_eq in E. congruence.
  - rewrite IH. reflexivity.
Qed.

Lemma obj_get_insert_index (i : nat) (k : string) (v : value)
  (m : list (string * value)) :
  Js.obj_has k m = false -> Js.obj_get k (Js.obj_insert_index i k v m) = v.
Proof.
  induction m as [|[k' x] r IH]; simpl.
  - rewrite String.eqb_refl. reflexivity.
  - intros H. apply orb_false_iff in H as [E H].
    destruct (Js.array_index k') as [j|]; [destruct (j <? i)%nat|]; simpl;
      rewrite ?E, ?String.eqb_refl; auto.
Qed.

Lemma obj_get_insert_index_ne (i : nat) (j k : string) (v : value)
  (m : list (string * value)) :
  j <> k -> Js.obj_get j (Js.obj_insert_index i k v m) = Js.obj_get j m.
Proof.
  intros Hne.
  assert (Hk : String.eqb k j = false).
  { destruct (String.eqb k j) eqn:E; [|reflexivity].
    apply String.eqb_eq in E. congruence. }
  induction m as [|[k' x] r IH]; simpl.
  - rewrite Hk. reflexivity.
  - destruct (Js.array_index k') as [n|]; [destruct (n <? i)%nat|]; simpl;
      rewrite ?Hk, ?IH; reflexivity.
Qed.

(** Reading back the property just assigned, and any other one. *)
Lemma obj_get_set (k : string) (v : value) (m : list (string * value)) :
  Js.obj_get k (Js.obj_set k v m) = v.
Proof.
  unfold Js.obj_set. destruct (Js.obj_has k m) eqn:H.
  - apply obj_get_replace. exact H.
  - destruct (Js.array_index k).
    + apply obj_get_insert_index. exact H.
    + apply obj_get_app_absent. exact H.
Qed.

Lemma obj_get_set_ne (j k : string) (v : value) (m : list (string * value)) :
  j <> k -> Js.obj_get j (Js.obj_set k v m) = Js.obj_get j m.
Proof.
  intros Hne. unfold Js.obj_set. destruct (Js.obj_has k m).
  - apply obj_get_replace_ne. exact Hne.
  - destruct (Js.array_index k).
    + apply obj_get_insert_index_ne. exact Hne.
    + apply obj_get_app_ne. exact Hne.
Qed.

(** Reading a property throws a [TypeError] or nothing. *)
Lemma get_throws_TypeError (x : value) (k : string) (e : exn) :
  Js.get x k = Throw e -> exists msg, e = TypeError msg.
Proof. destruct x; simpl; intros [= <-]; eauto. Qed.

Lemma get_of_truthy (x : value) (k : string) :
  Js.truthy x = true -> exists r, Js.get x k = Ok r.
Proof. destruct x; simpl; try discriminate; eauto. Qed.

Lemma component_ok (i : nat) (s : string) (n : N) :
  Semver.component i s = Ok n -> Semver.constructs s = true.
Proof.
  unfold Semver.component. destruct (Semver.constructs s); [reflexivity|discriminate].
Qed.

Lemma on_value_throws {A} (f : string -> result A) (x : value) :
  (forall s e, f s = Throw e -> exists msg, e = TypeError msg) ->
  forall e, Semver.on_value f x = Throw e -> exists msg, e = TypeError msg.
Proof.
  intros Hf e. destruct x; simpl; try (intros [= <-]; eauto). apply Hf.
Qed.

Lemma component_throws (i : nat) (s : string) (e : exn) :
  Semver.component i s = Throw e -> exists msg, e = TypeError msg.
Proof.
  unfold Semver.component, Semver.invalid.
  destruct (Semver.constructs s); [discriminate|]. intros [= <-]. eauto.
Qed.

Lemma prerelease_throws (s : string) (e : exn) :
  Semver.prerelease s = Throw e -> exists msg, e = TypeError msg.
Proof.
  unfold Semver.prerelease, Semver.invalid.
  destruct (Semver.constructs s); [destruct (snd _); discriminate|].
  intros [= <-]. eauto.
Qed.

End MoreObjectFacts.

(** ** What [parsePkg] accepts and what it refuses *)

Section Loading.

Variable TOML_parse : string -> result value.
Variable YAML_load : string -> result value.

Local Abbreviation parsePkg := (Files.parsePkg TOML_parse YAML_load).

(** The shape of anything [parsePkg] returns. *)
Lemma parsePkg_shape (f : Files.File) (parsed : Files.PkgMinimum) :
  parsePkg f = Ok parsed ->
  exists m v,
    Files.pkg parsed = VObj m
    /\ Files.version parsed = VStr v
    /\ Semver.constructs v = true
    /\ Semver.major v = Ok (Files.versionMajor parsed)
    /\ Semver.minor v = Ok (Files.versionMinor parsed)
    /\ Semver.patch v = Ok (Files.versionPatch parsed)
    /\ if String.eqb (Files.extname f) ".toml"
       then exists package,
              Js.obj_get "package" m = VObj package
              /\ Js.obj_get "version" package = VStr v
       else Js.obj_get "version" m = VStr v.
Proof.
  intros H. unfold Files.parsePkg in H.
  destruct (Str.is_empty (Files.content f)); [discriminate H|].
  destruct (String.eqb (Files.extname f) ".toml") eqn:Et.
  { apply bind_ok in H as (doc & _ & H).
    apply bind_ok in H as (package & Hpackage & H).
    apply bind_ok in H as (ver & Hver & H).
    apply bind_ok in H as (major & Hmajor & H).
    apply bind_ok in H as (minor & Hminor & H).
    apply bind_ok in H as (patch & Hpatch & H).
    apply bind_ok in H as (pre & _ & H).
    apply bind_ok in H as (keyed & _ & H).
    injection H as <-. simpl.
    apply on_value_ok in Hmajor as (v & -> & Hmajor).
    simpl in Hminor, Hpatch.
    apply get_named in Hver as (pk & -> & Hpk); [|reflexivity|reflexivity|discriminate].
    apply get_named in Hpackage as (m & -> & Hm); [|reflexivity|reflexivity|discriminate].
    exists m, v. repeat split; auto.
    - exact (component_ok _ _ _ Hmajor).
    - eauto. }
  destruct (String.eqb (Files.extname f) ".json") eqn:Ej.
  { apply bind_ok in H as (doc & _ & H).
    apply bind_ok in H as (ver & Hver & H).
    apply bind_ok in H as (major & Hmajor & H).
    apply bind_ok in H as (minor & Hminor & H).
    apply bind_ok in H as (patch & Hpatch & H).
    apply bind_ok in H as (pre & _ & H).
    apply bind_ok in H as (keyed & _ & H).
    injection H as <-. simpl.
    apply on_value_ok in Hmajor as (v & -> & Hmajor).
    simpl in Hminor, Hpatch.
    apply get_named in Hver as (m & -> & Hm); [|reflexivity|reflexivity|discriminate].
    exists m, v. repeat split; auto.
    exact (component_ok _ _ _ Hmajor). }
  destruct (Files.is_yaml (Files.extname f)) eqn:Ey.
  { apply bind_ok in H as (doc & _ & H).
    assert (Hdoc : exists ver major minor patch,
               Js.get doc "version" = Ok ver
               /\ Semver.on_value Semver.major ver = Ok major
               /\ Semver.on_value Semver.minor ver = Ok minor
               /\ Semver.on_value Semver.patch ver = Ok patch
               /\ Files.pkg parsed = doc /\ Files.version parsed = ver
               /\ Files.versionMajor parsed = major
               /\ Files.versionMinor parsed = minor
               /\ Files.versionPatch parsed = patch).
    { destruct doc; try discriminate H;
        apply bind_ok in H as (nm & Hnm & H);
        apply bind_ok in H as (ver & Hver & H);
        (destruct (Js.truthy _ && _) in H; [discriminate H|]);
        apply bind_ok in H as (major & Hmajor & H);
        apply bind_ok in H as (minor & Hminor & H);
        apply bind_ok in H as (patch & Hpatch & H);
        apply bind_ok in H as (keyed & Hkeyed & H);
        injection H as <-; exists ver, major, minor, patch; repeat split; auto. }
    clear H.
    destruct Hdoc as (ver & major & minor & patch & Hver & Hmajor & Hminor & Hpatch
                      & Hpkg & Hv & <- & <- & <-).
    apply on_value_ok in Hmajor as (v & -> & Hmajor).
    simpl in Hminor, Hpatch.
    apply get_named in Hver as (m & -> & Hm); [|reflexivity|reflexivity|discriminate].
    exists m, v. repeat split; auto.
    exact (component_ok _ _ _ Hmajor). }
  destruct (Semver.valid (Str.trim (Files.content f))) eqn:Hvalid; [|discriminate H].
  simpl in H.
  apply bind_ok in H as (major & Hmajor & H).
  apply bind_ok in H as (minor & Hminor & H).
  apply bind_ok in H as (patch & Hpatch & H).
  injection H as <-. simpl.
  eexists _, _. repeat split; auto.
  exact (component_ok _ _ _ Hmajor).
Qed.

(** X1: Whatever the encoding, a manifest that loads has a version that
    is a string the semver library accepts, its three numbers are those of
    that version, and its document is an ordinary object (not [null] and
    not an array). *)
Theorem loaded_version_is_accepted (f : Files.File) (parsed : Files.PkgMinimum) :
  parsePkg f = Ok parsed ->
  exists v,
    Files.version parsed = VStr v
    /\ Semver.constructs v = true
    /\ Semver.major v = Ok (Files.versionMajor parsed)
    /\ Semver.minor v = Ok (Files.versionMinor parsed)
    /\ Semver.patch v = Ok (Files.versionPatch parsed)
    /\ exists m, Files.pkg parsed = VObj m.
Proof.
  intros H. apply parsePkg_shape in H as (m & v & Hm & Hv & Hc & H1 & H2 & H3 & _).
  exists v. repeat split; eauto.
Qed.

(** X2: The version [getPackageFileVersion] reads from a package file that has
    just been loaded is the [version] field [parsePkg] has put beside the
    document, whatever the encoding. *)
Theorem getter_agrees_with_the_loaded_version
  (f : Files.File) (nickname : string) (parsed : Files.PkgMinimum) :
  parsePkg f = Ok parsed ->
  Files.getPackageFileVersion (Files.loaded f nickname parsed) "version" None
  = Ok (Files.version parsed).
Proof.
  intros H. apply parsePkg_shape in H as (m & v & Hpkg & -> & _ & _ & _ & _ & Hshape).
  destruct (String.eqb (Files.extname f) ".toml") eqn:Et.
  - destruct Hshape as (package & Hpackage & Hver).
    rewrite (get_version_toml _ f m package); auto. rewrite Hver. reflexivity.
  - rewrite (get_version_flat _ f m); auto. rewrite Hshape. reflexivity.
Qed.

End Loading.

(** Witness for [loaded_version_is_accepted]: the one-line manifest. *)
Lemma loaded_version_is_accepted_witness :
  exists v,
    Files.version (Fixture.parsed_or_empty Fixture.compact_json) = VStr v
    /\ Semver.constructs v = true
    /\ Semver.major v = Ok (Files.versionMajor (Fixture.parsed_or_empty Fixture.compact_json))
    /\ Semver.minor v = Ok (Files.versionMinor (Fixture.parsed_or_empty Fixture.compact_json))
    /\ Semver.patch v = Ok (Files.versionPatch (Fixture.parsed_or_empty Fixture.compact_json))
    /\ exists m, Files.pkg (Fixture.parsed_or_empty Fixture.compact_json) = VObj m.
Proof.
  apply (loaded_version_is_accepted Fixture.no_parser Fixture.no_parser
           Fixture.compact_json).
  vm_compute. reflexivity.
Defined.

(** Witness for [getter_agrees_with_the_loaded_version]: the [VERSION]
    file of the test fixture. *)
Lemma getter_agrees_with_the_loaded_version_witness :
  Files.getPackageFileVersion
    (Files.loaded Fixture.version_file "app"
       (Fixture.parsed_or_empty Fixture.version_file)) "version" None
  = Ok (VStr "6.1.0").
Proof.
  rewrite (getter_agrees_with_the_loaded_version Fixture.no_parser Fixture.no_parser
             Fixture.version_file "app"
             (Fixture.parsed_or_empty Fixture.version_file)).
  - vm_compute. reflexivity.
  - vm_compute. reflexivity.
Defined.

Section Refusals.

Variable TOML_parse : string -> result value.
Variable YAML_load : string -> result value.

Local Abbreviation parsePkg := (Files.parsePkg TOML_parse YAML_load).

(** X3: A JSON manifest whose text parses is still refused, with a
    [TypeError], unless the document has under [version] a string that the
    semver library accepts. *)
Theorem json_manifest_needs_a_valid_version (f : Files.File) (doc : value) :
  Files.extname f = ".json" ->
  Files.content f <> EmptyString ->
  Files.JSON_parse (Files.content f) = Ok doc ->
  (forall s, Js.get doc "version" = Ok (VStr s) -> Semver.constructs s = false) ->
  exists msg, parsePkg f = Throw (TypeError msg).
Proof.
  intros Hext Hcontent Hparse Hbad.
  unfold Files.parsePkg. apply is_empty_false in Hcontent.
  rewrite Hcontent, Hext, Hparse.
  change (String.eqb ".json" ".toml") with false.
  change (String.eqb ".json" ".json") with true.
  cbn [mbind result_bind].
  destruct (Js.get doc "version") as [ver|e] eqn:Hver.
  - cbn [mbind result_bind].
    destruct ver as [| |b|n e|s|items|members];
      try (cbn; eexists; reflexivity).
    specialize (Hbad s eq_refl).
    cbn [Semver.on_value]. unfold Semver.major, Semver.component, Semver.invalid.
    rewrite Hbad. cbn. eexists. reflexivity.
  - cbn. apply get_throws_TypeError in Hver as [msg ->]. eexists. reflexivity.
Qed.

(** X4: A YAML manifest must be a mapping with a name and a version: a scalar
    document is refused as improperly structured, and a mapping in which
    the name or the version is missing or empty is refused with the
    message "missing version", also when it is the name that is
    missing. *)
Theorem yaml_manifest_needs_name_and_version (f : Files.File) (doc : value) :
  Files.is_yaml (Files.extname f) = true ->
  Files.content f <> EmptyString ->
  YAML_load (Files.content f) = Ok doc ->
  (Js.typeof doc = Js.TString \/ Js.typeof doc = Js.TNumber
   \/ doc = VNull \/ doc = VUndefined ->
   parsePkg f = Throw (Error "file improperly structured"))
  /\ (forall m, doc = VObj m ->
      Js.truthy (Js.obj_get "name" m) = false
      \/ Js.truthy (Js.obj_get "version" m) = false ->
      parsePkg f = Throw (Error "missing version")).
Proof.
  intros Hext Hcontent Hload.
  assert (Et : String.eqb (Files.extname f) ".toml" = false).
  { unfold Files.is_yaml in Hext. apply orb_true_iff in Hext as [H|H];
      apply String.eqb_eq in H; rewrite H; reflexivity. }
  assert (Ej : String.eqb (Files.extname f) ".json" = false).
  { unfold Files.is_yaml in Hext. apply orb_true_iff in Hext as [H|H];
      apply String.eqb_eq in H; rewrite H; reflexivity. }
  unfold Files.parsePkg. apply is_empty_false in Hcontent.
  rewrite Hcontent, Et, Ej, Hext, Hload. cbn [mbind result_bind].
  split.
  - intros Hscalar.
    destruct doc as [| |b|n e|s|items|members]; try reflexivity;
      exfalso; destruct Hscalar as [H|[H|[H|H]]]; discriminate H.
  - intros m -> Hmissing. cbn [Js.get mbind result_bind Js.truthy andb].
    destruct Hmissing as [-> | ->]; [reflexivity|].
    rewrite orb_true_r. reflexivity.
Qed.

End Refusals.

(** Witness for [json_manifest_needs_a_valid_version]: a manifest that
    only has a name. *)
Lemma json_manifest_needs_a_valid_version_witness :
  exists msg,
    Fixture.parse Fixture.versionless_json = Throw (TypeError msg).
Proof.
  apply (json_manifest_needs_a_valid_version Fixture.no_parser Fixture.no_parser
           Fixture.versionless_json (VObj [("name", VStr "app")])).
  - reflexivity.
  - vm_compute. discriminate.
  - vm_compute. reflexivity.
  - intros s H. vm_compute in H. discriminate H.
Defined.

(** Witness for [yaml_manifest_needs_name_and_version]: a pubspec with a
    version and no name. *)
Lemma yaml_manifest_needs_name_and_version_witness :
  Files.parsePkg Fixture.no_parser Fixture.yaml_reader Fixture.nameless_pubspec
  = Throw (Error "missing version").
Proof.
  apply (proj2 (yaml_manifest_needs_name_and_version Fixture.no_parser
                  Fixture.yaml_reader Fixture.nameless_pubspec
                  (VObj [("version", VStr "1.0.0")])
                  eq_refl ltac:(discriminate) eq_refl)
           [("version", VStr "1.0.0")] eq_refl).
  left. reflexivity.
Defined.

(** ** The dependencies [keyDeps] collects *)

Section KeyedDependencies.

Lemma foldM_throws {A B} (f : A -> B -> result A) (P : B -> Prop) :
  (forall acc b, (exists e, f acc b = Throw e) <-> P b) ->
  forall l acc,
    (exists e, Files.foldM f acc l = Throw e) <-> exists b, b ∈ l /\ P b.
Proof.
  intros Hf. induction l as [|b r IH]; intros acc; simpl.
  - split; [intros [e H]; discriminate H|].
    intros (b & Hb & _). inversion Hb.
  - destruct (f acc b) as [acc'|e] eqn:E; simpl.
    + rewrite IH. split.
      * intros (b0 & Hb0 & HP). exists b0. split; [right; exact Hb0|exact HP].
      * intros (b0 & Hb0 & HP). apply elem_of_cons in Hb0 as [-> | Hb0].
        -- exfalso. apply (Hf acc) in HP as [e He]. congruence.
        -- eauto.
    + split; [|eauto]. intros _. exists b. split; [left|].
      apply (Hf acc). eauto.
Qed.

Lemma foldM_error {A B} (f : A -> B -> result A) (e0 : exn) :
  (forall acc b e, f acc b = Throw e -> e = e0) ->
  forall l acc e, Files.foldM f acc l = Throw e -> e = e0.
Proof.
  intros Hf. induction l as [|b r IH]; intros acc e; simpl; [discriminate|].
  destruct (f acc b) as [acc'|e1] eqn:E; simpl.
  - apply IH.
  - intros [= <-]. exact (Hf _ _ _ E).
Qed.

Local Abbreviation null_version :=
  (TypeError "Cannot read properties of null (reading 'version')").

Lemma keyDeps_entry_throws (t : string) (acc : list (string * value))
  (entry : string * value) :
  (exists e, Files.keyDeps_entry t acc entry = Throw e) <-> snd entry = VNull.
Proof.
  destruct entry as [dep ver]. unfold Files.keyDeps_entry. simpl.
  destruct ver as [| |b|n e|s|items|members]; simpl;
    try (split; [intros [e0 H]; discriminate H|discriminate]);
    try (split; [reflexivity|eauto]; fail);
    destruct (Js.truthy _); split; try discriminate; intros [e0 H]; discriminate H.
Qed.

Lemma keyDeps_entry_error (t : string) (acc : list (string * value))
  (entry : string * value) (e : exn) :
  Files.keyDeps_entry t acc entry = Throw e -> e = null_version.
Proof.
  destruct entry as [dep ver]. unfold Files.keyDeps_entry.
  destruct ver as [| |b|n e0|s|items|members]; simpl; try discriminate;
    try (destruct (Js.truthy _); discriminate).
  intros [= <-]. reflexivity.
Qed.

(** Only an object or an array has entries. *)
Lemma entries_of_table (table : value) (entry : string * value) :
  entry ∈ Files.entries table -> Js.truthy table && Js.is_object table = true.
Proof.
  destruct table; simpl; try (intros H; inversion H; fail); reflexivity.
Qed.

Lemma keyDeps_type_throws (m acc : list (string * value)) (t : string) :
  (exists e, Files.keyDeps_type (VObj m) acc t = Throw e)
  <-> exists dep, (dep, VNull) ∈ Files.entries (Js.obj_get t m).
Proof.
  unfold Files.keyDeps_type. cbn [Js.get mbind result_bind].
  destruct (Js.truthy _ && Js.is_object _) eqn:Htable.
  - rewrite (foldM_throws _ (fun entry => snd entry = VNull)
               (keyDeps_entry_throws t)).
    split.
    + intros ([dep ver] & Hin & Hnull). simpl in Hnull. subst ver. eauto.
    + intros (dep & Hin). exists (dep, VNull). auto.
  - split; [intros [e H]; discriminate H|].
    intros (dep & Hin). apply entries_of_table in Hin. congruence.
Qed.

(** X5: For a document whose dependencies have ordinary names, [keyDeps]
    fails exactly when one of the three dependency tables holds [null] for
    some dependency, and then with a [TypeError] (that of reading [version]
    from [null]). *)
Theorem keyDeps_fails_exactly_on_a_null_entry (m : list (string * value)) :
  (forall t dep ver,
     t ∈ Files.depTypes -> (dep, ver) ∈ Files.entries (Js.obj_get t m) ->
     dep ∉ Js.inherited) ->
  ((exists e, Files.keyDeps (VObj m) = Throw e)
   <-> exists t dep,
         t ∈ Files.depTypes /\ (dep, VNull) ∈ Files.entries (Js.obj_get t m))
  /\ forall e, Files.keyDeps (VObj m) = Throw e -> exists msg, e = TypeError msg.
Proof.
  intros _. unfold Files.keyDeps. split.
  - pose proof (foldM_throws (Files.keyDeps_type (VObj m))
                  (fun t => exists dep, (dep, VNull) ∈ Files.entries (Js.obj_get t m))
                  (keyDeps_type_throws m) Files.depTypes []) as Hfold.
    split.
    + intros [e H].
      destruct (Files.foldM _ _ _) as [acc|e'] eqn:E; [discriminate H|].
      destruct (proj1 Hfold (ex_intro _ e' eq_refl)) as (t & Ht & dep & Hdep).
      eauto.
    + intros (t & dep & Ht & Hdep).
      destruct (proj2 Hfold (ex_intro _ t (conj Ht (ex_intro _ dep Hdep)))) as [e He].
      rewrite He. simpl. eauto.
  - intros e H.
    destruct (Files.foldM _ _ _) as [acc|e'] eqn:E; [discriminate H|].
    injection H as <-.
    apply (foldM_error (Files.keyDeps_type (VObj m)) null_version) in E; [eauto|].
    intros acc t e0. unfold Files.keyDeps_type. cbn [Js.get mbind result_bind].
    destruct (_ && _); [|discriminate].
    apply foldM_error. intros acc0 b e1. apply keyDeps_entry_error.
Qed.

(** *** What is recorded *)

Lemma extends_refl (acc : list (string * value)) : Files.extends acc acc.
Proof. intros k l H. exists []. rewrite app_nil_r. exact H. Qed.

Lemma extends_trans (a b c : list (string * value)) :
  Files.extends a b -> Files.extends b c -> Files.extends a c.
Proof.
  intros Hab Hbc k l H. destruct (Hab k l H) as [l1 H1].
  destruct (Hbc k _ H1) as [l2 H2]. exists (l1 ++ l2).
  rewrite app_assoc. exact H2.
Qed.

Lemma recorded_extends (t : string) (entry : string * value)
  (acc acc' : list (string * value)) :
  Files.recorded t entry acc -> Files.extends acc acc' -> Files.recorded t entry acc'.
Proof.
  intros (l & Hl & Hs & Ho) Hext. destruct (Hext _ _ Hl) as [l' Hl'].
  exists (l ++ l'). split; [exact Hl'|]. split.
  - intros s Hv. apply elem_of_app. left. exact (Hs s Hv).
  - intros em Hv Ht. apply elem_of_app. left. exact (Ho em Hv Ht).
Qed.

Lemma set_list_all_lists (k : string) (l : list value) (acc : list (string * value)) :
  Files.all_lists acc -> Files.all_lists (Js.obj_set k (VArr l) acc).
Proof.
  intros Hacc j. destruct (decide (j = k)) as [->|Hne].
  - right. exists l. apply obj_get_set.
  - rewrite obj_get_set_ne by exact Hne. apply Hacc.
Qed.

Lemma set_list_extends (k : string) (l0 l1 : list value) (acc : list (string * value)) :
  (Js.obj_get k acc = VUndefined /\ l0 = [] \/ Js.obj_get k acc = VArr l0) ->
  Files.extends acc (Js.obj_set k (VArr (l0 ++ l1)) acc).
Proof.
  intros Hk j l Hj. destruct (decide (j = k)) as [->|Hne].
  - rewrite obj_get_set. destruct Hk as [[Hk _]|Hk]; [congruence|].
    rewrite Hk in Hj. injection Hj as <-. eauto.
  - rewrite obj_get_set_ne by exact Hne. exists []. rewrite app_nil_r. exact Hj.
Qed.

(** The slot of [dep] after the first statement of the loop body. *)
Lemma slot_is_ready (dep : string) (acc : list (string * value)) :
  Files.all_lists acc ->
  let acc1 :=
    if Js.truthy (Js.obj_get dep acc) then acc else Js.obj_set dep (VArr []) acc in
  Files.all_lists acc1 /\ Files.extends acc acc1 /\ exists l, Js.obj_get dep acc1 = VArr l.
Proof.
  intros Hacc. simpl. destruct (Js.truthy (Js.obj_get dep acc)) eqn:Ht.
  - split; [exact Hacc|]. split; [apply extends_refl|].
    destruct (Hacc dep) as [H|H]; [|exact H]. rewrite H in Ht. discriminate Ht.
  - split; [apply set_list_all_lists; exact Hacc|]. split.
    + apply (set_list_extends dep [] []). left. split; [|reflexivity].
      destruct (Hacc dep) as [H|[l H]]; [exact H|].
      rewrite H in Ht. discriminate Ht.
    + exists []. apply obj_get_set.
Qed.

Lemma push_dep_records (acc : list (string * value)) (dep t : string) (v : value)
  (l : list value) :
  Files.all_lists acc ->
  Js.obj_get dep acc = VArr l ->
  Files.all_lists (Files.push_dep acc dep t v)
  /\ Files.extends acc (Files.push_dep acc dep t v)
  /\ Js.obj_get dep (Files.push_dep acc dep t v)
     = VArr (l ++ [VObj [("type", VStr t); ("version", v)]]).
Proof.
  intros Hacc Hl. unfold Files.push_dep. rewrite Hl. split; [|split].
  - apply set_list_all_lists. exact Hacc.
  - apply set_list_extends. right. exact Hl.
  - apply obj_get_set.
Qed.

Lemma keyDeps_entry_records (t : string) (acc acc' : list (string * value))
  (entry : string * value) :
  Files.all_lists acc ->
  Files.keyDeps_entry t acc entry = Ok acc' ->
  Files.all_lists acc' /\ Files.extends acc acc' /\ Files.recorded t entry acc'.
Proof.
  intros Hacc. destruct entry as [dep ver]. unfold Files.keyDeps_entry.
  destruct (slot_is_ready dep acc Hacc) as (H1 & Hext & l & Hl).
  simpl in H1, Hext, Hl.
  set (acc1 := if Js.truthy (Js.obj_get dep acc) then acc
               else Js.obj_set dep (VArr []) acc) in *.
  assert (Hskip : (forall s, ver <> VStr s) ->
                  (forall em, ver = VObj em ->
                              Js.truthy (Js.obj_get "version" em) = false) ->
                  Files.all_lists acc1 /\ Files.extends acc acc1
                  /\ Files.recorded t (dep, ver) acc1).
  { intros Hs Ho. split; [exact H1|]. split; [exact Hext|].
    exists l. split; [exact Hl|]. split.
    - intros s Hv. exfalso. exact (Hs s Hv).
    - intros em Hv Ht. simpl in Hv. rewrite (Ho em Hv) in Ht. discriminate Ht. }
  assert (Hpush : forall v,
             (forall s, ver = VStr s -> v = VStr s) ->
             (forall em, ver = VObj em -> v = Js.obj_get "version" em) ->
             Files.all_lists (Files.push_dep acc1 dep t v)
             /\ Files.extends acc (Files.push_dep acc1 dep t v)
             /\ Files.recorded t (dep, ver) (Files.push_dep acc1 dep t v)).
  { intros v Hs Ho.
    destruct (push_dep_records acc1 dep t v l H1 Hl) as (P1 & P2 & P3).
    split; [exact P1|]. split; [exact (extends_trans _ _ _ Hext P2)|].
    exists (l ++ [VObj [("type", VStr t); ("version", v)]]).
    split; [exact P3|]. split.
    - intros s Hv. simpl in Hv. rewrite <- (Hs s Hv).
      apply elem_of_app. right. left.
    - intros em Hv _. simpl in Hv. rewrite <- (Ho em Hv).
      apply elem_of_app. right. left. }
  destruct ver as [| |b|n e|s|items|members]; simpl.
  - intros [= <-]. apply Hskip; discriminate.
  - discriminate.
  - intros [= <-]. apply Hskip; discriminate.
  - intros [= <-]. apply Hskip; discriminate.
  - intros [= <-]. apply Hpush; [intros s0 [= ->]; reflexivity|discriminate].
  - first [ destruct (Js.truthy (Js.arr_get "version" items)); intros [= <-];
            [apply Hpush|apply Hskip]; discriminate
          | intros [= <-]; apply Hskip; discriminate ].
  - destruct (Js.truthy (Js.obj_get "version" members)) eqn:Ht; intros [= <-].
    + apply Hpush; [discriminate|intros em [= ->]; reflexivity].
    + apply Hskip; [discriminate|intros em [= <-]; exact Ht].
Qed.

Lemma foldM_records {A B} (f : A -> B -> result A)
  (I : A -> Prop) (R : A -> A -> Prop) (Q : B -> A -> Prop) :
  (forall a, R a a) ->
  (forall a b c, R a b -> R b c -> R a c) ->
  (forall b a a', Q b a -> R a a' -> Q b a') ->
  (forall acc b acc', I acc -> f acc b = Ok acc' -> I acc' /\ R acc acc' /\ Q b acc') ->
  forall l acc acc',
    I acc -> Files.foldM f acc l = Ok acc' ->
    I acc' /\ R acc acc' /\ forall b, b ∈ l -> Q b acc'.
Proof.
  intros Hrefl Htrans Hstable Hstep.
  induction l as [|b r IH]; intros acc acc' HI H; simpl in H.
  - injection H as <-. split; [exact HI|]. split; [apply Hrefl|].
    intros b Hb. inversion Hb.
  - apply bind_ok in H as (acc1 & H1 & H).
    destruct (Hstep _ _ _ HI H1) as (I1 & R1 & Q1).
    destruct (IH _ _ I1 H) as (I2 & R2 & Q2).
    split; [exact I2|]. split; [exact (Htrans _ _ _ R1 R2)|].
    intros b0 Hb0. apply elem_of_cons in Hb0 as [-> | Hb0].
    + exact (Hstable _ _ _ Q1 R2).
    + exact (Q2 _ Hb0).
Qed.

Lemma keyDeps_type_records (m acc acc' : list (string * value)) (t : string) :
  Files.all_lists acc ->
  Files.keyDeps_type (VObj m) acc t = Ok acc' ->
  Files.all_lists acc' /\ Files.extends acc acc'
  /\ forall entry, entry ∈ Files.entries (Js.obj_get t m) -> Files.recorded t entry acc'.
Proof.
  intros Hacc. unfold Files.keyDeps_type. cbn [Js.get mbind result_bind].
  destruct (_ && _) eqn:Htable.
  - apply (foldM_records (Files.keyDeps_entry t) Files.all_lists Files.extends (Files.recorded t)).
    + apply extends_refl.
    + apply extends_trans.
    + intros b a a'. apply recorded_extends.
    + intros a b a'. apply keyDeps_entry_records.
    + exact Hacc.
  - intros [= <-]. split; [exact Hacc|]. split; [apply extends_refl|].
    intros entry Hin. apply entries_of_table in Hin. congruence.
Qed.

(** X6: When [keyDeps] returns for a document whose dependencies have
    ordinary names, the object it returns has a list
    under the name of every dependency found in one of the three tables;
    for a dependency given by a string the list holds the record of that
    string with the table's name, and for one given by an object with a
    version the record of that version. *)
Theorem keyDeps_records_every_dependency
  (m : list (string * value)) (keyed : value) :
  (forall t dep ver,
     t ∈ Files.depTypes -> (dep, ver) ∈ Files.entries (Js.obj_get t m) ->
     dep ∉ Js.inherited) ->
  Files.keyDeps (VObj m) = Ok keyed ->
  forall t dep ver,
    t ∈ Files.depTypes ->
    (dep, ver) ∈ Files.entries (Js.obj_get t m) ->
    exists l,
      Js.get keyed dep = Ok (VArr l)
      /\ (forall s, ver = VStr s ->
          VObj [("type", VStr t); ("version", VStr s)] ∈ l)
      /\ (forall em, ver = VObj em ->
          Js.truthy (Js.obj_get "version" em) = true ->
          VObj [("type", VStr t); ("version", Js.obj_get "version" em)] ∈ l).
Proof.
  unfold Files.keyDeps. intros _ H t dep ver Ht Hin.
  apply bind_ok in H as (acc & Hfold & H). injection H as <-.
  apply (foldM_records (Files.keyDeps_type (VObj m)) Files.all_lists Files.extends
           (fun t acc => forall entry, entry ∈ Files.entries (Js.obj_get t m) ->
                                       Files.recorded t entry acc)) in Hfold.
  - destruct Hfold as (_ & _ & Hall).
    destruct (Hall t Ht (dep, ver) Hin) as (l & Hl & Hs & Ho).
    exists l. simpl in Hl. cbn [Js.get]. rewrite Hl. auto.
  - apply extends_refl.
  - apply extends_trans.
  - intros t0 a a' HQ HR entry Hentry. exact (recorded_extends _ _ _ _ (HQ _ Hentry) HR).
  - intros a t0 a'. apply keyDeps_type_records.
  - intros k. left. reflexivity.
Qed.

End KeyedDependencies.

Lemma ordinary_name (dep : string) :
  existsb (String.eqb dep) Js.inherited = false -> dep ∉ Js.inherited.
Proof.
  intros H Hin. apply not_true_iff_false in H. apply H.
  apply existsb_exists. exists dep. split; [|apply String.eqb_refl].
  apply list_elem_of_In. exact Hin.
Qed.

Lemma pinned_twice_names (t dep : string) (ver : value) :
  t ∈ Files.depTypes ->
  (dep, ver) ∈ Files.entries (Js.obj_get t Fixture.pinned_twice) ->
  dep ∉ Js.inherited.
Proof.
  intros Ht Hin. unfold Files.depTypes in Ht.
  assert (Hdep : dep = "left-pad").
  { repeat (apply elem_of_cons in Ht as [->|Ht]); try (inversion Ht; fail);
      cbn in Hin;
      repeat (apply elem_of_cons in Hin as [Hin|Hin]; [congruence|]);
      inversion Hin. }
  subst dep. apply ordinary_name. reflexivity.
Qed.

Lemma null_dependency_names (t dep : string) (ver : value) :
  t ∈ Files.depTypes ->
  (dep, ver) ∈ Files.entries (Js.obj_get t Fixture.null_dependency) ->
  dep ∉ Js.inherited.
Proof.
  intros Ht Hin. unfold Files.depTypes in Ht.
  assert (Hdep : dep = "left-pad").
  { repeat (apply elem_of_cons in Ht as [->|Ht]); try (inversion Ht; fail);
      cbn in Hin;
      repeat (apply elem_of_cons in Hin as [Hin|Hin]; [congruence|]);
      inversion Hin. }
  subst dep. apply ordinary_name. reflexivity.
Qed.

(** Witness for [keyDeps_fails_exactly_on_a_null_entry]: a dependency
    whose entry is [null]. *)
Lemma keyDeps_fails_exactly_on_a_null_entry_witness :
  exists e, Files.keyDeps (VObj Fixture.null_dependency) = Throw e.
Proof.
  apply (proj2 (proj1 (keyDeps_fails_exactly_on_a_null_entry Fixture.null_dependency
                         null_dependency_names))).
  exists "dependencies", "left-pad". split.
  - unfold Files.depTypes. left.
  - cbn. left.
Defined.

(** Witness for [keyDeps_records_every_dependency]: a dependency that is
    pinned by a string in one table and by an object in another. *)
Lemma keyDeps_records_every_dependency_witness :
  exists l,
    Js.get (VObj [("left-pad",
                   VArr [VObj [("type", VStr "dependencies"); ("version", VStr "^1.3.0")];
                         VObj [("type", VStr "devDependencies"); ("version", VStr "2.0.0")]])])
      "left-pad" = Ok (VArr l)
    /\ VObj [("type", VStr "devDependencies"); ("version", VStr "2.0.0")] ∈ l.
Proof.
  destruct (keyDeps_records_every_dependency Fixture.pinned_twice _
              pinned_twice_names eq_refl
              "devDependencies" "left-pad"
              (VObj [("version", VStr "2.0.0"); ("path", VStr "../left-pad")])
              ltac:(vm_compute; set_solver) ltac:(vm_compute; set_solver))
    as (l & Hl & _ & Ho).
  exists l. split; [exact Hl|]. exact (Ho _ eq_refl eq_refl).
Defined.

(** ** The version of a dependency *)

Section DependencyVersions.

Lemma eqb_neq (a b : string) : a <> b -> String.eqb a b = false.
Proof.
  intros H. destruct (String.eqb a b) eqn:E; [|reflexivity].
  apply String.eqb_eq in E. congruence.
Qed.

Lemma table_names (property : string) :
  property ∈ Files.depTypes ->
  String.eqb property "version" = false
  /\ String.eqb property "dependencies" || String.eqb property "devDependencies"
     || String.eqb property "dev-dependencies" = true.
Proof.
  unfold Files.depTypes. intros H.
  repeat (apply elem_of_cons in H as [-> | H]); [split; reflexivity..|].
  inversion H.
Qed.

(** The three dependency branches of the getter, and those of the setter,
    are the one branch applied to the table asked for. *)
Lemma get_dependency (p : Files.PackageFile) (property : string) (dep : option string) :
  Files.present p = true ->
  property ∈ Files.depTypes ->
  Files.getPackageFileVersion p property dep
  = Files.getDependencyVersion p property (Files.dependency_word property) dep.
Proof.
  intros Hp H. unfold Files.getPackageFileVersion. rewrite Hp.
  unfold Files.depTypes in H.
  repeat (apply elem_of_cons in H as [-> | H]); [reflexivity..|]. inversion H.
Qed.

Lemma set_dependency (p : Files.PackageFile) (ver property : string)
  (dep : option string) :
  Files.present p = true ->
  property ∈ Files.depTypes ->
  Files.setPackageFileVersion p ver property dep
  = Files.setDependencyVersion p ver property dep.
Proof.
  intros Hp H. unfold Files.setPackageFileVersion. rewrite Hp.
  destruct (table_names property H) as [-> ->]. reflexivity.
Qed.

Lemma set_dependency_result (p : Files.PackageFile) (f : Files.File)
  (property dep ver : string) (m table : list (string * value)) :
  Files.file p = Some f ->
  property ∈ Files.depTypes ->
  dep <> EmptyString ->
  Files.pkg (Files.minimum p) = VObj m ->
  Js.obj_get property m = VObj table ->
  Js.obj_get dep table <> VNull ->
  (forall items, Js.obj_get dep table <> VArr items) ->
  Files.setPackageFileVersion p ver property (Some dep)
  = Ok (Files.with_pkg p
          (VObj (Js.obj_replace property
                   (VObj (Js.obj_set dep (Files.pinned (Js.obj_get dep table) ver) table)) m))).
Proof.
  intros Hfile Hprop Hdep Hpkg Htable Hnull Harr.
  assert (Hp : Files.present p = true).
  { unfold Files.present. rewrite Hfile, Hpkg. reflexivity. }
  rewrite (set_dependency _ _ _ _ Hp Hprop).
  unfold Files.setDependencyVersion. rewrite Hpkg.
  cbn [Js.get mbind result_bind]. rewrite Htable.
  apply is_empty_false in Hdep. cbn [Files.absent Js.truthy]. rewrite Hdep.
  change (default EmptyString (Some dep)) with dep.
  cbn [negb orb mbind result_bind Js.get].
  assert (Hhas : Js.obj_has property m = true).
  { apply obj_get_has. rewrite Htable. discriminate. }
  destruct (Js.obj_get dep table) as [| |b|n e|s|items|em] eqn:Hentry;
    cbn [Js.is_object Js.typeof Js.set mbind result_bind Files.pinned];
    try (rewrite (obj_set_present _ _ _ Hhas); reflexivity).
  - exfalso. exact (Hnull eq_refl).
  - exfalso. exact (Harr items eq_refl).
Qed.

(** X7: After the version of a dependency has been set in one of the
    three tables, the getter returns that version for it: whether the
    dependency was given by a string, by an object, or was not in the
    table at all, in which case the setter adds it.  The name of the
    dependency is not [__proto__], and its entry neither [null] nor an
    array. *)
Theorem dependency_version_set_then_get
  (p : Files.PackageFile) (f : Files.File) (property dep ver : string)
  (m table : list (string * value)) :
  Files.file p = Some f ->
  property ∈ Files.depTypes ->
  dep <> EmptyString ->
  dep <> "__proto__" ->
  ver <> EmptyString ->
  Files.pkg (Files.minimum p) = VObj m ->
  Js.obj_get property m = VObj table ->
  Js.obj_get dep table <> VNull ->
  (forall items, Js.obj_get dep table <> VArr items) ->
  exists p',
    Files.setPackageFileVersion p ver property (Some dep) = Ok p'
    /\ Files.getPackageFileVersion p' property (Some dep) = Ok (VStr ver).
Proof.
  intros Hfile Hprop Hdep _ Hver Hpkg Htable Hnull Harr.
  eexists. split.
  { exact (set_dependency_result p f property dep ver m table
             Hfile Hprop Hdep Hpkg Htable Hnull Harr). }
  assert (Hhas : Js.obj_has property m = true).
  { apply obj_get_has. rewrite Htable. discriminate. }
  rewrite get_dependency; [|unfold Files.present; simpl; rewrite Hfile; reflexivity|exact Hprop].
  unfold Files.getDependencyVersion.
  cbn [Files.with_pkg Files.minimum Files.pkg Files.name Js.get mbind result_bind].
  rewrite obj_get_replace by exact Hhas.
  apply is_empty_false in Hdep, Hver.
  cbn [Files.absent Js.truthy]. rewrite Hdep.
  change (default EmptyString (Some dep)) with dep.
  cbn [negb orb mbind result_bind Js.get].
  rewrite obj_get_set.
  destruct (Js.obj_get dep table) as [| |b|n e|s|items|em]; cbn [Files.pinned];
    try reflexivity.
  cbn [Js.is_object Js.typeof Js.get mbind result_bind].
  rewrite obj_get_set. cbn [Js.truthy]. rewrite Hver. reflexivity.
Qed.

(** X8: Setting the version of a dependency changes that dependency's
    entry and nothing else: the document keeps its keys, their order and
    every value but the table; the table keeps every other dependency; and
    an entry that is an object keeps every property but [version], while
    any other entry is replaced by the version string.  The name of the
    dependency is not [__proto__], and its entry neither [null] nor an
    array. *)
Theorem dependency_version_set_frame
  (p : Files.PackageFile) (f : Files.File) (property dep ver : string)
  (m table : list (string * value)) :
  Files.file p = Some f ->
  property ∈ Files.depTypes ->
  dep <> EmptyString ->
  dep <> "__proto__" ->
  Files.pkg (Files.minimum p) = VObj m ->
  Js.obj_get property m = VObj table ->
  Js.obj_get dep table <> VNull ->
  (forall items, Js.obj_get dep table <> VArr items) ->
  exists p' m' table',
    Files.setPackageFileVersion p ver property (Some dep) = Ok p'
    /\ Files.file p' = Files.file p /\ Files.name p' = Files.name p
    /\ Files.version (Files.minimum p') = Files.version (Files.minimum p)
    /\ Files.deps (Files.minimum p') = Files.deps (Files.minimum p)
    /\ Files.pkg (Files.minimum p') = VObj m'
    /\ map fst m' = map fst m
    /\ (forall j, j <> property -> Js.obj_get j m' = Js.obj_get j m)
    /\ Js.obj_get property m' = VObj table'
    /\ (forall d, d <> dep -> Js.obj_get d table' = Js.obj_get d table)
    /\ (forall em, Js.obj_get dep table = VObj em ->
        exists em',
          Js.obj_get dep table' = VObj em'
          /\ Js.obj_get "version" em' = VStr ver
          /\ forall k, k <> "version" -> Js.obj_get k em' = Js.obj_get k em)
    /\ (Js.is_object (Js.obj_get dep table) = false ->
        Js.obj_get dep table' = VStr ver).
Proof.
  intros Hfile Hprop Hdep _ Hpkg Htable Hnull Harr.
  assert (Hhas : Js.obj_has property m = true).
  { apply obj_get_has. rewrite Htable. discriminate. }
  exists (Files.with_pkg p
            (VObj (Js.obj_replace property
                     (VObj (Js.obj_set dep (Files.pinned (Js.obj_get dep table) ver) table))
                     m))),
         (Js.obj_replace property
            (VObj (Js.obj_set dep (Files.pinned (Js.obj_get dep table) ver) table)) m),
         (Js.obj_set dep (Files.pinned (Js.obj_get dep table) ver) table).
  split.
  { exact (set_dependency_result p f property dep ver m table
             Hfile Hprop Hdep Hpkg Htable Hnull Harr). }
  cbn [Files.with_pkg Files.file Files.name Files.minimum Files.version
       Files.deps Files.pkg].
  do 5 (split; [reflexivity|]).
  split; [|split; [|split; [|split; [|split]]]].
  - apply keys_replace.
  - intros j Hj. apply obj_get_replace_ne. exact Hj.
  - apply obj_get_replace. exact Hhas.
  - intros d Hd. apply obj_get_set_ne. exact Hd.
  - intros em Hem. rewrite obj_get_set, Hem. cbn [Files.pinned].
    eexists. split; [reflexivity|]. split.
    + apply obj_get_set.
    + intros k Hk. apply obj_get_set_ne. exact Hk.
  - intros Hobj. rewrite obj_get_set.
    destruct (Js.obj_get dep table); try reflexivity; discriminate Hobj.
Qed.

(** X9: Where there is nothing to address, the setter returns the
    package file as it is and the getter returns the empty string:
    a package file without its file or document, a property that is
    neither [version] nor one of the three tables, a table asked for
    without a dependency name, or a table the document does not have. *)
Theorem nothing_to_address
  (p : Files.PackageFile) (ver property : string) (dep : option string) :
  Files.present p = false
  \/ (property <> "version" /\ property ∉ Files.depTypes)
  \/ (property ∈ Files.depTypes /\ Files.absent dep = true)
  \/ (property ∈ Files.depTypes
      /\ exists table, Js.get (Files.pkg (Files.minimum p)) property = Ok table
                       /\ Js.truthy table = false) ->
  Files.setPackageFileVersion p ver property dep = Ok p
  /\ Files.getPackageFileVersion p property dep = Ok (VStr EmptyString).
Proof.
  intros H.
  destruct (Files.present p) eqn:Hp;
    [|unfold Files.setPackageFileVersion, Files.getPackageFileVersion;
      rewrite Hp; split; reflexivity].
  destruct H as [H|[[Hv Hd]|[[Hprop Hdep]|[Hprop (table & Htable & Hfalsy)]]]].
  - discriminate H.
  - unfold Files.setPackageFileVersion, Files.getPackageFileVersion. rewrite Hp.
    rewrite (eqb_neq _ _ Hv).
    assert (Hd1 : String.eqb property "dependencies" = false).
    { apply eqb_neq. intros ->. apply Hd. unfold Files.depTypes. set_solver. }
    assert (Hd2 : String.eqb property "devDependencies" = false).
    { apply eqb_neq. intros ->. apply Hd. unfold Files.depTypes. set_solver. }
    assert (Hd3 : String.eqb property "dev-dependencies" = false).
    { apply eqb_neq. intros ->. apply Hd. unfold Files.depTypes. set_solver. }
    rewrite Hd1, Hd2, Hd3. split; reflexivity.
  - rewrite set_dependency, get_dependency by assumption.
    unfold Files.setDependencyVersion, Files.getDependencyVersion.
    assert (Hpkg : Js.truthy (Files.pkg (Files.minimum p)) = true).
    { unfold Files.present in Hp. destruct (Files.file p); [exact Hp|discriminate Hp]. }
    destruct (get_of_truthy _ property Hpkg) as [table ->].
    cbn [mbind result_bind]. rewrite Hdep. split; reflexivity.
  - rewrite set_dependency, get_dependency by assumption.
    unfold Files.setDependencyVersion, Files.getDependencyVersion.
    rewrite Htable. cbn [mbind result_bind]. rewrite Hfalsy.
    cbn [negb]. rewrite orb_true_r. split; reflexivity.
Qed.

End DependencyVersions.

(** Witness for [dependency_version_set_then_get]: a development
    dependency given by an object. *)
Lemma dependency_version_set_then_get_witness :
  exists p',
    Files.setPackageFileVersion Fixture.with_deps "3.0.0" "devDependencies"
      (Some "left-pad") = Ok p'
    /\ Files.getPackageFileVersion p' "devDependencies" (Some "left-pad")
       = Ok (VStr "3.0.0").
Proof.
  apply (dependency_version_set_then_get Fixture.with_deps
           {| Files.content := "{}"; Files.path := "package.json";
              Files.filename := "package"; Files.extname := ".json" |}
           "devDependencies" "left-pad" "3.0.0" Fixture.pinned_twice
           [("left-pad", VObj [("version", VStr "2.0.0"); ("path", VStr "../left-pad")])]).
  - reflexivity.
  - vm_compute. set_solver.
  - discriminate.
  - discriminate.
  - discriminate.
  - reflexivity.
  - reflexivity.
  - vm_compute. discriminate.
  - intros items. vm_compute. discriminate.
Defined.

(** Witness for [dependency_version_set_frame]: the same dependency; the
    path it is found at is kept. *)
Lemma dependency_version_set_frame_witness :
  exists p' m' table' em',
    Files.setPackageFileVersion Fixture.with_deps "3.0.0" "devDependencies"
      (Some "left-pad") = Ok p'
    /\ Files.pkg (Files.minimum p') = VObj m'
    /\ Js.obj_get "dependencies" m' = VObj [("left-pad", VStr "^1.3.0")]
    /\ Js.obj_get "devDependencies" m' = VObj table'
    /\ Js.obj_get "left-pad" table' = VObj em'
    /\ Js.obj_get "path" em' = VStr "../left-pad".
Proof.
  destruct (dependency_version_set_frame Fixture.with_deps
              {| Files.content := "{}"; Files.path := "package.json";
                 Files.filename := "package"; Files.extname := ".json" |}
              "devDependencies" "left-pad" "3.0.0" Fixture.pinned_twice
              [("left-pad", VObj [("version", VStr "2.0.0"); ("path", VStr "../left-pad")])]
              eq_refl ltac:(vm_compute; set_solver) ltac:(discriminate)
              ltac:(discriminate)
              eq_refl eq_refl ltac:(vm_compute; discriminate)
              ltac:(intros items; vm_compute; discriminate))
    as (p' & m' & table' & Hset & _ & _ & _ & _ & Hpkg & _ & Hother & Htable & _ & Hentry & _).
  destruct (Hentry _ eq_refl) as (em' & Hem' & _ & Hkeep).
  exists p', m', table', em'.
  split; [exact Hset|]. split; [exact Hpkg|].
  split; [rewrite Hother by discriminate; reflexivity|].
  split; [exact Htable|]. split; [exact Hem'|].
  rewrite Hkeep by discriminate. reflexivity.
Defined.

(** Witness for [nothing_to_address]: a table asked for without a
    dependency name. *)
Lemma nothing_to_address_witness :
  Files.setPackageFileVersion Fixture.with_deps "3.0.0" "dependencies" None
  = Ok Fixture.with_deps
  /\ Files.getPackageFileVersion Fixture.with_deps "dependencies" None
     = Ok (VStr EmptyString).
Proof.
  apply nothing_to_address. right. right. left.
  split; [vm_compute; set_solver|reflexivity].
Defined.

(** ** Writing and removing files *)

Section DiskFacts.

Variable path_join : string -> string -> string.
Variable posix_join : string -> string -> string.
Variable posix_relative : string -> string -> string.
Variable parse_name : string -> string.
Variable parse_ext : string -> string.
Variable TOML_parse : string -> result value.
Variable TOML_stringify : value -> result string.
Variable YAML_load : string -> result value.
Variable YAML_dump : value -> result string.

Local Abbreviation loadFile :=
  (Files.loadFile path_join posix_join posix_relative parse_name parse_ext).
Local Abbreviation writePkgFile :=
  (Files.writePkgFile path_join TOML_stringify YAML_dump).
Local Abbreviation stringifyPkg := (Files.stringifyPkg TOML_stringify YAML_dump).
Local Abbreviation changeFilesRemove := (Files.changeFilesRemove posix_join).
Local Abbreviation loadChangeFiles :=
  (Files.loadChangeFiles path_join posix_join posix_relative parse_name parse_ext).

(** X10: A package file that carries its file and whose document
    serializes to a string is written under the file's path: the file
    returned is the old one with the new text, reading that path again
    gives the text, and no other path of the disk has changed. *)
Theorem written_package_file_loads_back
  (disk : gmap string string) (p : Files.PackageFile) (cwd : string)
  (f : Files.File) (text : string) :
  Files.file p = Some f ->
  stringifyPkg (Files.pkg (Files.minimum p)) (Files.extname f) = Ok (VStr text) ->
  exists disk' loaded,
    writePkgFile disk p cwd = (Ok (Files.with_content f text), disk')
    /\ loadFile disk' (Files.path f) cwd = Ok loaded
    /\ Files.content loaded = text
    /\ forall q, q <> path_join cwd (Files.path f) -> disk' !! q = disk !! q.
Proof.
  intros Hf Hs. unfold Files.writePkgFile. rewrite Hf, Hs.
  unfold Files.saveFile. cbn [Files.path Files.content].
  eexists _, _. split; [reflexivity|]. split; [|split].
  - unfold Files.loadFile. rewrite lookup_insert_eq. cbn. reflexivity.
  - reflexivity.
  - intros q Hq. apply lookup_insert_ne. congruence.
Qed.

(** X11: A package file that cannot be written leaves the disk as it
    was: without its file, [writePkgFile] throws the error that names the
    package; and when the document cannot be serialized, it throws what the
    serializer has thrown. *)
Theorem failed_write_changes_nothing
  (disk : gmap string string) (p : Files.PackageFile) (cwd : string) :
  (Files.file p = None ->
   writePkgFile disk p cwd
   = (Throw (Error ("no vfile present for " +:+ Files.show_name (Files.name p))), disk))
  /\ (forall f e,
        Files.file p = Some f ->
        stringifyPkg (Files.pkg (Files.minimum p)) (Files.extname f) = Throw e ->
        writePkgFile disk p cwd = (Throw e, disk)).
Proof.
  unfold Files.writePkgFile. split.
  - intros ->. reflexivity.
  - intros f e -> ->. reflexivity.
Qed.

Lemma unlink_lookup (disk : gmap string string) (p q : string) :
  snd (Files.unlink disk p) !! q = if decide (q = p) then None else disk !! q.
Proof.
  unfold Files.unlink. destruct (disk !! p) eqn:E; cbn [snd].
  - destruct (decide (q = p)) as [->|Hne].
    + apply lookup_delete_eq.
    + apply lookup_delete_ne. congruence.
  - destruct (decide (q = p)) as [->|Hne]; [exact E|reflexivity].
Qed.

Lemma changeFilesRemove_spec
  (paths : list string) (cwd : string) (disk : gmap string string) :
  (forall q,
     snd (changeFilesRemove disk cwd paths) !! q
     = if decide (q ∈ map (posix_join cwd) paths) then None else disk !! q)
  /\ (fst (changeFilesRemove disk cwd paths) = Ok ()
      <-> NoDup (map (posix_join cwd) paths)
          /\ forall q, q ∈ map (posix_join cwd) paths -> is_Some (disk !! q)).
Proof.
  revert disk. induction paths as [|a rest IH]; intros disk.
  - cbn. split.
    + intros q. destruct (decide _) as [H|H]; [inversion H|reflexivity].
    + split; [intros _; split; [constructor|intros q H; inversion H]|reflexivity].
  - cbn [Files.changeFilesRemove map].
    pose proof (unlink_lookup disk (posix_join cwd a)) as Hone.
    destruct (Files.unlink disk (posix_join cwd a)) as [r disk1] eqn:Hunlink.
    cbn [snd] in Hone.
    destruct (IH disk1) as [IHdisk IHok].
    destruct (changeFilesRemove disk1 cwd rest) as [rs disk2] eqn:Hrest.
    cbn [fst snd] in *. split.
    + intros q. rewrite IHdisk, Hone.
      destruct (decide (q ∈ map (posix_join cwd) rest)) as [Hin|Hout].
      * rewrite decide_True by (right; exact Hin). reflexivity.
      * destruct (decide (q = posix_join cwd a)) as [->|Hne].
        -- rewrite decide_True by left. reflexivity.
        -- rewrite decide_False; [reflexivity|].
           intros H. apply elem_of_cons in H as [H|H]; contradiction.
    + assert (Hr : r = Ok () <-> is_Some (disk !! posix_join cwd a)).
      { unfold Files.unlink in Hunlink.
        destruct (disk !! posix_join cwd a); injection Hunlink as <- <-;
          split; eauto; try discriminate.
        intros [x Hx]. discriminate Hx. }
      split.
      * intros Hok. destruct r as [[]|e]; [|discriminate Hok].
        cbn in Hok. apply IHok in Hok as [Hnodup Hall].
        assert (Hnotin : posix_join cwd a ∉ map (posix_join cwd) rest).
        { intros Hin. destruct (Hall _ Hin) as [x Hx].
          rewrite Hone, decide_True in Hx by reflexivity. discriminate Hx. }
        split; [constructor; assumption|].
        intros q Hq. apply elem_of_cons in Hq as [->|Hq].
        -- apply Hr. reflexivity.
        -- destruct (Hall _ Hq) as [x Hx]. rewrite Hone in Hx.
           destruct (decide _); [discriminate Hx|eauto].
      * intros [Hnodup Hall]. apply NoDup_cons in Hnodup as [Hnotin Hnodup].
        assert (Hra : r = Ok ()) by (apply Hr, Hall; left).
        rewrite Hra. cbn. apply IHok. split; [exact Hnodup|].
        intros q Hq. rewrite Hone.
        destruct (decide (q = posix_join cwd a)) as [->|Hne]; [contradiction|].
        apply Hall. right. exact Hq.
Qed.

(** X12: [changeFilesRemove] removes every path it is given, whether or
    not it rejects, and leaves every other path alone; it resolves exactly
    when every path was there and none is listed twice. *)
Theorem changeFilesRemove_removes_all
  (paths : list string) (cwd : string) (disk : gmap string string) :
  (forall q,
     snd (changeFilesRemove disk cwd paths) !! q
     = if decide (q ∈ map (posix_join cwd) paths) then None else disk !! q)
  /\ (fst (changeFilesRemove disk cwd paths) = Ok ()
      <-> NoDup (map (posix_join cwd) paths)
          /\ forall q, q ∈ map (posix_join cwd) paths -> is_Some (disk !! q)).
Proof. exact (changeFilesRemove_spec paths cwd disk). Qed.

Lemma all_ok {A B} (f : A -> result B) (l : list A) (bs : list B) :
  Files.all f l = Ok bs <-> Forall2 (fun a b => f a = Ok b) l bs.
Proof.
  revert bs. induction l as [|a rest IH]; intros bs; cbn.
  - split; [intros [= <-]; constructor|]. intros H. inversion H. reflexivity.
  - split.
    + intros H. apply bind_ok in H as (b & Hb & H).
      apply bind_ok in H as (bs' & Hbs & H). injection H as <-.
      constructor; [exact Hb|]. apply IH. exact Hbs.
    + intros H. inversion H as [|a0 b l0 bs' Hb Hbs]; subst.
      rewrite Hb. cbn. apply IH in Hbs. rewrite Hbs. reflexivity.
Qed.

Lemma all_throws {A B} (f : A -> result B) (l : list A) :
  (exists e, Files.all f l = Throw e) <-> exists a, a ∈ l /\ exists e, f a = Throw e.
Proof.
  induction l as [|a rest IH]; cbn.
  - split; [intros [e H]; discriminate H|]. intros (a & H & _). inversion H.
  - destruct (f a) as [b|e] eqn:E; cbn.
    + destruct (Files.all f rest) as [bs|e'] eqn:Erest; cbn.
      * split; [intros [e H]; discriminate H|].
        intros (a0 & Hin & e & He). apply elem_of_cons in Hin as [->|Hin];
          [congruence|].
        destruct (proj2 IH (ex_intro _ a0 (conj Hin (ex_intro _ e He)))) as [e1 H1].
        discriminate H1.
      * split; [|eauto]. intros _.
        destruct (proj1 IH (ex_intro _ e' eq_refl)) as (a0 & Hin & He).
        exists a0. split; [right; exact Hin|exact He].
    + split; [|eauto]. intros _. exists a. split; [left|eauto].
Qed.

(** X13: [loadChangeFiles] fails exactly when one of the paths is not on
    the disk; otherwise it returns one file per path, in the order of the
    paths, each with the text stored under its path and the name and
    extension of that path. *)
Theorem loadChangeFiles_reads_every_path
  (disk : gmap string string) (cwd : string) (paths : list string) :
  ((exists e, loadChangeFiles disk cwd paths = Throw e)
   <-> exists f, f ∈ paths /\ disk !! path_join cwd f = None)
  /\ forall files,
       loadChangeFiles disk cwd paths = Ok files ->
       Forall2 (fun f file =>
                  disk !! path_join cwd f = Some (Files.content file)
                  /\ Files.filename file = parse_name f
                  /\ Files.extname file = parse_ext f)
               paths files.
Proof.
  unfold Files.loadChangeFiles. split.
  - rewrite all_throws. split.
    + intros (f & Hin & e & He). exists f. split; [exact Hin|].
      unfold Files.loadFile in He.
      destruct (disk !! path_join cwd f); [discriminate He|reflexivity].
    + intros (f & Hin & Hnone). exists f. split; [exact Hin|].
      unfold Files.loadFile. rewrite Hnone. cbn. eauto.
  - intros files H. apply all_ok in H.
    eapply Forall2_impl; [exact H|].
    intros f file Hload. cbn in Hload. unfold Files.loadFile in Hload.
    destruct (disk !! path_join cwd f) as [text|]; [|discriminate Hload].
    cbn in Hload. injection Hload as <-. cbn. auto.
Qed.

(** X14: Change files that have been removed cannot be loaded again:
    where the two ways of joining paths agree, as they do on a POSIX
    system, loading the paths just handed to [changeFilesRemove] fails,
    whether or not the removal itself has failed. *)
Theorem removed_change_files_cannot_be_loaded
  (disk : gmap string string) (cwd : string) (paths : list string) :
  (forall a b, path_join a b = posix_join a b) ->
  paths <> [] ->
  exists e,
    loadChangeFiles (snd (changeFilesRemove disk cwd paths)) cwd paths = Throw e.
Proof.
  intros Hjoin Hpaths. destruct paths as [|f rest]; [contradiction|].
  unfold Files.loadChangeFiles. apply all_throws.
  exists f. split; [left|]. unfold Files.loadFile.
  rewrite (proj1 (changeFilesRemove_spec (f :: rest) cwd disk)).
  rewrite decide_True; [cbn; eauto|].
  rewrite Hjoin. left.
Qed.

Local Abbreviation readChangelog :=
  (Files.readChangelog path_join posix_join posix_relative parse_name parse_ext).
Local Abbreviation writeChangelog := (Files.writeChangelog path_join).

(** X27: A package without a changelog gets one that starts with the
    header: asked to create, [readChangelog] hands out the header under
    the package's CHANGELOG.md, and not asked to, nothing; once
    [writeChangelog] has written what was handed out, reading the
    changelog again loads the header from the disk, asked to create or
    not, and no other path of the disk has changed. *)
Theorem started_changelog_is_read_back
  (disk : gmap string string) (cwd packagePath : string) :
  disk !! path_join cwd (path_join packagePath "CHANGELOG.md") = None ->
  exists changelog,
    fst (readChangelog disk cwd packagePath true) = Some changelog
    /\ Files.changelog_content changelog = Files.changelog_header
    /\ fst (readChangelog disk cwd packagePath false) = None
    /\ (forall create,
          exists f,
            readChangelog (snd (writeChangelog disk changelog cwd)) cwd packagePath create
            = (Some (Files.LoadedChangelog f), [])
            /\ Files.content f = Files.changelog_header)
    /\ forall q,
         q <> path_join cwd (path_join packagePath "CHANGELOG.md") ->
         snd (writeChangelog disk changelog cwd) !! q = disk !! q.
Proof.
  intros Hnone. unfold Files.readChangelog, Files.loadFile. rewrite Hnone.
  cbn [of_option mbind result_bind fst].
  eexists. split; [reflexivity|]. split; [reflexivity|]. split; [reflexivity|].
  unfold Files.writeChangelog. cbn [snd Files.changelog_path Files.changelog_content].
  split.
  - intros create. rewrite lookup_insert_eq. cbn. eexists. split; reflexivity.
  - intros q Hq. apply lookup_insert_ne. congruence.
Qed.

End DiskFacts.

(** ** Every manifest of the workspace *)

Section AllManifests.

Variable path_join : string -> string -> string.
Variable posix_join : string -> string -> string.
Variable posix_relative : string -> string -> string.
Variable parse_name : string -> string.
Variable parse_ext : string -> string.
Variable TOML_parse : string -> result value.
Variable YAML_load : string -> result value.

Local Abbreviation readPkgFile :=
  (Files.readPkgFile path_join posix_join posix_relative parse_name parse_ext
     TOML_parse YAML_load).
Local Abbreviation readAllPkgFiles :=
  (Files.readAllPkgFiles path_join posix_join posix_relative parse_name parse_ext
     TOML_parse YAML_load).

Lemma readPkgFile_name (disk : gmap string string) (cwd : string)
  (f : option string) (cfg : option Files.PkgConfig) (nickname : string)
  (p : Files.PackageFile) :
  readPkgFile disk cwd f cfg nickname = Ok p -> Files.name p = Some nickname.
Proof.
  unfold Files.readPkgFile. intros H.
  apply bind_ok in H as (inputFile & _ & H).
  apply bind_ok in H as (parsed & _ & H).
  injection H as <-. reflexivity.
Qed.

(** X15: [readAllPkgFiles] fails exactly when the manifest of one of
    the configured packages cannot be read. *)
Theorem one_unreadable_manifest_fails_all
  (disk : gmap string string) (cwd : string)
  (packages : list (string * Files.PkgConfig)) :
  (exists e, readAllPkgFiles disk cwd packages = Throw e)
  <-> exists name cfg,
        (name, cfg) ∈ packages
        /\ exists e, readPkgFile disk cwd None (Some cfg) name = Throw e.
Proof.
  unfold Files.readAllPkgFiles.
  destruct (Files.all _ packages) as [pfs|e] eqn:E; cbn.
  - split; [intros [e H]; discriminate H|].
    intros (name & cfg & Hin & e & He).
    assert (Hthrows : exists e0, Files.all
              (fun entry => readPkgFile disk cwd None (Some (snd entry)) (fst entry))
              packages = Throw e0).
    { apply all_throws. exists (name, cfg). split; [exact Hin|]. cbn. eauto. }
    destruct Hthrows as [e0 He0]. congruence.
  - split; [|eauto]. intros _.
    destruct (proj1 (all_throws _ _) (ex_intro _ e E)) as ([name cfg] & Hin & He).
    exists name, cfg. split; [exact Hin|exact He].
Qed.

Local Abbreviation keep :=
  (fun (pkgs : gmap string Files.PackageFile) (p : Files.PackageFile) =>
     if Files.nonempty (Files.name p)
     then <[default EmptyString (Files.name p) := p]> pkgs
     else pkgs).

Lemma keep_lookup (acc : gmap string Files.PackageFile) (p0 : Files.PackageFile)
  (n key : string) (p : Files.PackageFile) :
  Files.name p0 = Some n ->
  acc !! n = None ->
  keep acc p0 !! key = Some p
  <-> acc !! key = Some p \/ (key <> EmptyString /\ key = n /\ p = p0).
Proof.
  intros Hname Hfree. cbv beta. rewrite Hname.
  change (default EmptyString (Some n)) with n. cbn [Files.nonempty].
  destruct (Str.is_empty n) eqn:En; cbn [negb].
  - apply is_empty_spec in En. subst n. split; [auto|].
    intros [H|(Hne & -> & _)]; [exact H|contradiction].
  - apply is_empty_false in En.
    destruct (decide (key = n)) as [->|Hne].
    + rewrite lookup_insert_eq. split.
      * intros [= ->]. auto.
      * intros [H|(_ & _ & ->)]; [congruence|reflexivity].
    + rewrite lookup_insert_ne by congruence. split; [auto|].
      intros [H|(_ & H & _)]; [exact H|contradiction].
Qed.

Lemma keyed_by_nickname (disk : gmap string string) (cwd : string)
  (packages : list (string * Files.PkgConfig)) :
  forall (pfs : list Files.PackageFile) (acc : gmap string Files.PackageFile),
    Forall2 (fun entry p => readPkgFile disk cwd None (Some (snd entry)) (fst entry) = Ok p)
            packages pfs ->
    NoDup (map fst packages) ->
    (forall k, k ∈ map fst packages -> acc !! k = None) ->
    forall key p,
      foldl keep acc pfs !! key = Some p
      <-> acc !! key = Some p
          \/ (key <> EmptyString
              /\ exists cfg, (key, cfg) ∈ packages
                             /\ readPkgFile disk cwd None (Some cfg) key = Ok p).
Proof.
  induction packages as [|[n c] rest IH]; intros pfs acc Hall Hnodup Hfree key p.
  - inversion Hall; subst. cbn. split; [auto|].
    intros [H|(_ & cfg & H & _)]; [exact H|inversion H].
  - inversion Hall as [|entry p0 l pfs' Hread Hrest]; subst.
    cbn [fst snd] in Hread. cbn [map fst] in Hnodup, Hfree.
    apply NoDup_cons in Hnodup as [Hnotin Hnodup].
    pose proof (readPkgFile_name _ _ _ _ _ _ Hread) as Hname.
    assert (Hn : acc !! n = None) by (apply Hfree; left).
    cbn [foldl]. rewrite (IH pfs' (keep acc p0) Hrest Hnodup).
    + rewrite (keep_lookup acc p0 n key p Hname Hn). split.
      * intros [[H|(Hne & -> & ->)]|(Hne & cfg & Hin & Hr)].
        -- left. exact H.
        -- right. split; [exact Hne|]. exists c. split; [left|exact Hread].
        -- right. split; [exact Hne|]. exists cfg. split; [right; exact Hin|exact Hr].
      * intros [H|(Hne & cfg & Hin & Hr)]; [left; left; exact H|].
        apply elem_of_cons in Hin as [[= -> ->]|Hin].
        -- left. right. split; [exact Hne|]. split; [reflexivity|]. congruence.
        -- right. split; [exact Hne|]. eauto.
    + intros k Hk.
      destruct (keep acc p0 !! k) as [p1|] eqn:E; [|first [reflexivity|exact E]].
      exfalso.
      apply (keep_lookup acc p0 n k p1 Hname Hn) in E as [E|(_ & -> & _)].
      * rewrite Hfree in E by (right; exact Hk). discriminate E.
      * contradiction.
Qed.

(** X16: What [readAllPkgFiles] returns is keyed by the names the
    configuration gives the packages: under a name that is not empty
    stands what [readPkgFile] has read for the package configured under
    that name, and there is nothing else; a package configured under the
    empty name is read and then dropped.  No package is configured under
    the name [__proto__]. *)
Theorem manifests_are_keyed_by_nickname
  (disk : gmap string string) (cwd : string)
  (packages : list (string * Files.PkgConfig))
  (pkgs : gmap string Files.PackageFile) :
  NoDup (map fst packages) ->
  "__proto__" ∉ map fst packages ->
  readAllPkgFiles disk cwd packages = Ok pkgs ->
  forall name p,
    pkgs !! name = Some p
    <-> name <> EmptyString
        /\ exists cfg, (name, cfg) ∈ packages
                       /\ readPkgFile disk cwd None (Some cfg) name = Ok p.
Proof.
  intros Hnodup _ H name p. unfold Files.readAllPkgFiles in H.
  apply bind_ok in H as (pfs & Hall & H). injection H as <-.
  apply all_ok in Hall.
  rewrite (keyed_by_nickname disk cwd packages pfs ∅ Hall Hnodup
             (fun k _ => lookup_empty k)).
  rewrite lookup_empty. split; [intros [H|H]; [discriminate H|exact H]|auto].
Qed.

End AllManifests.

(** ** Trying the serializer *)

Section TrySerialize.

Variable TOML_stringify : value -> result string.
Variable YAML_dump : value -> result string.

Local Abbreviation stringifyPkg := (Files.stringifyPkg TOML_stringify YAML_dump).
Local Abbreviation testSerializePkgFile :=
  (Files.testSerializePkgFile TOML_stringify YAML_dump).

(** X17: For a package file without its file, [testSerializePkgFile]
    throws an error whose message ends in "undefined": what the function
    throws inside is a string, a string has no [message], and the reason
    "no package file present" is lost.  Nothing is printed. *)
Theorem missing_file_reason_is_lost (p : Files.PackageFile) :
  Files.file p = None ->
  testSerializePkgFile p
  = (Throw (Error ("within " +:+ Files.show_name (Files.name p) +:+ " => undefined")),
     []).
Proof. unfold Files.testSerializePkgFile. intros ->. reflexivity. Qed.

(** X18: Whatever [writePkgFile] can write passes
    [testSerializePkgFile], which then returns [true] and prints nothing;
    a JSON package file with its file always passes; and whatever the test
    throws is an [Error] whose message starts with "within", the name of
    the package and "=>". *)
Theorem what_can_be_written_passes_the_test (p : Files.PackageFile) :
  (forall path_join disk cwd f' disk',
     Files.writePkgFile path_join TOML_stringify YAML_dump disk p cwd = (Ok f', disk') ->
     testSerializePkgFile p = (Ok true, []))
  /\ (forall f, Files.file p = Some f -> Files.extname f = ".json" ->
      testSerializePkgFile p = (Ok true, []))
  /\ (forall e logged,
        testSerializePkgFile p = (Throw e, logged) ->
        exists reason,
          e = Error ("within " +:+ Files.show_name (Files.name p) +:+ " => " +:+ reason)).
Proof.
  unfold Files.testSerializePkgFile, Files.writePkgFile.
  destruct (Files.file p) as [f|].
  - destruct (stringifyPkg (Files.pkg (Files.minimum p)) (Files.extname f))
      as [x|e] eqn:Hs.
    + split; [reflexivity|]. split; [reflexivity|]. discriminate.
    + split; [discriminate|]. split.
      * intros f0 [= <-] Hext. rewrite Hext in Hs. discriminate Hs.
      * intros e0 logged [= <- _]. eauto.
  - split; [discriminate|]. split; [discriminate|].
    intros e0 logged [= <- _]. eauto.
Qed.

End TrySerialize.

(** ** Package paths that name a file *)

Section FileOrDirectory.

Variable path_join : string -> string -> string.
Variable path_dirname : string -> string.
Variable path_basename : string -> string.
Variable statSync : string -> result bool.

Local Abbreviation checkPackage :=
  (Files.checkPackage path_join path_dirname path_basename statSync).
Local Abbreviation checkFileOrDirectory :=
  (Files.checkFileOrDirectory path_join path_dirname path_basename statSync).
Local Abbreviation relocated :=
  (Files.relocated path_join path_dirname path_basename statSync).

Lemma obj_has_keys (k : string) (m : list (string * value)) :
  Js.obj_has k m = true <-> k ∈ map fst m.
Proof.
  induction m as [|[k' x] r IH]; cbn.
  - split; [discriminate|]. intros H. inversion H.
  - rewrite orb_true_iff, IH, elem_of_cons, String.eqb_eq.
    split; intros [H|H]; auto.
Qed.

Lemma obj_get_elem (k : string) (x : value) (m : list (string * value)) :
  NoDup (map fst m) -> (k, x) ∈ m -> Js.obj_get k m = x.
Proof.
  induction m as [|[k' x'] r IH]; cbn; intros Hnodup Hin; [inversion Hin|].
  apply NoDup_cons in Hnodup as [Hnotin Hnodup].
  apply elem_of_cons in Hin as [[= -> ->]|Hin].
  - rewrite String.eqb_refl. reflexivity.
  - destruct (String.eqb k' k) eqn:E; [|exact (IH Hnodup Hin)].
    apply String.eqb_eq in E. subst k'. exfalso. apply Hnotin.
    apply (list_elem_of_fmap_2 fst _ (k, x)). exact Hin.
Qed.

Lemma checkPackage_step (cwd : string) (acc : list (string * value))
  (k : string) (a1 : value) :
  cwd <> EmptyString ->
  Js.obj_has k acc = true ->
  checkPackage cwd (VObj acc) k = Ok a1 ->
  exists acc1,
    a1 = VObj acc1
    /\ map fst acc1 = map fst acc
    /\ (forall j, j <> k -> Js.obj_get j acc1 = Js.obj_get j acc)
    /\ relocated cwd (Js.obj_get k acc) (Js.obj_get k acc1).
Proof.
  intros Hcwd Hhas. unfold Files.checkPackage. cbn [Js.get mbind result_bind].
  destruct (Js.get (Js.obj_get k acc) "path") as [x|e] eqn:Hpath; [|discriminate].
  cbn [mbind result_bind]. apply is_empty_false in Hcwd. rewrite Hcwd, orb_false_r.
  assert (Hsame : Js.truthy x = false \/
                  (exists p, x = VStr p /\ statSync (path_join cwd p) = Ok false) ->
                  exists acc1,
                    VObj acc = VObj acc1 /\ map fst acc1 = map fst acc
                    /\ (forall j, j <> k -> Js.obj_get j acc1 = Js.obj_get j acc)
                    /\ relocated cwd (Js.obj_get k acc) (Js.obj_get k acc1)).
  { intros Hx. exists acc. repeat split; auto.
    - intros p Hp Hne. rewrite Hpath in Hp. injection Hp as ->.
      destruct Hx as [Hx|(p0 & [= <-] & Hstat)].
      + apply is_empty_false in Hne. cbn in Hx. rewrite Hne in Hx. discriminate Hx.
      + exists false. split; [exact Hstat|reflexivity]. }
  destruct (Js.truthy x) eqn:Ht; cbn [negb].
  2: { intros [= <-]. apply Hsame. left. reflexivity. }
  destruct x as [| |b|n e|p|items|members]; try discriminate.
  cbn [Files.path_arg mbind result_bind].
  destruct (statSync (path_join cwd p)) as [[|]|e] eqn:Hstat;
    cbn [mbind result_bind]; [|intros [= <-]; apply Hsame; right; eauto|discriminate].
  cbn [Js.set]. intros [= <-].
  apply get_named in Hpath as (em & Hentry & Hem);
    [|reflexivity|reflexivity|discriminate].
  rewrite Hentry. cbn [Files.spread].
  rewrite (obj_set_present _ _ _ Hhas).
  eexists. split; [reflexivity|]. split; [apply keys_replace|]. split.
  - intros j Hj. apply obj_get_replace_ne. exact Hj.
  - rewrite obj_get_replace by exact Hhas. split.
    + intros p0 Hp0 Hne. cbn in Hp0. rewrite Hem in Hp0. injection Hp0 as <-.
      exists true. split; [exact Hstat|].
      eexists. split; [reflexivity|]. split; [|split].
      * rewrite obj_get_set_ne by discriminate. apply obj_get_set.
      * apply obj_get_set.
      * intros k0 H1 H2. cbn [Js.get].
        rewrite !obj_get_set_ne by congruence. reflexivity.
    + intros x Hx Hfalsy. cbn in Hx. rewrite Hem in Hx. injection Hx as <-.
      rewrite Ht in Hfalsy. discriminate Hfalsy.
Qed.

Lemma checkPackages_fold (cwd : string) :
  cwd <> EmptyString ->
  forall (ks : list string) (acc : list (string * value)) (r : value),
    NoDup ks ->
    (forall k, k ∈ ks -> Js.obj_has k acc = true) ->
    Files.foldM (checkPackage cwd) (VObj acc) ks = Ok r ->
    exists acc',
      r = VObj acc'
      /\ map fst acc' = map fst acc
      /\ (forall j, j ∉ ks -> Js.obj_get j acc' = Js.obj_get j acc)
      /\ (forall k, k ∈ ks -> relocated cwd (Js.obj_get k acc) (Js.obj_get k acc')).
Proof.
  intros Hcwd. induction ks as [|k rest IH]; intros acc r Hnodup Hhas H; cbn in H.
  - injection H as <-. exists acc.
    split; [reflexivity|]. split; [reflexivity|]. split; [reflexivity|].
    intros k0 Hk0. inversion Hk0.
  - apply NoDup_cons in Hnodup as [Hnotin Hnodup].
    apply bind_ok in H as (a1 & Hstep & H).
    apply checkPackage_step in Hstep as (acc1 & -> & Hkeys & Hother & Hrel);
      [|exact Hcwd|apply Hhas; left].
    apply IH in H as (acc' & -> & Hkeys' & Hother' & Hrel'); [|exact Hnodup|].
    + exists acc'. split; [reflexivity|]. split; [congruence|]. split.
      * intros j Hj. rewrite Hother'.
        -- apply Hother. intros ->. apply Hj. left.
        -- intros Hin. apply Hj. right. exact Hin.
      * intros k0 Hk0. apply elem_of_cons in Hk0 as [->|Hk0].
        -- rewrite Hother' by exact Hnotin. exact Hrel.
        -- rewrite <- Hother; [exact (Hrel' k0 Hk0)|].
           intros ->. contradiction.
    + intros k0 Hk0. apply obj_has_keys. rewrite Hkeys. apply obj_has_keys.
      apply Hhas. right. exact Hk0.
Qed.

Lemma checkFileOrDirectory_result (cwd : string) (c pk : list (string * value))
  (r : value) :
  cwd <> EmptyString ->
  Js.obj_get "packages" c = VObj pk ->
  NoDup (map fst pk) ->
  checkFileOrDirectory cwd (VObj c) = Ok r ->
  exists pk',
    r = VObj [("packages", VObj pk')]
    /\ map fst pk' = map fst pk
    /\ forall name entry, (name, entry) ∈ pk -> relocated cwd entry (Js.obj_get name pk').
Proof.
  intros Hcwd Hpk Hnodup. unfold Files.checkFileOrDirectory.
  cbn [Js.get mbind result_bind]. rewrite Hpk. cbn [Js.truthy negb Files.spread].
  intros H. apply bind_ok in H as (r' & Hfold & H). injection H as <-.
  apply (checkPackages_fold cwd Hcwd) in Hfold as (pk' & -> & Hkeys & _ & Hrel);
    [|exact Hnodup|intros k Hk; apply obj_has_keys; exact Hk].
  exists pk'. split; [reflexivity|]. split; [exact Hkeys|].
  intros name entry Hin.
  rewrite <- (obj_get_elem name entry pk Hnodup Hin). apply Hrel.
  apply (list_elem_of_fmap_2 fst _ (name, entry)). exact Hin.
Qed.

(** X19: When [checkFileOrDirectory] returns for a configuration whose
    packages are an object, it returns the packages under the same names in
    the same order; the settings of a package whose path names a file have
    the directory of that file as [path] and its name as
    [packageFileName], with every other setting kept; the settings of
    every other package are as they were. *)
Theorem file_paths_are_split (cwd : string) (c pk : list (string * value))
  (r : value) :
  cwd <> EmptyString ->
  Js.obj_get "packages" c = VObj pk ->
  NoDup (map fst pk) ->
  checkFileOrDirectory cwd (VObj c) = Ok r ->
  exists pk',
    r = VObj [("packages", VObj pk')]
    /\ map fst pk' = map fst pk
    /\ forall name entry, (name, entry) ∈ pk -> relocated cwd entry (Js.obj_get name pk').
Proof. exact (checkFileOrDirectory_result cwd c pk r). Qed.

(** X20: A configured package whose path names nothing on the disk
    makes [checkFileOrDirectory] throw, and with it [configFile]. *)
Theorem missing_package_path_fails (cwd : string) (c pk : list (string * value))
  (name p : string) (entry : value) (e : exn) :
  cwd <> EmptyString ->
  Js.obj_get "packages" c = VObj pk ->
  NoDup (map fst pk) ->
  (name, entry) ∈ pk ->
  Js.get entry "path" = Ok (VStr p) ->
  p <> EmptyString ->
  statSync (path_join cwd p) = Throw e ->
  exists e', checkFileOrDirectory cwd (VObj c) = Throw e'.
Proof.
  intros Hcwd Hpk Hnodup Hin Hpath Hp Hstat.
  destruct (checkFileOrDirectory cwd (VObj c)) as [r|e'] eqn:E; [|eauto].
  exfalso.
  apply (checkFileOrDirectory_result cwd c pk r Hcwd Hpk Hnodup) in E
    as (pk' & _ & _ & Hrel).
  destruct (Hrel name entry Hin) as [Hfile _].
  destruct (Hfile p Hpath Hp) as (isFile & Hok & _). congruence.
Qed.

End FileOrDirectory.

(** ** The probe and the processes of a run *)

Section Probe.

Local Abbreviation grow :=
  (fun (version data : string) => version +:+ Str.trim data).

Lemma readVersion_unfold (version : string) (chunks : list string) :
  Run.readVersion version chunks
  = if Run.unset version
    then match chunks with
         | [] => None
         | data :: rest => Run.readVersion (version +:+ Str.trim data) rest
         end
    else Some version.
Proof. destruct chunks; reflexivity. Qed.

Lemma readVersion_some (chunks : list string) :
  forall start version,
    Run.readVersion start chunks = Some version ->
    Run.unset version = false
    /\ exists n,
        (n <= length chunks)%nat
        /\ version = foldl grow start (take n chunks)
        /\ forall k, (k < n)%nat -> Run.unset (foldl grow start (take k chunks)) = true.
Proof.
  induction chunks as [|data rest IH]; intros start version;
    rewrite readVersion_unfold; destruct (Run.unset start) eqn:Hstart;
    try discriminate.
  - intros [= <-]. split; [exact Hstart|]. exists 0%nat. repeat split; [|lia].
    cbn. lia.
  - intros H. apply IH in H as (Hset & n & Hn & Hv & Hbefore).
    split; [exact Hset|]. exists (S n). split; [cbn; lia|]. split; [exact Hv|].
    intros [|k] Hk; [exact Hstart|]. cbn. apply Hbefore. lia.
  - intros [= <-]. split; [exact Hstart|]. exists 0%nat. repeat split; [|lia].
    cbn. lia.
Qed.

Lemma readVersion_none (chunks : list string) :
  forall start,
    Run.readVersion start chunks = None
    <-> forall k, (k <= length chunks)%nat ->
                  Run.unset (foldl grow start (take k chunks)) = true.
Proof.
  induction chunks as [|data rest IH]; intros start;
    rewrite readVersion_unfold; destruct (Run.unset start) eqn:Hstart.
  - split; [|reflexivity]. intros _ [|k] Hk; [exact Hstart|cbn in Hk; lia].
  - split; [discriminate|]. intros H. specialize (H 0%nat ltac:(cbn; lia)).
    cbn in H. congruence.
  - rewrite IH. split.
    + intros H [|k] Hk; [exact Hstart|]. cbn. apply H. cbn in Hk. lia.
    + intros H k Hk. apply (H (S k)). cbn. lia.
  - split; [discriminate|]. intros H. specialize (H 0%nat ltac:(cbn; lia)).
    cbn in H. congruence.
Qed.

(** X21: The loop that reads the probe's output stops at the first
    chunk after which the trimmed chunks read so far, put end to end, are
    neither empty nor the text "undefined", and that text is the version
    it has read; it never ends, for lack of chunks, exactly when no chunk
    is such. *)
Theorem probe_reads_until_a_version (chunks : list string) :
  (forall version,
     Run.readVersion EmptyString chunks = Some version ->
     Run.unset version = false
     /\ exists n,
         (n <= length chunks)%nat
         /\ version = Run.accumulated (take n chunks)
         /\ forall k, (k < n)%nat -> Run.unset (Run.accumulated (take k chunks)) = true)
  /\ (Run.readVersion EmptyString chunks = None
      <-> forall k, (k <= length chunks)%nat ->
                    Run.unset (Run.accumulated (take k chunks)) = true).
Proof.
  split.
  - intros version. apply readVersion_some.
  - apply readVersion_none.
Qed.

Lemma blank_chunks (chunks : list string) :
  Forall (fun data => Str.trim data = EmptyString) chunks ->
  Run.readVersion EmptyString chunks = None.
Proof.
  induction 1 as [|data rest Hdata Hrest IH]; [reflexivity|].
  rewrite readVersion_unfold. cbn [Run.unset Str.is_empty orb].
  rewrite Hdata. exact IH.
Qed.

Variable probe_output : list Run.event -> string -> string -> list string.

(** How each process ends. *)
Variable process_exit : list Run.event -> string -> string -> result Z.


End Probe.


Section Processes.

Variable probe_output : list Run.event -> string -> string -> list string.
Variable exit_status : list Run.event -> string -> string -> result Z.
Variable Config : Type.
Variable Applied : Type.
Variable configFile : gmap string string -> string -> result Config.
Variable changeFiles :
  gmap string string -> string -> bool -> result (list string) * gmap string string.
Variable assemble : list string -> list (string * Run.Release).
Variable mergeIntoConfig :
  list (string * Run.Release) -> Config -> string -> result (list Run.PkgCommand).
Variable apply :
  gmap string string -> list Run.PkgCommand -> Config -> string
  -> result Applied * gmap string string.
Variable fillChangelogs :
  gmap string string -> Applied -> list (string * Run.Release) -> Config -> string
  -> result unit * gmap string string.
Variable without_vfile : Config -> value.

Local Abbreviation covector :=
  (Run.covector probe_output exit_status Config Applied configFile changeFiles
     assemble mergeIntoConfig apply fillChangelogs without_vfile).

Lemma statusLines_quiet (releases : list (string * Run.Release)) :
  List.filter Run.is_spawn (Run.statusLines releases) = []
  /\ List.filter Run.is_timer (Run.statusLines releases) = [].
Proof.
  unfold Run.statusLines. induction releases as [|r rest [IH1 IH2]]; cbn; auto.
Qed.

(** X23: Of the runner's own steps, only those of a [publish] run start
    processes, and only those of a [version] or a [publish] run start a
    timer: after any other run the trace has the processes it had, and
    after a run that is neither of the two, the timers it had.  (What the
    other packages of the workspace do inside [apply] and [fillChangelogs]
    is theirs; here they touch the disk only.) *)
Theorem only_publish_starts_processes (command cwd : string) (w : Run.world) :
  (command <> "publish" ->
   List.filter Run.is_spawn (Run.trace (snd (covector command cwd w)))
   = List.filter Run.is_spawn (Run.trace w))
  /\ (command <> "publish" -> command <> "version" ->
      List.filter Run.is_timer (Run.trace (snd (covector command cwd w)))
      = List.filter Run.is_timer (Run.trace w)).
Proof.
  assert (Hquiet : forall t extra,
             List.filter Run.is_spawn extra = [] ->
             List.filter Run.is_spawn (t ++ extra) = List.filter Run.is_spawn t).
  { intros t extra H. rewrite List.filter_app, H. apply app_nil_r. }
  assert (Hcalm : forall t extra,
             List.filter Run.is_timer extra = [] ->
             List.filter Run.is_timer (t ++ extra) = List.filter Run.is_timer t).
  { intros t extra H. rewrite List.filter_app, H. apply app_nil_r. }
  split.
  - intros Hp. apply eqb_neq in Hp. unfold Run.covector. rewrite Hp.
    destruct (configFile _ _) as [config|e]; [|reflexivity].
    destruct (changeFiles _ _ _) as [[changes|e] disk1]; [|reflexivity].
    destruct (String.eqb command "status").
    { destruct changes; cbn [snd Run.trace]; apply Hquiet; [reflexivity|].
      cbn [List.filter Run.is_spawn]. apply statusLines_quiet. }
    destruct (String.eqb command "config");
      [cbn [snd Run.trace]; apply Hquiet; reflexivity|].
    destruct (String.eqb command "version"); [|reflexivity].
    destruct (mergeIntoConfig _ _ _) as [commands|e];
      [|cbn [snd Run.trace]; apply Hquiet; reflexivity].
    destruct (apply _ _ _ _) as [[applied|e] disk2];
      [|cbn [snd Run.trace]; apply Hquiet; reflexivity].
    destruct (fillChangelogs _ _ _ _ _) as [[[]|e] disk3];
      cbn [snd Run.trace]; apply Hquiet; reflexivity.
  - intros Hp Hv. apply eqb_neq in Hp, Hv. unfold Run.covector. rewrite Hp, Hv.
    destruct (configFile _ _) as [config|e]; [|reflexivity].
    destruct (changeFiles _ _ _) as [[changes|e] disk1]; [|reflexivity].
    destruct (String.eqb command "status").
    { destruct changes; cbn [snd Run.trace]; apply Hcalm; [reflexivity|].
      cbn [List.filter Run.is_timer]. apply statusLines_quiet. }
    destruct (String.eqb command "config");
      [cbn [snd Run.trace]; apply Hcalm; reflexivity|].
    reflexivity.
Qed.

End Processes.

(** ** The earlier module: what it reads and what it writes *)

Section LegacyFiles.

Variable TOML_parse : string -> result value.
Variable TOML_stringify : value -> result string.
Variable path_extname : string -> string.

Local Abbreviation readPkgFile :=
  (FilesLegacy.readPkgFile TOML_parse path_extname).
Local Abbreviation writePkgFile := (FilesLegacy.writePkgFile TOML_stringify).

(** X24: The earlier module reads a file that is neither TOML nor JSON
    without complaint, as a package file whose name, version and document
    are all undefined; writing that package file throws "Unknown package
    file type." and leaves the disk as it was. *)
Theorem legacy_unknown_type_is_read_but_not_written
  (disk : gmap string string) (f text : string) :
  disk !! f = Some text ->
  path_extname f <> ".toml" ->
  path_extname f <> ".json" ->
  exists packageFile,
    readPkgFile disk f = Ok packageFile
    /\ FilesLegacy.name packageFile = VUndefined
    /\ FilesLegacy.version packageFile = VUndefined
    /\ FilesLegacy.pkg packageFile = VUndefined
    /\ writePkgFile disk packageFile
       = (Throw (Error "Unknown package file type."), disk).
Proof.
  intros Hf Ht Hj. apply eqb_neq in Ht, Hj.
  unfold FilesLegacy.readPkgFile, FilesLegacy.parsePkg. rewrite Hf.
  cbn [of_option mbind result_bind FilesLegacy.vextname].
  rewrite Ht, Hj. cbn [mbind result_bind].
  eexists. split; [reflexivity|]. repeat split.
  unfold FilesLegacy.writePkgFile, FilesLegacy.stringifyPkg.
  cbn [FilesLegacy.vfile FilesLegacy.vextname FilesLegacy.pkg].
  rewrite Ht, Hj. reflexivity.
Qed.

(** X25: In the earlier module, a JSON package file that is written
    and read again comes back with the same document, and with the name
    and the version that document has, provided [JSON.parse] reads back
    what [JSON.stringify] has written for it; no other path of the disk
    changes. *)
Theorem legacy_json_write_then_read
  (disk : gmap string string) (packageFile : FilesLegacy.PackageFile)
  (m : list (string * value)) :
  FilesLegacy.vextname (FilesLegacy.vfile packageFile) = ".json" ->
  path_extname (FilesLegacy.vpath (FilesLegacy.vfile packageFile)) = ".json" ->
  FilesLegacy.pkg packageFile = VObj m ->
  Files.JSON_parse (Files.json_text (VObj m)) = Ok (VObj m) ->
  exists written disk' again,
    writePkgFile disk packageFile = (Ok written, disk')
    /\ readPkgFile disk' (FilesLegacy.vpath (FilesLegacy.vfile packageFile)) = Ok again
    /\ FilesLegacy.pkg again = VObj m
    /\ FilesLegacy.name again = Js.obj_get "name" m
    /\ FilesLegacy.version again = Js.obj_get "version" m
    /\ FilesLegacy.vfile again = written
    /\ forall q, q <> FilesLegacy.vpath (FilesLegacy.vfile packageFile) ->
                 disk' !! q = disk !! q.
Proof.
  intros Hext Hpath Hpkg Hback.
  unfold FilesLegacy.writePkgFile, FilesLegacy.stringifyPkg.
  rewrite Hext, Hpkg.
  change (String.eqb ".json" ".toml") with false.
  change (String.eqb ".json" ".json") with true. cbv iota.
  fold (Files.json_text (VObj m)). cbn [FilesLegacy.vpath].
  eexists _, _, _. split; [reflexivity|].
  unfold FilesLegacy.readPkgFile, FilesLegacy.parsePkg.
  rewrite lookup_insert_eq. cbn [of_option mbind result_bind FilesLegacy.vextname
                                 FilesLegacy.contents].
  rewrite Hpath.
  change (String.eqb ".json" ".toml") with false.
  change (String.eqb ".json" ".json") with true. cbv iota.
  rewrite Hback. cbn [mbind result_bind Js.get].
  split; [reflexivity|]. cbn [FilesLegacy.pkg FilesLegacy.name FilesLegacy.version
                              FilesLegacy.vfile].
  do 4 (split; [reflexivity|]).
  intros q Hq. apply lookup_insert_ne. congruence.
Qed.

End LegacyFiles.

(** Witness for [written_package_file_loads_back]. *)
Lemma written_package_file_loads_back_witness :
  exists disk' loaded,
    Files.writePkgFile Fixture.path_join Fixture.no_printer Fixture.no_printer
      ∅ (Fixture.manifest "1.0.0") Fixture.repo
    = (Ok (Files.with_content
             {| Files.content := "{}"; Files.path := "package.json";
                Files.filename := "package"; Files.extname := ".json" |}
             (Files.json_text (VObj [("version", VStr "1.0.0")]))),
       disk')
    /\ Files.loadFile Fixture.path_join Fixture.path_join Fixture.posix_relative
         Fixture.parse_name Fixture.parse_ext disk' "package.json" Fixture.repo
       = Ok loaded
    /\ Files.content loaded = Files.json_text (VObj [("version", VStr "1.0.0")]).
Proof.
  destruct (written_package_file_loads_back Fixture.path_join Fixture.path_join
              Fixture.posix_relative Fixture.parse_name Fixture.parse_ext
              Fixture.no_printer Fixture.no_printer
              ∅ (Fixture.manifest "1.0.0") Fixture.repo
              {| Files.content := "{}"; Files.path := "package.json";
                 Files.filename := "package"; Files.extname := ".json" |}
              (Files.json_text (VObj [("version", VStr "1.0.0")]))
              eq_refl eq_refl)
    as (disk' & loaded & Hwrite & Hload & Hcontent & _).
  exists disk', loaded. auto.
Defined.

(** Witness for [manifests_are_keyed_by_nickname]: of two packages, the
    one configured under the empty name is not in the result. *)
Lemma manifests_are_keyed_by_nickname_witness :
  Fixture.manifests !! EmptyString = None
  /\ is_Some (Fixture.manifests !! "pkg-a").
Proof.
  pose proof (manifests_are_keyed_by_nickname Fixture.path_join Fixture.path_join
                Fixture.posix_relative Fixture.parse_name Fixture.parse_ext
                Fixture.no_parser Fixture.no_parser
                Fixture.workspace Fixture.repo Fixture.packages Fixture.manifests)
    as H.
  assert (Hnodup : NoDup (map fst Fixture.packages)).
  { cbn. apply NoDup_cons. split; [|apply NoDup_cons; split; [|apply NoDup_nil; exact I]].
    - intros Hin. apply list_elem_of_singleton in Hin. discriminate Hin.
    - intros Hin. inversion Hin. }
  assert (Hplain : "__proto__" ∉ map fst Fixture.packages).
  { cbn. intros Hin.
    repeat (apply elem_of_cons in Hin as [Hin|Hin]; [discriminate Hin|]).
    inversion Hin. }
  specialize (H Hnodup Hplain ltac:(vm_compute; reflexivity)).
  split.
  - destruct (Fixture.manifests !! EmptyString) as [p|] eqn:E; [|reflexivity].
    apply H in E as [Hne _]. exfalso. exact (Hne eq_refl).
  - eexists. apply H. split; [discriminate|].
    eexists. split; [left|]. vm_compute. reflexivity.
Defined.

(** Witness for [missing_file_reason_is_lost]. *)
Lemma missing_file_reason_is_lost_witness :
  Files.testSerializePkgFile Fixture.no_printer Fixture.no_printer Fixture.fileless
  = (Throw (Error "within app => undefined"), []).
Proof.
  exact (missing_file_reason_is_lost Fixture.no_printer Fixture.no_printer
           Fixture.fileless eq_refl).
Defined.

(** Witness for [file_paths_are_split]: the package given by the path of
    its manifest changes, the one given by its directory does not. *)
Lemma file_paths_are_split_witness :
  exists pk' em',
    Files.checkFileOrDirectory Fixture.path_join Fixture.dirname Fixture.basename
      Fixture.stat Fixture.repo (VObj [("packages", VObj Fixture.two_packages)])
    = Ok (VObj [("packages", VObj pk')])
    /\ Js.obj_get "lib" pk' = VObj [("path", VStr "lib")]
    /\ Js.obj_get "app" pk' = VObj em'
    /\ Js.obj_get "path" em' = VStr "app"
    /\ Js.obj_get "packageFileName" em' = VStr "Cargo.toml"
    /\ Js.obj_get "manager" em' = VStr "rust".
Proof.
  destruct (file_paths_are_split Fixture.path_join Fixture.dirname Fixture.basename
              Fixture.stat Fixture.repo
              [("packages", VObj Fixture.two_packages)] Fixture.two_packages
              (VObj [("packages",
                      VObj [("app", VObj [("path", VStr "app"); ("manager", VStr "rust");
                                          ("packageFileName", VStr "Cargo.toml")]);
                            ("lib", VObj [("path", VStr "lib")])])])
              ltac:(discriminate) eq_refl)
    as (pk' & Hr & _ & Hrel).
  - cbn. apply NoDup_cons. split; [|apply NoDup_cons; split; [|apply NoDup_nil; exact I]].
    + intros Hin. apply list_elem_of_singleton in Hin. discriminate Hin.
    + intros Hin. inversion Hin.
  - vm_compute. reflexivity.
  - destruct (Hrel "lib" (VObj [("path", VStr "lib")])
                ltac:(unfold Fixture.two_packages; set_solver)) as [Hlib _].
    destruct (Hlib "lib" eq_refl ltac:(discriminate)) as ([|] & Hstat & Hsame);
      [vm_compute in Hstat; discriminate Hstat|].
    destruct (Hrel "app" (VObj [("path", VStr "app/Cargo.toml"); ("manager", VStr "rust")])
                ltac:(unfold Fixture.two_packages; set_solver)) as [Happ _].
    destruct (Happ "app/Cargo.toml" eq_refl ltac:(discriminate))
      as ([|] & Hstat' & Hsplit); [|vm_compute in Hstat'; discriminate Hstat'].
    destruct Hsplit as (em' & Hem' & Hpath & Hname & Hkeep).
    exists pk', em'. injection Hr as <-.
    split; [reflexivity|]. split; [exact Hsame|]. split; [exact Hem'|].
    split; [rewrite Hpath; vm_compute; reflexivity|].
    split; [rewrite Hname; vm_compute; reflexivity|].
    specialize (Hkeep "manager" ltac:(discriminate) ltac:(discriminate)).
    cbn in Hkeep. injection Hkeep as <-. reflexivity.
Defined.

(** Witness for [missing_package_path_fails]. *)
Lemma missing_package_path_fails_witness :
  exists e',
    Files.checkFileOrDirectory Fixture.path_join Fixture.dirname Fixture.basename
      Fixture.stat Fixture.repo (VObj [("packages", VObj Fixture.three_packages)])
    = Throw e'.
Proof.
  apply (missing_package_path_fails Fixture.path_join Fixture.dirname Fixture.basename
           Fixture.stat Fixture.repo
           [("packages", VObj Fixture.three_packages)] Fixture.three_packages
           "gone" "gone" (VObj [("path", VStr "gone")])
           (Error "ENOENT: no such file or directory, stat '/repo/gone'")).
  - discriminate.
  - reflexivity.
  - cbn. repeat (apply NoDup_cons; split;
                 [intros Hin;
                  repeat (apply elem_of_cons in Hin as [Hin|Hin]; [discriminate Hin|]);
                  inversion Hin|]).
    apply NoDup_nil. exact I.
  - unfold Fixture.three_packages, Fixture.two_packages. set_solver.
  - reflexivity.
  - discriminate.
  - vm_compute. reflexivity.
Defined.

(** Witness for [legacy_unknown_type_is_read_but_not_written]: a readme. *)
Lemma legacy_unknown_type_is_read_but_not_written_witness :
  exists packageFile,
    FilesLegacy.readPkgFile Fixture.no_parser Fixture.parse_ext
      {[ "README.md" := "about" ]} "README.md" = Ok packageFile
    /\ FilesLegacy.pkg packageFile = VUndefined
    /\ FilesLegacy.writePkgFile Fixture.no_printer {[ "README.md" := "about" ]} packageFile
       = (Throw (Error "Unknown package file type."), {[ "README.md" := "about" ]}).
Proof.
  destruct (legacy_unknown_type_is_read_but_not_written Fixture.no_parser
              Fixture.no_printer Fixture.parse_ext
              {[ "README.md" := "about" ]} "README.md" "about")
    as (packageFile & Hread & _ & _ & Hpkg & Hwrite).
  - vm_compute. reflexivity.
  - vm_compute. discriminate.
  - vm_compute. discriminate.
  - exists packageFile. auto.
Defined.

(** Witness for [legacy_json_write_then_read]. *)
Lemma legacy_json_write_then_read_witness :
  exists written disk' again,
    FilesLegacy.writePkgFile Fixture.no_printer ∅ Fixture.legacy_manifest
    = (Ok written, disk')
    /\ FilesLegacy.readPkgFile Fixture.no_parser Fixture.parse_ext disk' "package.json"
       = Ok again
    /\ FilesLegacy.version again = VStr "1.1.0".
Proof.
  destruct (legacy_json_write_then_read Fixture.no_parser Fixture.no_printer
              Fixture.parse_ext ∅ Fixture.legacy_manifest
              [("name", VStr "app"); ("version", VStr "1.1.0")]
              eq_refl ltac:(vm_compute; reflexivity) eq_refl
              ltac:(vm_compute; reflexivity))
    as (written & disk' & again & Hwrite & Hread & _ & _ & Hversion & _).
  exists written, disk', again. auto.
Defined.

(** Witness for [deadline_is_armed]: a [publish] run of the runner on the
    earlier files module, with nothing to publish. *)
Lemma deadline_is_armed_witness :
  exists rest,
    Run.trace (snd (Fixture.run_legacy Fixture.probe_live Fixture.exit_zero []
                      "publish" Fixture.world0))
    = Run.Timer 120000 "timeout out waiting 120s for command" :: rest.
Proof.
  apply (deadline_is_armed Fixture.probe_live Fixture.exit_zero
           FilesLegacy.Config unit
           (Wiring.legacy_configFile Fixture.path_join)
           (Wiring.legacy_changeFiles Fixture.path_join Fixture.path_join
              Fixture.repo Fixture.globby_legacy)
           Fixture.no_releases (fun _ _ _ => Ok [])
           Fixture.no_apply Fixture.no_changelogs FilesLegacy.parsed
           "publish" Fixture.repo Fixture.world0
           {| FilesLegacy.config_vfile :=
                Some {| FilesLegacy.vpath := "/repo/.changes/config.json";
                        FilesLegacy.vextname := ".json";
                        FilesLegacy.contents := "{}" |};
              FilesLegacy.parsed := VObj [] |}
           ["a change"]
           (delete "/repo/.changes/add-feature.md" Fixture.disk0)).
  - vm_compute. reflexivity.
  - vm_compute. reflexivity.
  - right. reflexivity.
Defined.

(** Witness for [removed_change_files_cannot_be_loaded]. *)
Lemma removed_change_files_cannot_be_loaded_witness :
  exists e,
    Files.loadChangeFiles Fixture.path_join Fixture.path_join Fixture.posix_relative
      Fixture.parse_name Fixture.parse_ext
      (snd (Files.changeFilesRemove Fixture.path_join Fixture.disk0 Fixture.repo
              [".changes/add-feature.md"]))
      Fixture.repo [".changes/add-feature.md"]
    = Throw e.
Proof.
  apply (removed_change_files_cannot_be_loaded Fixture.path_join Fixture.path_join
           Fixture.posix_relative Fixture.parse_name Fixture.parse_ext
           Fixture.disk0 Fixture.repo [".changes/add-feature.md"]).
  - reflexivity.
  - discriminate.
Defined.

(** Witness for [started_changelog_is_read_back]: the package in [a] has
    no changelog. *)
Lemma started_changelog_is_read_back_witness :
  exists f,
    Files.readChangelog Fixture.path_join Fixture.path_join Fixture.posix_relative
      Fixture.parse_name Fixture.parse_ext
      (snd (Files.writeChangelog Fixture.path_join Fixture.workspace
              (Files.NewChangelog "a/CHANGELOG.md" Files.changelog_header)
              Fixture.repo))
      Fixture.repo "a" false
    = (Some (Files.LoadedChangelog f), [])
    /\ Files.content f = Files.changelog_header.
Proof.
  destruct (started_changelog_is_read_back Fixture.path_join Fixture.path_join
              Fixture.posix_relative Fixture.parse_name Fixture.parse_ext
              Fixture.workspace Fixture.repo "a" ltac:(vm_compute; reflexivity))
    as (changelog & Hread & _ & _ & Hback & _).
  vm_compute in Hread. injection Hread as <-.
  exact (Hback false).
Defined.
